(** * The fake clock of go-toolbelt/clock (fake.go)

    A shallow embedding of the virtual-time scheduling engine: the sleeper
    registry with its back-pointers, the blocker list, timers and tickers.

    Modelling conventions.

    - [time.Time] is an integer count of nanoseconds since the Unix epoch and
      [time.Duration] an integer count of nanoseconds; [Add] is integer
      addition.
    - A [*sleeper] is an address: the heap maps addresses to sleeper records,
      and the registry, timers and tickers hold addresses, so that the
      aliasing between the registry and the owners of a sleeper is the
      program's.  [nheap] is the number of sleepers allocated so far; the
      next allocation returns that address.
    - A channel is an identity ([make] returns the next unused one).  What the
      program does to channels and goroutines is recorded, in program order,
      in the [trace]: a send of a time on a sleeper's channel, the start of a
      goroutine running a callback, the closing of a blocker's channel.
    - Every public method takes the clock's mutex for its whole body, so that
      a concurrent execution is a sequence of method calls; each method is a
      function from worlds to worlds.
    - A run-time panic (index out of range, the panic of [NewTicker]) is the
      result [None].
    - A callback ([func]) is the identity of a function value that is not
      nil.  [AfterFunc] stores the wrapper [func() { go f() }], which is
      never nil; with a nil [f] the wrapper would crash at its [go]
      statement when the sleeper is woken.  That call is not modelled: every
      statement below is about calls whose callbacks are not nil.
    - Record fields carry a prefix ([sl_i] for [sleeper.i], [bl_n] for
      [blocker.n], [tm_] for [fakeTimer], [tk_] for [fakeTicker]); the
      clock's field [at] is [at_]. *)

From Stdlib Require Import ZArith Lia.
From stdpp Require Import base tactics option list numbers functions.

(** ** Data *)

Definition time := Z.
Definition duration := Z.
Definition chan := nat.
Definition func := nat.
Definition ptr := nat.

Definition Time_Add (t : time) (d : duration) : time := (t + d)%Z.
Definition Time_Before (t u : time) : bool := bool_decide (t < u)%Z.
Definition Time_After (t u : time) : bool := bool_decide (u < t)%Z.

(** The zero value of [time.Time]: January 1, year 1, 00:00:00 UTC. *)
Definition zeroTime : time := (-62135596800 * 1000000000)%Z.

Record sleeper := Sleeper {
  sl_i : Z;
  sl_until : time;
  sl_woke : bool;
  sl_c : option chan;
  sl_f : option func
}.

Record blocker := Blocker {
  bl_n : Z;
  bl_done : chan
}.

Record fakeClock := FakeClock {
  at_ : time;
  sleepers : list ptr;
  blockers : list blocker
}.

Record fakeTimer := FakeTimer {
  tm_stopped : bool;
  tm_sleeper : ptr
}.

Record fakeTicker := FakeTicker {
  tk_interval : duration;
  tk_next : time;
  tk_stopped : bool;
  tk_sleeper : ptr
}.

Inductive event :=
| Send (c : chan) (t : time)
| Go (f : func)
| Close (c : chan).

Record world := World {
  clock : fakeClock;
  heap : ptr → sleeper;
  nheap : nat;
  timers : nat → fakeTimer;
  ntimers : nat;
  tickers : nat → fakeTicker;
  ntickers : nat;
  nchan : nat;
  trace : list event
}.

Global Instance event_eq_dec : EqDecision event.
Proof. solve_decision. Defined.

(** ** Field updates *)

Definition set_i (v : Z) (s : sleeper) : sleeper :=
  Sleeper v (sl_until s) (sl_woke s) (sl_c s) (sl_f s).
Definition set_until (v : time) (s : sleeper) : sleeper :=
  Sleeper (sl_i s) v (sl_woke s) (sl_c s) (sl_f s).
Definition set_woke (v : bool) (s : sleeper) : sleeper :=
  Sleeper (sl_i s) (sl_until s) v (sl_c s) (sl_f s).
Definition set_c (v : option chan) (s : sleeper) : sleeper :=
  Sleeper (sl_i s) (sl_until s) (sl_woke s) v (sl_f s).

Definition set_at (v : time) (k : fakeClock) : fakeClock :=
  FakeClock v (sleepers k) (blockers k).
Definition set_sleepers (v : list ptr) (k : fakeClock) : fakeClock :=
  FakeClock (at_ k) v (blockers k).
Definition set_blockers (v : list blocker) (k : fakeClock) : fakeClock :=
  FakeClock (at_ k) (sleepers k) v.

Definition upd_clock (g : fakeClock → fakeClock) (w : world) : world :=
  World (g (clock w)) (heap w) (nheap w) (timers w) (ntimers w)
        (tickers w) (ntickers w) (nchan w) (trace w).
Definition upd_sleeper (p : ptr) (g : sleeper → sleeper) (w : world) : world :=
  World (clock w) (<[p := g (heap w p)]> (heap w)) (nheap w) (timers w)
        (ntimers w) (tickers w) (ntickers w) (nchan w) (trace w).
Definition upd_timer (t : nat) (g : fakeTimer → fakeTimer) (w : world) : world :=
  World (clock w) (heap w) (nheap w) (<[t := g (timers w t)]> (timers w))
        (ntimers w) (tickers w) (ntickers w) (nchan w) (trace w).
Definition upd_ticker (k : nat) (g : fakeTicker → fakeTicker) (w : world) : world :=
  World (clock w) (heap w) (nheap w) (timers w) (ntimers w)
        (<[k := g (tickers w k)]> (tickers w)) (ntickers w) (nchan w) (trace w).
Definition emit (e : event) (w : world) : world :=
  World (clock w) (heap w) (nheap w) (timers w) (ntimers w)
        (tickers w) (ntickers w) (nchan w) (trace w ++ [e]).

(** Allocation: [&sleeper{...}], [&fakeTimer{...}], [&fakeTicker{...}] and
    [make(chan ...)]. *)
Definition new_sleeper (s : sleeper) (w : world) : ptr * world :=
  (nheap w,
   World (clock w) (<[nheap w := s]> (heap w)) (S (nheap w)) (timers w)
         (ntimers w) (tickers w) (ntickers w) (nchan w) (trace w)).
Definition new_timer (t : fakeTimer) (w : world) : nat * world :=
  (ntimers w,
   World (clock w) (heap w) (nheap w) (<[ntimers w := t]> (timers w))
         (S (ntimers w)) (tickers w) (ntickers w) (nchan w) (trace w)).
Definition new_ticker (k : fakeTicker) (w : world) : nat * world :=
  (ntickers w,
   World (clock w) (heap w) (nheap w) (timers w) (ntimers w)
         (<[ntickers w := k]> (tickers w)) (S (ntickers w)) (nchan w) (trace w)).
Definition make_chan (w : world) : chan * world :=
  (nchan w,
   World (clock w) (heap w) (nheap w) (timers w) (ntimers w)
         (tickers w) (ntickers w) (S (nchan w)) (trace w)).

(** ** The sleeper and the registry *)

(** [sleeper.wake]: a woken sleeper is left alone; otherwise the flag is set,
    the deadline is sent on the channel if there is one, and the callback
    (which starts a goroutine) is called if there is one. *)
Definition wake (s : ptr) (w : world) : world :=
  if sl_woke (heap w s) then w
  else
    let w1 := upd_sleeper s (set_woke true) w in
    let w2 := match sl_c (heap w1 s) with
              | Some c => emit (Send c (sl_until (heap w1 s))) w1
              | None => w1
              end in
    match sl_f (heap w2 s) with
    | Some f => emit (Go f) w2
    | None => w2
    end.

(** [fakeClock.checkBlockers]: the blockers whose threshold is still above the
    registry's size are kept, in order; the others are closed. *)
Fixpoint checkBlockers_loop (len : nat) (bs kept : list blocker)
    (tr : list event) : list blocker * list event :=
  match bs with
  | [] => (kept, tr)
  | b :: bs' =>
      if bool_decide (Z.of_nat len < bl_n b)%Z
      then checkBlockers_loop len bs' (kept ++ [b]) tr
      else checkBlockers_loop len bs' kept (tr ++ [Close (bl_done b)])
  end.

Definition checkBlockers (w : world) : world :=
  let '(kept, tr) :=
    checkBlockers_loop (length (sleepers (clock w))) (blockers (clock w))
                       [] (trace w) in
  World (set_blockers kept (clock w)) (heap w) (nheap w) (timers w)
        (ntimers w) (tickers w) (ntickers w) (nchan w) tr.

Definition appendBlocker (b : blocker) (w : world) : world :=
  upd_clock (λ k, set_blockers (blockers k ++ [b]) k) w.

(** [fakeClock.appendSleeper] *)
Definition appendSleeper (s : ptr) (w : world) : world :=
  if negb (Time_Before (at_ (clock w)) (sl_until (heap w s)))
  then wake s (upd_sleeper s (set_i (-1)) w)
  else
    let w1 := upd_sleeper s (set_i (Z.of_nat (length (sleepers (clock w))))) w in
    let w2 := upd_clock (λ k, set_sleepers (sleepers k ++ [s]) k) w1 in
    checkBlockers w2.

(** [fakeClock.removeSleeper]: indexing the registry out of range panics. *)
Definition removeSleeper (s : ptr) (w : world) : option (bool * world) :=
  let i := sl_i (heap w s) in
  if bool_decide (i < 0)%Z then Some (false, w)
  else
    let reg := sleepers (clock w) in
    match reg !! (length reg - 1), reg !! Z.to_nat i with
    | Some last, Some _ =>
        let w1 := upd_clock (set_sleepers (<[Z.to_nat i := last]> reg)) w in
        let w2 := upd_sleeper last (set_i i) w1 in
        let w3 := upd_sleeper s (set_i (-1)) w2 in
        Some (true,
              upd_clock (λ k, set_sleepers (take (length reg - 1) (sleepers k)) k)
                        w3)
    | _, _ => None
    end.

(** [fakeClock.checkSleepers]: the registry is emptied and every sleeper it
    held is offered to [appendSleeper] again, in order.  (The new registry
    shares the old one's backing array; the write of the j-th kept sleeper
    lands at index j, which the loop has already read.) *)
Definition checkSleepers (w : world) : world :=
  let oldSleepers := sleepers (clock w) in
  foldl (λ w s, appendSleeper s w) (upd_clock (set_sleepers []) w) oldSleepers.

(** ** The clock's methods *)

Definition NewFakeClockAt (t : time) : world :=
  World (FakeClock t [] []) (λ _, Sleeper 0%Z zeroTime false None None) 0
        (λ _, FakeTimer false 0) 0 (λ _, FakeTicker 0%Z zeroTime false 0) 0 0 [].

(** [time.Unix(1, 0)] *)
Definition NewFakeClock : world := NewFakeClockAt 1000000000%Z.

Definition Now (w : world) : time := at_ (clock w).

Definition After (d : duration) (w : world) : chan * world :=
  let d := if bool_decide (d < 0)%Z then 0%Z else d in
  let '(c, w) := make_chan w in
  let '(s, w) :=
    new_sleeper (Sleeper 0%Z (Time_Add (at_ (clock w)) d) false (Some c) None) w in
  (c, appendSleeper s w).

(** The values a trace sends on a channel, oldest first. *)
Definition sent_on (c : chan) (tr : list event) : list time :=
  omap (λ e, match e with
             | Send c' t => if bool_decide (c' = c) then Some t else None
             | _ => None
             end) tr.

(** The values sent so far on a channel. *)
Definition sent (c : chan) (w : world) : list time := sent_on c (trace w).

Definition closed (c : chan) (w : world) : bool :=
  bool_decide (Close c ∈ trace w).

(** [Sleep] is [<-clock.After(d)]: the call returns, with the world [After]
    left, when the channel holds a value; otherwise the caller stays blocked
    on the receive ([None]) until some later [Advance] wakes its sleeper. *)
Definition Sleep (d : duration) (w : world) : option world :=
  let '(c, w) := After d w in
  match sent c w with
  | _ :: _ => Some w
  | [] => None
  end.

Definition AfterFunc (d : duration) (f : func) (w : world) : nat * world :=
  let '(s, w) :=
    new_sleeper (Sleeper 0%Z (Time_Add (at_ (clock w)) d) false None (Some f)) w in
  let '(t, w) := new_timer (FakeTimer false s) w in
  (t, appendSleeper s w).

Definition NewTimer (d : duration) (w : world) : nat * world :=
  let '(c, w) := make_chan w in
  let '(s, w) :=
    new_sleeper (Sleeper (-1) (Time_Add (Now w) d) false (Some c) None) w in
  new_timer (FakeTimer false s) w.

Definition fakeTimer_C (t : nat) (w : world) : option chan * world :=
  let s := tm_sleeper (timers w t) in
  let w := if bool_decide (sl_i (heap w s) < 0)%Z then appendSleeper s w else w in
  (sl_c (heap w s), w).

Definition fakeTimer_Stop (t : nat) (w : world) : option (bool * world) :=
  let stop := upd_timer t (λ x, FakeTimer true (tm_sleeper x)) in
  if tm_stopped (timers w t) then Some (false, stop w)
  else
    let s := tm_sleeper (timers w t) in
    match removeSleeper s w with
    | Some (true, w) => Some (true, stop w)
    | Some (false, w) =>
        Some (Time_After (sl_until (heap w s)) (at_ (clock w)), stop w)
    | None => None
    end.

Definition fakeTimer_Reset (t : nat) (d : duration) (w : world)
    : option (bool * world) :=
  let s := tm_sleeper (timers w t) in
  let d := if bool_decide (d < 0)%Z then 0%Z else d in
  let w := upd_sleeper s (set_until (Time_Add (at_ (clock w)) d)) w in
  let w := upd_sleeper s (set_woke false) w in
  let '(c, w) := make_chan w in
  let w := upd_sleeper s (set_c (Some c)) w in
  match removeSleeper s w with
  | Some (r, w) =>
      Some (r, match sl_f (heap w s) with
               | Some _ => appendSleeper s w
               | None => w
               end)
  | None => None
  end.

Definition NewTicker (d : duration) (w : world) : option (nat * world) :=
  if bool_decide (d <= 0)%Z then None
  else
    let '(s, w1) := new_sleeper (Sleeper (-1) zeroTime false None None) w in
    Some (new_ticker (FakeTicker d (Time_Add (Now w) d) false s) w1).

Definition fakeTicker_C (k : nat) (w : world) : chan * world :=
  let '(c, w) := make_chan w in
  if tk_stopped (tickers w k) then (c, w)
  else
    let '(s, w) :=
      new_sleeper (Sleeper 0%Z (tk_next (tickers w k)) false (Some c) None) w in
    let w := upd_ticker k (λ x, FakeTicker (tk_interval x) (tk_next x)
                                           (tk_stopped x) s) w in
    let w := appendSleeper (tk_sleeper (tickers w k)) w in
    let w := upd_ticker k (λ x, FakeTicker (tk_interval x)
                                  (Time_Add (tk_next x) (tk_interval x))
                                  (tk_stopped x) (tk_sleeper x)) w in
    (c, w).

Definition fakeTicker_Stop (k : nat) (w : world) : option world :=
  let w := upd_ticker k (λ x, FakeTicker (tk_interval x) (tk_next x) true
                                         (tk_sleeper x)) w in
  match removeSleeper (tk_sleeper (tickers w k)) w with
  | Some (_, w) => Some w
  | None => None
  end.

Definition fakeTicker_Reset (k : nat) (d : duration) (w : world) : option world :=
  match fakeTicker_Stop k w with
  | Some w =>
      let w := upd_ticker k (λ x, FakeTicker (tk_interval x) (tk_next x) false
                                             (tk_sleeper x)) w in
      let w := upd_ticker k (λ x, FakeTicker d (tk_next x) (tk_stopped x)
                                             (tk_sleeper x)) w in
      Some (upd_sleeper (tk_sleeper (tickers w k))
                        (set_until (Time_Add (Now w) d)) w)
  | None => None
  end.

(** What [Tick] returns: the function that always returns the nil channel, or
    the method value [ticker.C] of a new ticker. *)
Inductive tick :=
| TickNil
| TickC (k : nat).

Definition Tick (d : duration) (w : world) : option (tick * world) :=
  if bool_decide (d <= 0)%Z then Some (TickNil, w)
  else
    match NewTicker d w with
    | Some (k, w) => Some (TickC k, w)
    | None => None
    end.

(** Calling the function [Tick] returned; [None] is the nil channel. *)
Definition call_tick (f : tick) (w : world) : option chan * world :=
  match f with
  | TickNil => (None, w)
  | TickC k => let '(c, w) := fakeTicker_C k w in (Some c, w)
  end.

Definition Advance (d : duration) (w : world) : world :=
  if bool_decide (d <= 0)%Z then w
  else
    let w := upd_clock (λ k, set_at (Time_Add (at_ k) d) k) w in
    checkSleepers w.

Definition Until (n : Z) (w : world) : chan * world :=
  let '(done, w) := make_chan w in
  if bool_decide (Z.of_nat (length (sleepers (clock w))) >= n)%Z
  then (done, emit (Close done) w)
  else (done, appendBlocker (Blocker n done) w).

(** [BlockUntil] is [<-clock.Until(n)]: the call returns when the channel is
    closed, and otherwise stays blocked on the receive ([None]). *)
Definition BlockUntil (n : Z) (w : world) : option world :=
  let '(done, w) := Until n w in
  if closed done w then Some w else None.

(** ** Runs of method calls *)

Inductive op :=
| OpAfter (d : duration)
| OpAfterFunc (d : duration) (f : func)
| OpNewTimer (d : duration)
| OpTimerC (t : nat)
| OpTimerStop (t : nat)
| OpTimerReset (t : nat) (d : duration)
| OpNewTicker (d : duration)
| OpTickerC (k : nat)
| OpTickerStop (k : nat)
| OpTickerReset (k : nat) (d : duration)
| OpAdvance (d : duration)
| OpUntil (n : Z).

(** The world a call leaves; [None] when it panics. *)
Definition exec (o : op) (w : world) : option world :=
  match o with
  | OpAfter d => Some (After d w).2
  | OpAfterFunc d f => Some (AfterFunc d f w).2
  | OpNewTimer d => Some (NewTimer d w).2
  | OpTimerC t => Some (fakeTimer_C t w).2
  | OpTimerStop t => snd <$> fakeTimer_Stop t w
  | OpTimerReset t d => snd <$> fakeTimer_Reset t d w
  | OpNewTicker d => snd <$> NewTicker d w
  | OpTickerC k => Some (fakeTicker_C k w).2
  | OpTickerStop k => fakeTicker_Stop k w
  | OpTickerReset k d => fakeTicker_Reset k d w
  | OpAdvance d => Some (Advance d w)
  | OpUntil n => Some (Until n w).2
  end.

(** A call is well formed when the timer or ticker it is made on exists. *)
Definition op_ok (o : op) (w : world) : Prop :=
  match o with
  | OpTimerC t | OpTimerStop t | OpTimerReset t _ => t < ntimers w
  | OpTickerC k | OpTickerStop k | OpTickerReset k _ => k < ntickers w
  | _ => True
  end.

Global Instance op_ok_dec o w : Decision (op_ok o w).
Proof. destruct o; simpl; apply _. Defined.

Fixpoint run (os : list op) (w : world) : option world :=
  match os with
  | [] => Some w
  | o :: os' =>
      if decide (op_ok o w)
      then match exec o w with
           | Some w' => run os' w'
           | None => None
           end
      else None
  end.

Inductive reachable : world → Prop :=
| reach_new t : reachable (NewFakeClockAt t)
| reach_step w o w' :
    reachable w → op_ok o w → exec o w = Some w' → reachable w'.

(** ** Predicates on worlds *)

(** The sleeper at address [s] is pending: the registry holds it. *)
Definition pending (s : ptr) (w : world) : Prop := s ∈ sleepers (clock w).

Global Instance pending_dec s w : Decision (pending s w).
Proof. unfold pending. apply _. Defined.

(** What waking the sleeper at [s] does to the channels and goroutines. *)
Definition fire_events (s : sleeper) : list event :=
  if sl_woke s then []
  else match sl_c s with Some c => [Send c (sl_until s)] | None => [] end
       ++ match sl_f s with Some f => [Go f] | None => [] end.

Definition waiting (len : nat) (b : blocker) : Prop := (Z.of_nat len < bl_n b)%Z.
Definition satisfied (len : nat) (b : blocker) : Prop := ¬ waiting len b.

Global Instance waiting_dec len b : Decision (waiting len b).
Proof. unfold waiting. apply _. Defined.
Global Instance satisfied_dec len b : Decision (satisfied len b).
Proof. unfold satisfied. apply _. Defined.

(** The back-pointer invariant of the registry. *)
Record registry_ok (w : world) : Prop := RegistryOk {
  reg_index : ∀ pos p,
    sleepers (clock w) !! pos = Some p → sl_i (heap w p) = Z.of_nat pos;
  reg_back : ∀ p,
    p < nheap w → (0 <= sl_i (heap w p))%Z →
    sleepers (clock w) !! Z.to_nat (sl_i (heap w p)) = Some p;
  reg_alloc : ∀ p, p ∈ sleepers (clock w) → p < nheap w
}.


(** The sleeper at [s] is due: its deadline is not after the clock's instant. *)
Definition due (s : ptr) (w : world) : Prop :=
  (sl_until (heap w s) <= at_ (clock w))%Z.

Global Instance due_dec s w : Decision (due s w).
Proof. unfold due. apply _. Defined.

(** The parts of the world that only allocation changes. *)
Definition same_alloc (w w' : world) : Prop :=
  nheap w' = nheap w ∧ timers w' = timers w ∧ ntimers w' = ntimers w ∧
  tickers w' = tickers w ∧ ntickers w' = ntickers w ∧ nchan w' = nchan w.

(** The world after the first wake of the sleeper at [s]. *)
Definition woken (s : ptr) (w : world) : world :=
  World (clock w) (<[s := set_woke true (heap w s)]> (heap w)) (nheap w)
        (timers w) (ntimers w) (tickers w) (ntickers w) (nchan w)
        (trace w ++ fire_events (heap w s)).

(** Two sleeper records that differ at most in their index. *)
Definition same_but_i (a b : sleeper) : Prop :=
  sl_until a = sl_until b ∧ sl_woke a = sl_woke b ∧
  sl_c a = sl_c b ∧ sl_f a = sl_f b.

(** The world after the removal of the pending sleeper at [s], whose index is
    [i], when [last] is the registry's last entry. *)
Definition removed (s : ptr) (i : Z) (last : ptr) (w : world) : world :=
  World (FakeClock (at_ (clock w))
           (take (length (sleepers (clock w)) - 1)
                 (<[Z.to_nat i := last]> (sleepers (clock w))))
           (blockers (clock w)))
        (<[s := set_i (-1) (<[last := set_i i (heap w last)]> (heap w) s)]>
           (<[last := set_i i (heap w last)]> (heap w)))
        (nheap w) (timers w) (ntimers w) (tickers w) (ntickers w) (nchan w)
        (trace w).

(** The back-pointer invariant while the sleepers in [out] are outside the
    registry with indices that are not yet set (a sleeper just allocated; the
    sleepers [checkSleepers] has still to offer again). *)
Record registry_ok_except (out : list ptr) (w : world) : Prop := RegistryOkExcept {
  rx_index : ∀ pos p,
    sleepers (clock w) !! pos = Some p → sl_i (heap w p) = Z.of_nat pos;
  rx_back : ∀ p,
    p < nheap w → p ∉ out → (0 <= sl_i (heap w p))%Z →
    sleepers (clock w) !! Z.to_nat (sl_i (heap w p)) = Some p;
  rx_alloc : ∀ p, p ∈ sleepers (clock w) → p < nheap w;
  rx_out : ∀ p, p ∈ out → (p ∉ sleepers (clock w)) ∧ p < nheap w
}.

(** The sleepers of [l] offered to [appendSleeper] one after the other: the
    loop of [checkSleepers]. *)
Definition offer_all (l : list ptr) (w : world) : world :=
  foldl (λ w s, appendSleeper s w) w l.

(** What the loop of [checkSleepers] does, from world [v] to world [v'], when
    no sleeper occurs twice in [l] and the stored blockers' thresholds are
    above the size the registry can reach. *)
Record offered (l : list ptr) (v v' : world) : Prop := Offered {
  of_at : at_ (clock v') = at_ (clock v);
  of_blockers : blockers (clock v') = blockers (clock v);
  of_alloc : same_alloc v v';
  of_sleepers :
    sleepers (clock v') = sleepers (clock v) ++ filter (λ s, ¬ due s v) l;
  of_trace :
    trace v' =
    trace v ++ flat_map (λ s, fire_events (heap v s)) (filter (λ s, due s v) l);
  of_heap_other : ∀ p, p ∉ l → heap v' p = heap v p;
  of_heap_due : ∀ p,
    p ∈ l → due p v → heap v' p = set_woke true (set_i (-1) (heap v p));
  of_heap_kept : ∀ p, p ∈ l → ¬ due p v → same_but_i (heap v' p) (heap v p)
}.

(** The channels a trace closes, in order. *)
Definition closes (tr : list event) : list chan :=
  omap (λ e, match e with Close c => Some c | _ => None end) tr.

(** The channels a trace sends on, in order. *)
Definition sends (tr : list event) : list chan :=
  omap (λ e, match e with Send c _ => Some c | _ => None end) tr.

(** Who owns which sleeper, and which sleepers are asleep. *)
Record owners_ok (w : world) : Prop := OwnersOk {
  ow_asleep : ∀ p, pending p w → sl_woke (heap w p) = false;
  ow_timers : ∀ t, t < ntimers w → tm_sleeper (timers w t) < nheap w;
  ow_tickers : ∀ k, k < ntickers w → tk_sleeper (tickers w k) < nheap w;
  ow_apart : ∀ t k,
    t < ntimers w → k < ntickers w →
    tm_sleeper (timers w t) ≠ tk_sleeper (tickers w k);
  ow_woke : ∀ t,
    t < ntimers w → sl_woke (heap w (tm_sleeper (timers w t))) = true →
    due (tm_sleeper (timers w t)) w
}.

(** Every stored blocker still waits for more sleepers than are pending. *)
Definition blockers_ok (w : world) : Prop :=
  ∀ b, b ∈ blockers (clock w) → waiting (length (sleepers (clock w))) b.

(** The stored blockers' channels are open and distinct; no channel has been
    closed twice. *)
Record closes_ok (w : world) : Prop := ClosesOk {
  cl_fresh : ∀ b, b ∈ blockers (clock w) → bl_done b < nchan w;
  cl_open : ∀ b, b ∈ blockers (clock w) → bl_done b ∉ closes (trace w);
  cl_nodup : NoDup (bl_done <$> blockers (clock w));
  cl_alloc : ∀ c, c ∈ closes (trace w) → c < nchan w;
  cl_once : NoDup (closes (trace w))
}.

(** Every channel of a sleeper belongs to that sleeper alone, and a sleeper
    that is asleep has not sent on its channel: a channel is sent on at most
    once, so that its buffer of capacity one never makes a send wait. *)
Record sends_ok (w : world) : Prop := SendsOk {
  sn_fresh : ∀ p c, p < nheap w → sl_c (heap w p) = Some c → c < nchan w;
  sn_own : ∀ p q c,
    p < nheap w → q < nheap w →
    sl_c (heap w p) = Some c → sl_c (heap w q) = Some c → p = q;
  sn_unsent : ∀ p c,
    p < nheap w → sl_woke (heap w p) = false → sl_c (heap w p) = Some c →
    c ∉ sends (trace w);
  sn_alloc : ∀ c, c ∈ sends (trace w) → c < nchan w;
  sn_once : NoDup (sends (trace w))
}.

(** The invariant of the fake clock. *)
Record clock_ok (w : world) : Prop := ClockOk {
  ok_registry : registry_ok w;
  ok_owners : owners_ok w;
  ok_blockers : blockers_ok w;
  ok_closes : closes_ok w;
  ok_sends : sends_ok w
}.

(** ** Example worlds *)

Definition second : duration := 1000000000%Z.

(** The world a run of calls from a new clock leaves. *)
Definition world_after (os : list op) : world :=
  match run os NewFakeClock with
  | Some w => w
  | None => NewFakeClock
  end.

(** A timer for two seconds whose channel was never requested. *)
Definition idle_timer_world : world := world_after [OpNewTimer (2 * second)%Z].

(** Two sleepers, for one and for two seconds, and an observer waiting for a
    third. *)
Definition two_sleepers_world : world :=
  world_after [OpAfter second; OpAfter (2 * second)%Z; OpUntil 3%Z].

(** A ticker of one second whose channel was requested twice in a row. *)
Definition twice_requested_world : world :=
  world_after [OpNewTicker second; OpTickerC 0; OpTickerC 0].

(** A ticker of one second, reset to ten seconds at once, whose channel is
    requested after the reset. *)
Definition reset_ticker_world : world :=
  world_after [OpNewTicker second; OpTickerReset 0 (10 * second)%Z; OpTickerC 0].

(** A callback timer and a channel timer, both pending. *)
Definition two_timers_world : world :=
  world_after [OpAfterFunc (2 * second)%Z 7; OpNewTimer (3 * second)%Z; OpTimerC 1].

(** The world in which an active ticker's [C] offers its new sleeper: a new
    channel, a new sleeper at the ticker's next deadline, tracked by the
    ticker. *)
Definition requested (k : nat) (w : world) : world :=
  World (clock w)
        (<[nheap w := Sleeper 0 (tk_next (tickers w k)) false
                              (Some (nchan w)) None]> (heap w))
        (S (nheap w)) (timers w) (ntimers w)
        (<[k := FakeTicker (tk_interval (tickers w k)) (tk_next (tickers w k))
                           (tk_stopped (tickers w k)) (nheap w)]> (tickers w))
        (ntickers w) (S (nchan w)) (trace w).

(** A ticker of one second, reset to ten seconds at once. *)
Definition reset_only_world : world :=
  world_after [OpNewTicker second; OpTickerReset 0 (10 * second)%Z].

(** Every timer of [w] is a timer of [w'], with the same sleeper, and still
    stopped if it was. *)
Definition timers_kept (w w' : world) : Prop :=
  ∀ t, t < ntimers w →
       t < ntimers w' ∧
       tm_sleeper (timers w' t) = tm_sleeper (timers w t) ∧
       (tm_stopped (timers w t) = true → tm_stopped (timers w' t) = true).

(** From [w] to [w'] no blocker was stored or signalled and the registry did
    not grow. *)
Definition quiet (w w' : world) : Prop :=
  blockers (clock w') = blockers (clock w) ∧
  closes (trace w') = closes (trace w) ∧
  length (sleepers (clock w')) ≤ length (sleepers (clock w)).

(** From [w] to [w'] the registry grew by at most one sleeper, and just the
    blockers of [w] that the size reached in [w'] satisfies were signalled
    and dropped. *)
Definition signalled (w w' : world) : Prop :=
  blockers (clock w')
    = filter (waiting (length (sleepers (clock w')))) (blockers (clock w)) ∧
  closes (trace w')
    = closes (trace w) ++
      (bl_done <$> filter (satisfied (length (sleepers (clock w'))))
                          (blockers (clock w))) ∧
  length (sleepers (clock w')) ≤ S (length (sleepers (clock w))).

(** ** Further definitions *)

(** The time a run of calls lets pass: the positive durations of its
    [Advance] calls. *)
Definition elapsed (os : list op) : duration :=
  foldr (λ o acc, match o with
                  | OpAdvance d => (Z.max d 0 + acc)%Z
                  | _ => acc
                  end) 0%Z os.

(** No pending sleeper's deadline has passed. *)
Definition future_ok (w : world) : Prop :=
  ∀ p, pending p w → (at_ (clock w) < sl_until (heap w p))%Z.

(** [n] requests in a row for the channel of the ticker [k]. *)
Fixpoint request_n (n : nat) (k : nat) (w : world) : world :=
  match n with
  | 0 => w
  | S n' => (fakeTicker_C k (request_n n' k w)).2
  end.


(** The callbacks a trace starts in goroutines, in order. *)
Definition starts (tr : list event) : list func :=
  omap (λ e, match e with Go f => Some f | _ => None end) tr.

(** The sleeper a call on a timer or on a ticker works on.  A request for the
    channel of a ticker makes a new sleeper, and the other calls make their
    own or none. *)
Definition addressed (o : op) (w : world) : option ptr :=
  match o with
  | OpTimerC t | OpTimerStop t | OpTimerReset t _ =>
      Some (tm_sleeper (timers w t))
  | OpTickerStop k | OpTickerReset k _ => Some (tk_sleeper (tickers w k))
  | _ => None
  end.

(** The call [o] is made on the timer [t]. *)
Definition on_timer (t : nat) (o : op) : Prop :=
  match o with
  | OpTimerC t' | OpTimerStop t' | OpTimerReset t' _ => t' = t
  | _ => False
  end.

Global Instance on_timer_dec t o : Decision (on_timer t o).
Proof. destruct o; simpl; apply _. Defined.

(** No two timers share a sleeper. *)
Definition timers_apart (w : world) : Prop :=
  ∀ t t', t < ntimers w → t' < ntimers w →
          tm_sleeper (timers w t) = tm_sleeper (timers w t') → t = t'.

(** [time.Time.Sub]: the difference of two instants, kept within the range of
    a [Duration] (a signed 64-bit count of nanoseconds). *)
Definition minDuration : duration := (- 2 ^ 63)%Z.
Definition maxDuration : duration := (2 ^ 63 - 1)%Z.

Definition Time_Sub (t u : time) : duration :=
  Z.max minDuration (Z.min maxDuration (t - u)).

Definition Since (t : time) (w : world) : duration := Time_Sub (Now w) t.

(** The channel [c] has been made, nothing has been sent on it and no sleeper
    holds it. *)
Definition orphan (c : chan) (w : world) : Prop :=
  c < nchan w ∧ (c ∉ sends (trace w)) ∧
  ∀ p, p < nheap w → sl_c (heap w p) ≠ Some c.
(** ** Elementary facts *)

Ltac unfold_upd :=
  unfold upd_clock, upd_sleeper, upd_timer, upd_ticker, emit, new_sleeper,
    new_timer, new_ticker, make_chan, appendBlocker, set_at, set_sleepers,
    set_blockers in *.

Ltac heap_simpl :=
  repeat first
    [ rewrite fn_lookup_insert
    | rewrite fn_lookup_insert_ne by (auto; lia) ].

Lemma checkBlockers_loop_spec len bs kept tr :
  checkBlockers_loop len bs kept tr =
  (kept ++ filter (waiting len) bs,
   tr ++ map (λ b, Close (bl_done b)) (filter (satisfied len) bs)).
Proof.
  revert kept tr. induction bs as [|b bs IH]; intros kept tr; simpl.
  - by rewrite !app_nil_r.
  - case_bool_decide as Hb.
    + rewrite IH. rewrite filter_cons_True by exact Hb.
      rewrite (filter_cons_False (satisfied len)) by (unfold satisfied; tauto).
      by rewrite <- app_assoc.
    + rewrite IH. rewrite filter_cons_False by exact Hb.
      rewrite (filter_cons_True (satisfied len)) by exact Hb.
      simpl. by rewrite <- app_assoc.
Qed.

Lemma checkBlockers_eq w :
  checkBlockers w =
  World (set_blockers (filter (waiting (length (sleepers (clock w))))
                              (blockers (clock w))) (clock w))
        (heap w) (nheap w) (timers w) (ntimers w) (tickers w) (ntickers w)
        (nchan w)
        (trace w ++ map (λ b, Close (bl_done b))
                        (filter (satisfied (length (sleepers (clock w))))
                                (blockers (clock w)))).
Proof. unfold checkBlockers. by rewrite checkBlockers_loop_spec. Qed.

Lemma filter_all {A} (P : A → Prop) `{∀ x, Decision (P x)} (l : list A) :
  (∀ x, x ∈ l → P x) → filter P l = l.
Proof.
  induction l as [|x l IH]; intros Hl; [done|].
  rewrite filter_cons_True by (apply Hl; left).
  f_equal. apply IH. intros y Hy. apply Hl. by right.
Qed.

Lemma filter_none {A} (P : A → Prop) `{∀ x, Decision (P x)} (l : list A) :
  (∀ x, x ∈ l → ¬ P x) → filter P l = [].
Proof.
  induction l as [|x l IH]; intros Hl; [done|].
  rewrite filter_cons_False by (apply Hl; left).
  apply IH. intros y Hy. apply Hl. by right.
Qed.

(** When every stored blocker is still waiting, a check changes nothing. *)
Lemma checkBlockers_waiting w :
  (∀ b, b ∈ blockers (clock w) → waiting (length (sleepers (clock w))) b) →
  checkBlockers w = w.
Proof.
  intros Hb. rewrite checkBlockers_eq.
  rewrite filter_all by exact Hb.
  rewrite filter_none by (intros b Hin Hs; exact (Hs (Hb b Hin))).
  simpl. rewrite app_nil_r. destruct w as [[? ? ?] ? ? ? ? ? ? ? ?]. reflexivity.
Qed.


Lemma same_alloc_refl w : same_alloc w w.
Proof. by repeat split. Qed.

Lemma same_alloc_trans w1 w2 w3 :
  same_alloc w1 w2 → same_alloc w2 w3 → same_alloc w1 w3.
Proof.
  unfold same_alloc. intros (?&?&?&?&?&?) (?&?&?&?&?&?).
  repeat split; congruence.
Qed.

Lemma set_woke_true_id s : sl_woke s = true → set_woke true s = s.
Proof. destruct s; simpl; intros ->; reflexivity. Qed.

Section wake_facts.
Variables (s : ptr) (w : world).

Lemma wake_woken : sl_woke (heap w s) = true → wake s w = w.
Proof. unfold wake. by intros ->. Qed.

Lemma wake_asleep : sl_woke (heap w s) = false → wake s w = woken s w.
Proof.
  unfold wake, woken, fire_events. intros ->.
  unfold_upd; simpl. heap_simpl. simpl.
  destruct (sl_c (heap w s)); simpl; heap_simpl; simpl;
    destruct (sl_f (heap w s)); simpl;
    rewrite <- ?app_assoc, ?app_nil_r; reflexivity.
Qed.

Lemma wake_clock : clock (wake s w) = clock w.
Proof.
  destruct (sl_woke (heap w s)) eqn:Hw;
    [by rewrite wake_woken|by rewrite wake_asleep].
Qed.

Lemma wake_alloc : same_alloc w (wake s w).
Proof.
  destruct (sl_woke (heap w s)) eqn:Hw;
    [rewrite wake_woken|rewrite wake_asleep]; by repeat split.
Qed.

Lemma wake_trace : trace (wake s w) = trace w ++ fire_events (heap w s).
Proof.
  destruct (sl_woke (heap w s)) eqn:Hw;
    [rewrite wake_woken by done|by rewrite wake_asleep].
  unfold fire_events. by rewrite Hw, app_nil_r.
Qed.

Lemma wake_heap p :
  heap (wake s w) p = if decide (s = p) then set_woke true (heap w s)
                      else heap w p.
Proof.
  destruct (sl_woke (heap w s)) eqn:Hw;
    [rewrite wake_woken by done|rewrite wake_asleep by done].
  - case_decide; [subst; by rewrite set_woke_true_id|done].
  - simpl. unfold insert, fn_insert. by case_decide.
Qed.

Lemma wake_heap_eq : heap (wake s w) s = set_woke true (heap w s).
Proof. rewrite wake_heap. by case_decide. Qed.

Lemma wake_heap_ne p : s ≠ p → heap (wake s w) p = heap w p.
Proof. intros. rewrite wake_heap. by case_decide. Qed.
End wake_facts.

(** A second wake does nothing at all. *)
Lemma wake_idempotent s w : wake s (wake s w) = wake s w.
Proof. apply wake_woken. by rewrite wake_heap_eq. Qed.


Section appendSleeper_facts.
Variables (s : ptr) (w : world).

Lemma appendSleeper_due :
  due s w → appendSleeper s w = wake s (upd_sleeper s (set_i (-1)) w).
Proof.
  unfold due, appendSleeper, Time_Before. intros Hd.
  rewrite bool_decide_eq_false_2 by lia. done.
Qed.

Lemma appendSleeper_not_due :
  ¬ due s w →
  appendSleeper s w =
  checkBlockers
    (upd_clock (λ k, set_sleepers (sleepers k ++ [s]) k)
       (upd_sleeper s (set_i (Z.of_nat (length (sleepers (clock w))))) w)).
Proof.
  unfold due, appendSleeper, Time_Before. intros Hd.
  rewrite bool_decide_eq_true_2 by lia. done.
Qed.

Lemma appendSleeper_alloc : same_alloc w (appendSleeper s w).
Proof.
  destruct (decide (due s w)) as [Hd|Hd].
  - rewrite appendSleeper_due by done.
    eapply same_alloc_trans; [|apply wake_alloc]. by repeat split.
  - rewrite appendSleeper_not_due by done. rewrite checkBlockers_eq.
    by repeat split.
Qed.

Lemma appendSleeper_at : at_ (clock (appendSleeper s w)) = at_ (clock w).
Proof.
  destruct (decide (due s w)) as [Hd|Hd].
  - rewrite appendSleeper_due by done. by rewrite wake_clock.
  - rewrite appendSleeper_not_due by done. by rewrite checkBlockers_eq.
Qed.

Lemma appendSleeper_sleepers :
  sleepers (clock (appendSleeper s w)) =
  if decide (due s w) then sleepers (clock w) else sleepers (clock w) ++ [s].
Proof.
  case_decide as Hd.
  - rewrite appendSleeper_due by done. by rewrite wake_clock.
  - rewrite appendSleeper_not_due by done. by rewrite checkBlockers_eq.
Qed.

Lemma appendSleeper_blockers :
  blockers (clock (appendSleeper s w)) =
  if decide (due s w) then blockers (clock w)
  else filter (waiting (S (length (sleepers (clock w))))) (blockers (clock w)).
Proof.
  case_decide as Hd.
  - rewrite appendSleeper_due by done. by rewrite wake_clock.
  - rewrite appendSleeper_not_due by done. rewrite checkBlockers_eq. simpl.
    rewrite length_app. simpl. by rewrite Nat.add_1_r.
Qed.

Lemma appendSleeper_trace :
  trace (appendSleeper s w) =
  trace w ++
  if decide (due s w) then fire_events (heap w s)
  else map (λ b, Close (bl_done b))
           (filter (satisfied (S (length (sleepers (clock w)))))
                   (blockers (clock w))).
Proof.
  case_decide as Hd.
  - rewrite appendSleeper_due by done. rewrite wake_trace. simpl.
    heap_simpl. by destruct (heap w s).
  - rewrite appendSleeper_not_due by done. rewrite checkBlockers_eq. simpl.
    rewrite length_app. simpl. by rewrite Nat.add_1_r.
Qed.

Lemma appendSleeper_heap p :
  heap (appendSleeper s w) p =
  if decide (s = p)
  then if decide (due s w) then set_woke true (set_i (-1) (heap w s))
       else set_i (Z.of_nat (length (sleepers (clock w)))) (heap w s)
  else heap w p.
Proof.
  destruct (decide (due s w)) as [Hd|Hd].
  - rewrite appendSleeper_due by done. rewrite wake_heap. simpl.
    case_decide; heap_simpl; done.
  - rewrite appendSleeper_not_due by done. rewrite checkBlockers_eq. simpl.
    unfold insert, fn_insert. by case_decide.
Qed.

Lemma appendSleeper_heap_ne p : s ≠ p → heap (appendSleeper s w) p = heap w p.
Proof. intros. rewrite appendSleeper_heap. by case_decide. Qed.
End appendSleeper_facts.

Lemma same_but_i_refl a : same_but_i a a.
Proof. by repeat split. Qed.

Lemma same_but_i_set_i v a : same_but_i (set_i v a) a.
Proof. by repeat split. Qed.

Lemma same_but_i_trans a b c : same_but_i a b → same_but_i b c → same_but_i a c.
Proof.
  unfold same_but_i. intros (?&?&?&?) (?&?&?&?). repeat split; congruence.
Qed.

Section removeSleeper_facts.
Variables (s : ptr) (w : world).

Lemma removeSleeper_unregistered :
  (sl_i (heap w s) < 0)%Z → removeSleeper s w = Some (false, w).
Proof.
  intros Hi. unfold removeSleeper. by rewrite bool_decide_eq_true_2.
Qed.

Lemma removeSleeper_registered last :
  (0 <= sl_i (heap w s))%Z →
  sleepers (clock w) !! (length (sleepers (clock w)) - 1) = Some last →
  is_Some (sleepers (clock w) !! Z.to_nat (sl_i (heap w s))) →
  removeSleeper s w = Some (true, removed s (sl_i (heap w s)) last w).
Proof.
  intros Hi Hlast [x Hx]. unfold removeSleeper.
  rewrite bool_decide_eq_false_2 by lia. rewrite Hlast, Hx.
  reflexivity.
Qed.

(** What a removal that does not panic can have done. *)
Lemma removeSleeper_Some r w' :
  removeSleeper s w = Some (r, w') →
  (r = false ∧ w' = w ∧ (sl_i (heap w s) < 0)%Z) ∨
  (r = true ∧ (0 <= sl_i (heap w s))%Z ∧
   ∃ last, sleepers (clock w) !! (length (sleepers (clock w)) - 1) = Some last ∧
           is_Some (sleepers (clock w) !! Z.to_nat (sl_i (heap w s))) ∧
           w' = removed s (sl_i (heap w s)) last w).
Proof.
  unfold removeSleeper. case_bool_decide as Hi.
  - intros [= <- <-]. by left.
  - destruct (sleepers (clock w) !! (length (sleepers (clock w)) - 1))
      as [last|] eqn:Hlast; [|done].
    destruct (sleepers (clock w) !! Z.to_nat (sl_i (heap w s)))
      as [x|] eqn:Hx; [|done].
    intros [= <- <-]. right. split; [done|]. split; [lia|].
    exists last. by eauto.
Qed.

Lemma removed_heap_s i last : sl_i (heap (removed s i last w) s) = (-1)%Z.
Proof. unfold removed; simpl. by heap_simpl. Qed.

Lemma removed_same_but_i i last p :
  same_but_i (heap (removed s i last w) p) (heap w p).
Proof.
  unfold removed; simpl. unfold insert, fn_insert.
  repeat case_decide; subst; by repeat split.
Qed.

Lemma removed_length i last :
  0 < length (sleepers (clock w)) →
  length (sleepers (clock (removed s i last w))) =
  length (sleepers (clock w)) - 1.
Proof.
  intros. unfold removed; simpl. rewrite length_take, length_insert. lia.
Qed.
End removeSleeper_facts.

(** Removal touches neither the instant, the blockers nor the trace; the
    registry does not grow; the sleeper's index is negative afterwards. *)
Lemma removeSleeper_frame s w r w' :
  removeSleeper s w = Some (r, w') →
  at_ (clock w') = at_ (clock w) ∧ blockers (clock w') = blockers (clock w) ∧
  trace w' = trace w ∧ same_alloc w w' ∧
  (∀ p, same_but_i (heap w' p) (heap w p)) ∧
  length (sleepers (clock w')) ≤ length (sleepers (clock w)) ∧
  (sl_i (heap w' s) < 0)%Z ∧
  (r = true ↔ (0 <= sl_i (heap w s))%Z).
Proof.
  intros H. apply removeSleeper_Some in H as [(-> & -> & Hi)|(-> & Hi & last & Hl & Hs & ->)].
  - repeat split; try done; try lia.
  - repeat split; try done.
    + apply removed_same_but_i.
    + apply removed_same_but_i.
    + apply removed_same_but_i.
    + apply removed_same_but_i.
    + unfold removed; simpl. rewrite length_take, length_insert. lia.
    + rewrite removed_heap_s. lia.
Qed.

(** ** The back-pointer invariant *)

Lemma registry_ok_except_nil w : registry_ok w ↔ registry_ok_except [] w.
Proof.
  split.
  - intros [H1 H2 H3]. constructor; eauto.
    intros p Hp. by apply elem_of_nil in Hp.
  - intros [H1 H2 H3 _]. constructor; eauto.
    intros p Hp Hi. apply H2; [done| |done]. apply not_elem_of_nil.
Qed.

Lemma registry_ok_NoDup w : registry_ok w → NoDup (sleepers (clock w)).
Proof.
  intros [H1 _ _]. apply NoDup_alt. intros i j p Hi Hj.
  apply H1 in Hi, Hj. lia.
Qed.

(** An allocated sleeper is pending exactly when its index is not negative,
    and the index then is its position. *)
Lemma registry_ok_pending w s :
  registry_ok w → s < nheap w →
  (pending s w ↔ (0 <= sl_i (heap w s))%Z).
Proof.
  intros [H1 H2 H3] Hs. unfold pending. split.
  - intros (pos & Hpos)%list_elem_of_lookup_1. apply H1 in Hpos. lia.
  - intros Hi. eapply list_elem_of_lookup_2. by apply H2.
Qed.

Lemma registry_ok_negative w s :
  registry_ok w → s < nheap w →
  ((sl_i (heap w s) < 0)%Z ↔ ¬ pending s w).
Proof. intros Hr Hs. rewrite registry_ok_pending by done. lia. Qed.

Lemma registry_ok_position w s pos :
  registry_ok w → sleepers (clock w) !! pos = Some s →
  Z.to_nat (sl_i (heap w s)) = pos.
Proof. intros [H1 _ _] Hpos. apply H1 in Hpos. lia. Qed.

(** Offering a sleeper whose index is unset establishes its index. *)
Lemma appendSleeper_registry_ok_except s out w :
  registry_ok_except (s :: out) w → s ∉ out →
  registry_ok_except out (appendSleeper s w).
Proof.
  intros [H1 H2 H3 H4] Hs.
  destruct (H4 s) as [Hs1 Hs2]; [by left|].
  pose proof (appendSleeper_alloc s w) as (Hn & _).
  constructor.
  - intros pos p. rewrite appendSleeper_sleepers, appendSleeper_heap.
    case_decide as Hd.
    + intros Hp. rewrite decide_False.
      * by apply H1.
      * intros ->. apply Hs1. by eapply list_elem_of_lookup_2.
    + intros [Hp|[Hp1 Hp2]]%lookup_app_Some.
      * rewrite (decide_False (P := s = p)); [by apply H1|].
        intros ->. apply Hs1. by eapply list_elem_of_lookup_2.
      * apply list_lookup_singleton_Some in Hp2 as [Hp2 <-].
        rewrite (decide_True (P := s = s)) by done. simpl. lia.
  - intros p. rewrite Hn, appendSleeper_sleepers, appendSleeper_heap.
    intros Hp Hout. destruct (decide (s = p)) as [<-|Hne].
    + case_decide as Hd; simpl; [lia|]. intros _.
      rewrite Nat2Z.id. by apply list_lookup_middle.
    + intros Hi. assert (sleepers (clock w) !! Z.to_nat (sl_i (heap w p)) = Some p)
        as Hl.
      { apply H2; [done| |done]. intros [->|?]%elem_of_cons; done. }
      case_decide; [done|]. by apply lookup_app_l_Some.
  - intros p. rewrite Hn, appendSleeper_sleepers. case_decide.
    + apply H3.
    + intros [?| ->%list_elem_of_singleton]%elem_of_app; [by apply H3|done].
  - intros p Hp. rewrite Hn, appendSleeper_sleepers.
    destruct (H4 p) as [Hp1 Hp2]; [by right|]. split; [|done].
    case_decide; [done|].
    intros [?| ->%list_elem_of_singleton]%elem_of_app; done.
Qed.

Lemma appendSleeper_registry_ok s w :
  registry_ok w → s < nheap w → (sl_i (heap w s) < 0)%Z →
  registry_ok (appendSleeper s w).
Proof.
  intros Hr Hs Hi. apply registry_ok_except_nil.
  apply appendSleeper_registry_ok_except; [|apply not_elem_of_nil].
  pose proof (proj1 (registry_ok_negative w s Hr Hs) Hi) as Hp.
  destruct Hr as [H1 H2 H3]. constructor; [exact H1| |exact H3|].
  - intros p ? Hout. by apply H2.
  - by intros p ->%list_elem_of_singleton.
Qed.

(** The registry after a removal, entry by entry. *)
Lemma removed_lookup s w last pos :
  let reg := sleepers (clock w) in
  let i := Z.to_nat (sl_i (heap w s)) in
  i < length reg →
  sleepers (clock (removed s (sl_i (heap w s)) last w)) !! pos =
  if decide (pos < length reg - 1)
  then if decide (pos = i) then Some last else reg !! pos
  else None.
Proof.
  intros reg i Hi. unfold removed; simpl. fold reg. fold i.
  case_decide as Hpos.
  - rewrite lookup_take_lt by done. case_decide as Heq.
    + subst pos. by apply list_lookup_insert_eq.
    + by apply list_lookup_insert_ne.
  - apply lookup_take_ge. lia.
Qed.

Lemma removed_heap s w last p :
  heap (removed s (sl_i (heap w s)) last w) p =
  if decide (p = s) then set_i (-1) (heap w s)
  else if decide (p = last) then set_i (sl_i (heap w s)) (heap w last)
  else heap w p.
Proof.
  unfold removed; simpl. unfold insert, fn_insert.
  repeat case_decide; subst; try done.
Qed.

Section removeSleeper_registry.
Variables (s : ptr) (w : world).
Hypothesis Hr : registry_ok w.
Hypothesis Hs : s < nheap w.

Let reg := sleepers (clock w).

Lemma removeSleeper_not_pending :
  ¬ pending s w → removeSleeper s w = Some (false, w).
Proof.
  intros Hp. apply removeSleeper_unregistered.
  by apply registry_ok_negative.
Qed.

Section registered.
Hypothesis Hp : pending s w.

Let zi := sl_i (heap w s).
Let i := Z.to_nat zi.

Lemma pending_index : (0 <= zi)%Z ∧ reg !! i = Some s ∧ i < length reg.
Proof.
  assert (0 <= zi)%Z as Hz by (by apply registry_ok_pending).
  assert (reg !! i = Some s) as Hi by (by apply (reg_back w Hr)).
  split; [done|]. split; [done|]. by eapply lookup_lt_Some.
Qed.

Lemma pending_last : ∃ last, reg !! (length reg - 1) = Some last.
Proof.
  destruct pending_index as (_ & _ & Hlt).
  destruct (lookup_lt_is_Some_2 reg (length reg - 1)) as [last Hl]; [lia|].
  by exists last.
Qed.

Lemma removeSleeper_pending last :
  reg !! (length reg - 1) = Some last →
  removeSleeper s w = Some (true, removed s zi last w).
Proof.
  intros Hl. destruct pending_index as (Hz & Hi & _).
  apply removeSleeper_registered; [done|done|by exists s].
Qed.

Lemma removed_registry_ok last :
  reg !! (length reg - 1) = Some last →
  registry_ok (removed s zi last w) ∧
  ∀ p, pending p (removed s zi last w) ↔ pending p w ∧ p ≠ s.
Proof.
  intros Hl. destruct pending_index as (Hz & Hi & Hlt).
  pose proof (registry_ok_NoDup w Hr) as Hnd.
  destruct Hr as [H1 H2 H3].
  assert (∀ a b x, reg !! a = Some x → reg !! b = Some x → a = b) as Hinj.
  { intros a b x Ha Hb. eapply NoDup_lookup; eauto. }
  assert (∀ a x y, reg !! a = Some x → reg !! a = Some y → x = y) as Hdet.
  { intros a x y Ha Hb. congruence. }
  assert (∀ pos p,
    sleepers (clock (removed s zi last w)) !! pos = Some p →
    pos < length reg - 1 ∧ p ≠ s ∧
    ((pos = i ∧ p = last) ∨ (pos ≠ i ∧ reg !! pos = Some p))) as Hlook.
  { intros pos p. unfold zi. rewrite removed_lookup by done.
    fold reg. fold zi. fold i.
    case_decide as Hpos; [|done].
    case_decide as Heq.
    - intros [= <-]. split; [done|]. split; [|by left]. intros Hls.
      rewrite Hls in Hl.
      assert (i = length reg - 1) by (by eapply Hinj). lia.
    - intros Hp'. split; [done|]. split; [|by right]. intros Hps.
      rewrite Hps in Hp'. apply Heq. by eapply Hinj. }
  split; [constructor|].
  - intros pos p Hpos. destruct (Hlook _ _ Hpos) as (Hlt' & Hne & Hcase).
    unfold zi. rewrite removed_heap. rewrite decide_False by done.
    destruct Hcase as [[-> ->]|[Hpi Hreg]].
    + rewrite decide_True by done. simpl. fold zi. unfold i. lia.
    + rewrite decide_False; [by apply H1|].
      intros ->. assert (pos = length reg - 1) by (by eapply Hinj). lia.
  - intros p Hpn. unfold zi at 1 2. rewrite removed_heap.
    case_decide as Hps; [simpl; lia|].
    case_decide as Hpl.
    + subst p. cbn [sl_i set_i]. intros _. unfold zi.
      rewrite removed_lookup by done. fold reg. fold zi. fold i.
      assert (i ≠ length reg - 1).
      { intros Heq. rewrite <- Heq in Hl. congruence. }
      rewrite decide_True by lia. by rewrite decide_True.
    + intros Hpi. pose proof (H2 p Hpn Hpi) as Hreg. fold reg in Hreg.
      unfold zi. rewrite removed_lookup by done. fold reg. fold zi. fold i.
      assert (Z.to_nat (sl_i (heap w p)) < length reg)
        by (by eapply lookup_lt_Some).
      assert (Z.to_nat (sl_i (heap w p)) ≠ length reg - 1).
      { intros Heq. apply Hpl. eapply Hdet; [|exact Hl].
        rewrite <- Heq. exact Hreg. }
      assert (Z.to_nat (sl_i (heap w p)) ≠ i).
      { intros Heq. apply Hps. eapply Hdet; [|exact Hi].
        rewrite <- Heq. exact Hreg. }
      rewrite decide_True by lia. by rewrite decide_False.
  - intros p (pos & Hpos)%list_elem_of_lookup_1.
    destruct (Hlook _ _ Hpos) as (_ & _ & [[_ ->]|[_ Hreg]]).
    + apply H3. by eapply list_elem_of_lookup_2.
    + apply H3. by eapply list_elem_of_lookup_2.
  - intros p. unfold pending. split.
    + intros (pos & Hpos)%list_elem_of_lookup_1.
      destruct (Hlook _ _ Hpos) as (_ & Hne & [[_ ->]|[_ Hreg]]).
      * split; [|done]. by eapply list_elem_of_lookup_2.
      * split; [|done]. by eapply list_elem_of_lookup_2.
    + intros [(pos & Hpos)%list_elem_of_lookup_1 Hne].
      fold reg in Hpos.
      assert (pos ≠ i) by (intros ->; congruence).
      assert (pos < length reg) by (by eapply lookup_lt_Some).
      destruct (decide (pos = length reg - 1)) as [Hpl|Hpl].
      * assert (p = last) as -> by (rewrite Hpl in Hpos; congruence).
        apply list_elem_of_lookup_2 with i.
        unfold zi. rewrite removed_lookup by done. fold reg. fold zi. fold i.
        rewrite decide_True by lia. by rewrite decide_True.
      * apply list_elem_of_lookup_2 with pos.
        unfold zi. rewrite removed_lookup by done. fold reg. fold zi. fold i.
        rewrite decide_True by lia. by rewrite decide_False.
Qed.
End registered.

(** Under the invariant a removal does not panic, answers whether the
    sleeper was pending, keeps the invariant and removes just that sleeper. *)
Lemma removeSleeper_registry_ok :
  ∃ w', removeSleeper s w = Some (bool_decide (pending s w), w') ∧
        registry_ok w' ∧
        (∀ p, pending p w' ↔ pending p w ∧ p ≠ s).
Proof.
  destruct (decide (pending s w)) as [Hp|Hp].
  - destruct (pending_last Hp) as [last Hl].
    exists (removed s (sl_i (heap w s)) last w).
    rewrite bool_decide_eq_true_2 by done.
    split; [by apply removeSleeper_pending|].
    by apply removed_registry_ok.
  - exists w. rewrite bool_decide_eq_false_2 by done.
    split; [by apply removeSleeper_not_pending|]. split; [done|].
    intros p. split; [|tauto]. intros Hpp. split; [done|]. by intros ->.
Qed.
End removeSleeper_registry.

(** ** The loop of checkSleepers *)

Lemma filter_ext_in {A} (P Q : A → Prop) `{∀ x, Decision (P x)}
    `{∀ x, Decision (Q x)} (l : list A) :
  (∀ x, x ∈ l → P x ↔ Q x) → filter P l = filter Q l.
Proof.
  induction l as [|x l IH]; intros Hl; [done|].
  assert (filter P l = filter Q l) as Hrec.
  { apply IH. intros y Hy. apply Hl. by right. }
  destruct (decide (P x)) as [Hx|Hx].
  - rewrite !filter_cons_True; [by f_equal|by apply Hl; [left|]|done].
  - rewrite !filter_cons_False; [done| |done].
    intros Hq. apply Hx. apply Hl; [by left|done].
Qed.

Lemma flat_map_ext_in {A B} (g h : A → list B) (l : list A) :
  (∀ x, x ∈ l → g x = h x) → flat_map g l = flat_map h l.
Proof.
  induction l as [|x l IH]; intros Hl; [done|]. simpl.
  rewrite Hl by (by left). f_equal. apply IH. intros y Hy. apply Hl. by right.
Qed.

Lemma waiting_le a b x : a ≤ b → waiting b x → waiting a x.
Proof. unfold waiting. lia. Qed.

Lemma appendSleeper_same_but_i s w p :
  sl_until (heap (appendSleeper s w) p) = sl_until (heap w p) ∧
  sl_c (heap (appendSleeper s w) p) = sl_c (heap w p) ∧
  sl_f (heap (appendSleeper s w) p) = sl_f (heap w p).
Proof.
  rewrite appendSleeper_heap. repeat case_decide; subst; by repeat split.
Qed.

Lemma appendSleeper_due_iff s w p : due p (appendSleeper s w) ↔ due p w.
Proof.
  unfold due. rewrite appendSleeper_at.
  destruct (appendSleeper_same_but_i s w p) as (-> & _). done.
Qed.

(** One offer, when the stored blockers stay unsatisfied. *)
Lemma appendSleeper_quiet s w :
  (∀ b, b ∈ blockers (clock w) → waiting (S (length (sleepers (clock w)))) b) →
  blockers (clock (appendSleeper s w)) = blockers (clock w) ∧
  trace (appendSleeper s w) =
  trace w ++ if decide (due s w) then fire_events (heap w s) else [].
Proof.
  intros Hb. rewrite appendSleeper_blockers, appendSleeper_trace.
  case_decide; [done|]. rewrite filter_all by done.
  rewrite filter_none; [done|]. intros b Hin Hs. exact (Hs (Hb b Hin)).
Qed.

Lemma offer_all_spec l : ∀ v,
  NoDup l →
  (∀ b, b ∈ blockers (clock v) →
        waiting (length (sleepers (clock v)) + length l) b) →
  offered l v (offer_all l v).
Proof.
  induction l as [|s l IH]; intros v Hnd Hb.
  { simpl. constructor; simpl; rewrite ?app_nil_r; try done;
      intros p Hp; by apply elem_of_nil in Hp. }
  apply list.NoDup_cons in Hnd as [Hs Hnd].
  assert (∀ b, b ∈ blockers (clock v) →
               waiting (S (length (sleepers (clock v)))) b) as Hb1.
  { intros b Hin. eapply waiting_le; [|by apply Hb]. simpl. lia. }
  destruct (appendSleeper_quiet s v Hb1) as [Hbl Htr].
  pose proof (appendSleeper_sleepers s v) as Hsl.
  set (v1 := appendSleeper s v) in *.
  assert (offered l v1 (offer_all l v1)) as [H1 H2 H3 H4 H5 H6 H7 H8].
  { apply IH; [done|]. intros b Hin. rewrite Hbl in Hin.
    eapply waiting_le; [|by apply Hb]. rewrite Hsl.
    case_decide; [|rewrite length_app]; simpl; lia. }
  assert (∀ p, p ∈ l → heap v1 p = heap v p) as Hsame.
  { intros p Hp. apply appendSleeper_heap_ne. by intros ->. }
  change (offer_all (s :: l) v) with (offer_all l v1).
  constructor.
  - rewrite H1. apply appendSleeper_at.
  - by rewrite H2.
  - eapply same_alloc_trans; [apply appendSleeper_alloc|done].
  - rewrite H4, Hsl.
    rewrite (filter_ext_in (λ s0, ¬ due s0 v1) (λ s0, ¬ due s0 v) l).
    2:{ intros p _. unfold v1. by rewrite appendSleeper_due_iff. }
    destruct (decide (due s v)) as [Hd|Hd].
    + rewrite filter_cons_False by tauto. done.
    + rewrite filter_cons_True by done. by rewrite <- app_assoc.
  - rewrite H5, Htr.
    rewrite (filter_ext_in (λ s0, due s0 v1) (λ s0, due s0 v) l).
    2:{ intros p _. unfold v1. by rewrite appendSleeper_due_iff. }
    rewrite (flat_map_ext_in (λ s0, fire_events (heap v1 s0))
                             (λ s0, fire_events (heap v s0))).
    2:{ intros p [_ Hp]%list_elem_of_filter. by rewrite Hsame. }
    destruct (decide (due s v)) as [Hd|Hd].
    + rewrite filter_cons_True by done. simpl. by rewrite <- app_assoc.
    + rewrite filter_cons_False by done. by rewrite app_nil_r.
  - intros p Hp. apply not_elem_of_cons in Hp as [Hps Hp].
    rewrite H6 by done. by apply appendSleeper_heap_ne.
  - intros p [->|Hp]%elem_of_cons Hd.
    + rewrite H6 by done. unfold v1. rewrite appendSleeper_heap.
      by rewrite !decide_True.
    + rewrite H7; [by rewrite Hsame|done|].
      unfold v1. by rewrite appendSleeper_due_iff.
  - intros p [->|Hp]%elem_of_cons Hd.
    + rewrite H6 by done. unfold v1. rewrite appendSleeper_heap.
      rewrite decide_True by done. rewrite decide_False by done.
      apply same_but_i_set_i.
    + rewrite <- (Hsame p) by done. apply H8; [done|].
      unfold v1. by rewrite appendSleeper_due_iff.
Qed.

Lemma offer_all_registry_ok l : ∀ v,
  NoDup l → registry_ok_except l v → registry_ok (offer_all l v).
Proof.
  induction l as [|s l IH]; intros v Hnd Hr.
  - by apply registry_ok_except_nil.
  - apply list.NoDup_cons in Hnd as [Hs Hnd]. simpl. apply IH; [done|].
    by apply appendSleeper_registry_ok_except.
Qed.

Lemma checkSleepers_offer w :
  checkSleepers w =
  offer_all (sleepers (clock w)) (upd_clock (set_sleepers []) w).
Proof. reflexivity. Qed.

Lemma emptied_registry_ok w :
  registry_ok w →
  registry_ok_except (sleepers (clock w)) (upd_clock (set_sleepers []) w).
Proof.
  intros [H1 H2 H3]. constructor; simpl.
  - intros pos p Hp. by rewrite lookup_nil in Hp.
  - intros p Hp Hout Hi. exfalso. apply Hout.
    eapply list_elem_of_lookup_2. by apply H2.
  - intros p Hp. by apply elem_of_nil in Hp.
  - intros p Hp. split; [apply not_elem_of_nil|by apply H3].
Qed.

Lemma checkSleepers_registry_ok w :
  registry_ok w → registry_ok (checkSleepers w).
Proof.
  intros Hr. rewrite checkSleepers_offer. apply offer_all_registry_ok.
  - by apply registry_ok_NoDup.
  - by apply emptied_registry_ok.
Qed.

(** ** Preservation of the invariant by the registry's operations *)

Lemma closes_app tr1 tr2 : closes (tr1 ++ tr2) = closes tr1 ++ closes tr2.
Proof. unfold closes. apply omap_app. Qed.

Lemma sends_app tr1 tr2 : sends (tr1 ++ tr2) = sends tr1 ++ sends tr2.
Proof. unfold sends. apply omap_app. Qed.

Lemma closes_fire_events s : closes (fire_events s) = [].
Proof.
  unfold fire_events. destruct (sl_woke s), (sl_c s), (sl_f s); reflexivity.
Qed.

Lemma sends_fire_events s :
  sends (fire_events s) =
  if sl_woke s then [] else match sl_c s with Some c => [c] | None => [] end.
Proof.
  unfold fire_events. destruct (sl_woke s), (sl_c s), (sl_f s); reflexivity.
Qed.

Lemma closes_map_Close (bs : list blocker) :
  closes (map (λ b, Close (bl_done b)) bs) = bl_done <$> bs.
Proof. induction bs as [|b bs IH]; [done|]. simpl. by f_equal. Qed.

Lemma sends_map_Close (bs : list blocker) :
  sends (map (λ b, Close (bl_done b)) bs) = [].
Proof. induction bs as [|b bs IH]; [done|]. simpl. done. Qed.

Lemma elem_of_closes c tr : c ∈ closes tr ↔ Close c ∈ tr.
Proof.
  unfold closes. rewrite list_elem_of_omap. split.
  - intros (e & He & Hc). destruct e; simplify_eq. done.
  - intros H. by exists (Close c).
Qed.

Section appendSleeper_invariant.
Variables (s : ptr) (w : world).

Lemma appendSleeper_pending p :
  pending p (appendSleeper s w) ↔ pending p w ∨ (p = s ∧ ¬ due s w).
Proof.
  unfold pending. rewrite appendSleeper_sleepers. case_decide.
  - split; [by left|]. by intros [?|[_ ?]].
  - rewrite elem_of_app, list_elem_of_singleton. tauto.
Qed.

Lemma appendSleeper_owners_ok :
  owners_ok w → ¬ pending s w →
  (¬ due s w → sl_woke (heap w s) = false) →
  owners_ok (appendSleeper s w).
Proof.
  intros [H1 H2 H3 H4 H5] Hs Hw.
  destruct (appendSleeper_alloc s w) as (Hn & Ht & Hnt & Hk & Hnk & _).
  constructor.
  - intros p. rewrite appendSleeper_pending, appendSleeper_heap.
    intros [Hp|[-> Hd]].
    + rewrite decide_False; [by apply H1|]. by intros ->.
    + rewrite decide_True by done. rewrite decide_False by done.
      simpl. by apply Hw.
  - intros t. rewrite Hnt, Ht, Hn. apply H2.
  - intros k. rewrite Hnk, Hk, Hn. apply H3.
  - intros t k. rewrite Hnt, Hnk, Ht, Hk. apply H4.
  - intros t. rewrite Hnt, Ht, appendSleeper_due_iff, appendSleeper_heap.
    intros Hlt. case_decide as Heq; [|by apply H5].
    rewrite <- Heq. case_decide as Hd; [done|]. simpl.
    rewrite Hw by done. done.
Qed.

Lemma appendSleeper_blockers_ok :
  blockers_ok w → blockers_ok (appendSleeper s w).
Proof.
  unfold blockers_ok. intros Hb b.
  rewrite appendSleeper_blockers, appendSleeper_sleepers. case_decide.
  - apply Hb.
  - intros [Hwait _]%list_elem_of_filter. rewrite length_app. simpl.
    by rewrite Nat.add_1_r.
Qed.

Lemma appendSleeper_closes :
  closes (trace (appendSleeper s w)) =
  closes (trace w) ++
  if decide (due s w) then []
  else bl_done <$> filter (satisfied (S (length (sleepers (clock w)))))
                          (blockers (clock w)).
Proof.
  rewrite appendSleeper_trace, closes_app. case_decide.
  - by rewrite closes_fire_events.
  - by rewrite closes_map_Close.
Qed.

Lemma appendSleeper_closes_ok :
  closes_ok w → closes_ok (appendSleeper s w).
Proof.
  intros [H1 H2 H3 H4 H5].
  destruct (appendSleeper_alloc s w) as (_ & _ & _ & _ & _ & Hc).
  assert (∀ b b', b ∈ blockers (clock w) → b' ∈ blockers (clock w) →
                  bl_done b = bl_done b' → b = b') as Hinj.
  { intros b b' (i & Hi)%list_elem_of_lookup_1 (j & Hj)%list_elem_of_lookup_1 Heq.
    assert (i = j) as ->; [|congruence].
    eapply NoDup_lookup; [exact H3| |];
      rewrite list_lookup_fmap; [by rewrite Hi|by rewrite Hj, Heq]. }
  constructor.
  - intros b. rewrite appendSleeper_blockers, Hc. case_decide; [apply H1|].
    intros [_ ?]%list_elem_of_filter. by apply H1.
  - intros b. rewrite appendSleeper_blockers, appendSleeper_closes.
    case_decide.
    + rewrite app_nil_r. apply H2.
    + intros [Hwait Hin]%list_elem_of_filter.
      intros [Hold|Hnew]%elem_of_app; [by apply (H2 b)|].
      apply list_elem_of_fmap in Hnew as (b' & Heq & [Hsat Hin']%list_elem_of_filter).
      apply Hsat. by rewrite <- (Hinj b b').
  - rewrite appendSleeper_blockers. case_decide; [done|].
    apply NoDup_fmap_2_strong; [|by apply list.NoDup_filter, (NoDup_fmap_1 bl_done)].
    intros b b' [_ Hb]%list_elem_of_filter [_ Hb']%list_elem_of_filter.
    by apply Hinj.
  - intros c. rewrite appendSleeper_closes, Hc. case_decide.
    + rewrite app_nil_r. apply H4.
    + intros [Hold|Hnew]%elem_of_app; [by apply H4|].
      apply list_elem_of_fmap in Hnew as (b & -> & [_ Hin]%list_elem_of_filter).
      by apply H1.
  - rewrite appendSleeper_closes. case_decide; [by rewrite app_nil_r|].
    apply list.NoDup_app. split; [done|]. split.
    + intros c Hc' (b & -> & [_ Hin]%list_elem_of_filter)%list_elem_of_fmap.
      by apply (H2 b).
    + apply NoDup_fmap_2_strong; [|by apply list.NoDup_filter, (NoDup_fmap_1 bl_done)].
      intros b b' [_ Hb]%list_elem_of_filter [_ Hb']%list_elem_of_filter.
      by apply Hinj.
Qed.

Lemma appendSleeper_sends :
  sends (trace (appendSleeper s w)) =
  sends (trace w) ++
  if decide (due s w)
  then if sl_woke (heap w s) then []
       else match sl_c (heap w s) with Some c => [c] | None => [] end
  else [].
Proof.
  rewrite appendSleeper_trace, sends_app. case_decide.
  - by rewrite sends_fire_events.
  - by rewrite sends_map_Close.
Qed.

Lemma appendSleeper_sends_ok :
  sends_ok w → s < nheap w → sends_ok (appendSleeper s w).
Proof.
  intros [H1 H2 H3 H4 H5] Hs.
  destruct (appendSleeper_alloc s w) as (Hn & _ & _ & _ & _ & Hc).
  assert (∀ p, sl_c (heap (appendSleeper s w) p) = sl_c (heap w p)) as Hsc.
  { intros p. by destruct (appendSleeper_same_but_i s w p) as (_ & -> & _). }
  constructor.
  - intros p c. rewrite Hn, Hsc, Hc. apply H1.
  - intros p q c. rewrite Hn, !Hsc. apply H2.
  - intros p c. rewrite Hn, Hsc, appendSleeper_sends, appendSleeper_heap.
    intros Hp Hwoke Hpc.
    destruct (decide (due s w)) as [Hd|Hd]; [|rewrite app_nil_r].
    + destruct (decide (s = p)) as [<-|Hne]; [done|].
      intros [Hold|Hnew]%elem_of_app; [by apply (H3 p c)|].
      destruct (sl_woke (heap w s)); [by apply elem_of_nil in Hnew|].
      destruct (sl_c (heap w s)) as [c'|] eqn:Hc';
        [|by apply elem_of_nil in Hnew].
      apply list_elem_of_singleton in Hnew as ->.
      apply Hne. by apply (H2 s p c').
    + apply (H3 p c); [done| |done].
      destruct (decide (s = p)) as [<-|Hne]; done.
  - intros c. rewrite appendSleeper_sends, Hc.
    intros [Hold|Hnew]%elem_of_app; [by apply H4|].
    destruct (decide (due s w)); [|by apply elem_of_nil in Hnew].
    destruct (sl_woke (heap w s)); [by apply elem_of_nil in Hnew|].
    destruct (sl_c (heap w s)) as [c'|] eqn:Hc';
      [|by apply elem_of_nil in Hnew].
    apply list_elem_of_singleton in Hnew as ->. by apply (H1 s).
  - rewrite appendSleeper_sends.
    destruct (decide (due s w)); [|by rewrite app_nil_r].
    destruct (sl_woke (heap w s)) eqn:Hwk; [by rewrite app_nil_r|].
    destruct (sl_c (heap w s)) as [c'|] eqn:Hc'; [|by rewrite app_nil_r].
    apply list.NoDup_app. split; [done|]. split; [|apply NoDup_singleton].
    intros c Hin ->%list_elem_of_singleton. by apply (H3 s c').
Qed.
End appendSleeper_invariant.

(** *** Worlds that agree on what an invariant speaks about *)

Lemma registry_ok_except_frame out w w' :
  registry_ok_except out w →
  sleepers (clock w') = sleepers (clock w) → nheap w' = nheap w →
  (∀ p, sl_i (heap w' p) = sl_i (heap w p)) →
  registry_ok_except out w'.
Proof.
  intros [H1 H2 H3 H4] Hs Hn Hi. constructor.
  - intros pos p. rewrite Hs, Hi. apply H1.
  - intros p. rewrite Hs, Hi, Hn. apply H2.
  - intros p. rewrite Hs, Hn. apply H3.
  - intros p. rewrite Hs, Hn. apply H4.
Qed.

Lemma registry_ok_frame w w' :
  registry_ok w →
  sleepers (clock w') = sleepers (clock w) → nheap w' = nheap w →
  (∀ p, sl_i (heap w' p) = sl_i (heap w p)) →
  registry_ok w'.
Proof.
  rewrite !registry_ok_except_nil. apply registry_ok_except_frame.
Qed.

(** A freshly allocated sleeper is outside the registry. *)
Lemma registry_ok_alloc w w' r :
  registry_ok w →
  sleepers (clock w') = sleepers (clock w) → nheap w' = S (nheap w) →
  (∀ p, p ≠ nheap w → sl_i (heap w' p) = sl_i (heap w p)) →
  heap w' (nheap w) = r →
  registry_ok_except [nheap w] w' ∧ ((sl_i r < 0)%Z → registry_ok w').
Proof.
  intros [H1 H2 H3] Hs Hn Hi Hr.
  assert (∀ p, p ∈ sleepers (clock w) → p ≠ nheap w) as Hne.
  { intros p Hp%H3. lia. }
  split; [|intros Hneg]; constructor.
  - intros pos p. rewrite Hs. intros Hp. rewrite Hi; [by apply H1|].
    apply Hne. by eapply list_elem_of_lookup_2.
  - intros p. rewrite Hs, Hn. intros Hp Hout.
    rewrite list_elem_of_singleton in Hout. rewrite Hi by done.
    apply H2. lia.
  - intros p. rewrite Hs, Hn. intros Hp%H3. lia.
  - intros p ->%list_elem_of_singleton. rewrite Hs, Hn. split; [|lia].
    intros Hp%H3. lia.
  - intros pos p. rewrite Hs. intros Hp. rewrite Hi; [by apply H1|].
    apply Hne. by eapply list_elem_of_lookup_2.
  - intros p. rewrite Hs, Hn. intros Hp.
    destruct (decide (p = nheap w)) as [->|Hpn].
    + rewrite Hr. lia.
    + rewrite Hi by done. apply H2. lia.
  - intros p. rewrite Hs, Hn. intros Hp%H3. lia.
Qed.

Lemma blockers_ok_frame w w' :
  blockers_ok w →
  length (sleepers (clock w')) ≤ length (sleepers (clock w)) →
  blockers (clock w') = blockers (clock w) →
  blockers_ok w'.
Proof.
  unfold blockers_ok. intros Hb Hs Hbl b. rewrite Hbl. intros Hin.
  eapply waiting_le; [exact Hs|by apply Hb].
Qed.

Lemma closes_ok_frame w w' :
  closes_ok w →
  blockers (clock w') = blockers (clock w) →
  closes (trace w') = closes (trace w) →
  nchan w ≤ nchan w' →
  closes_ok w'.
Proof.
  intros [H1 H2 H3 H4 H5] Hb Ht Hn. constructor; rewrite ?Hb, ?Ht; try done.
  - intros b Hin%H1. lia.
  - intros c Hin%H4. lia.
Qed.

(** The heap changes at most at [s], whose channel and sleep stay or whose
    channel is new. *)
Lemma sends_ok_update s w w' :
  sends_ok w → s < nheap w →
  nheap w' = nheap w → nchan w ≤ nchan w' → sends (trace w') = sends (trace w) →
  (∀ p, p ≠ s → heap w' p = heap w p) →
  (sl_c (heap w' s) = sl_c (heap w s) ∧
   (sl_woke (heap w' s) = false → sl_woke (heap w s) = false)) ∨
  (sl_c (heap w' s) = Some (nchan w) ∧ nchan w < nchan w') →
  sends_ok w'.
Proof.
  intros [H1 H2 H3 H4 H5] Hs Hn Hc Ht Hh Hcase.
  assert (∀ p c, p < nheap w → sl_c (heap w' p) = Some c →
                 (sl_c (heap w p) = Some c ∧ c < nchan w ∧
                  (sl_woke (heap w' p) = false → sl_woke (heap w p) = false)) ∨
                 (p = s ∧ c = nchan w ∧ nchan w < nchan w')) as Hcs.
  { intros p c Hp Hpc. destruct (decide (p = s)) as [->|Hne].
    - destruct Hcase as [[Heq Hwk]|[Heq Hlt]].
      + left. rewrite <- Heq. split; [done|]. split; [|done].
        apply (H1 s); [done|]. by rewrite <- Heq.
      + right. rewrite Heq in Hpc. by simplify_eq.
    - left. rewrite <- (Hh p) by done. split; [done|]. split; [|done].
      apply (H1 p); [done|]. by rewrite <- (Hh p). }
  constructor.
  - intros p c. rewrite Hn. intros Hp Hpc.
    destruct (Hcs p c Hp Hpc) as [(_ & ? & _)|(_ & -> & ?)]; lia.
  - intros p q c. rewrite Hn. intros Hp Hq Hpc Hqc.
    destruct (Hcs p c Hp Hpc) as [(Hp' & Hlt & _)|(Hps & Hpn & _)],
             (Hcs q c Hq Hqc) as [(Hq' & Hlt' & _)|(Hqs & Hqn & _)];
      try lia.
    by apply (H2 p q c).
  - intros p c. rewrite Hn, Ht. intros Hp Hwk Hpc.
    destruct (Hcs p c Hp Hpc) as [(Hp' & _ & Hwk')|(-> & -> & _)].
    + apply (H3 p c); auto.
    + intros Hin%H4. lia.
  - intros c. rewrite Ht. intros Hin%H4. lia.
  - by rewrite Ht.
Qed.

(** A new sleeper, whose channel, if it has one, is new too. *)
Lemma sends_ok_alloc w w' :
  sends_ok w →
  nheap w' = S (nheap w) → nchan w ≤ nchan w' → sends (trace w') = sends (trace w) →
  (∀ p, p ≠ nheap w → heap w' p = heap w p) →
  sl_c (heap w' (nheap w)) = None ∨
  (∃ c, sl_c (heap w' (nheap w)) = Some c ∧ nchan w <= c < nchan w') →
  sends_ok w'.
Proof.
  intros [H1 H2 H3 H4 H5] Hn Hc Ht Hh Hcase.
  assert (∀ p c, p < S (nheap w) → sl_c (heap w' p) = Some c →
                 (p < nheap w ∧ sl_c (heap w p) = Some c ∧ c < nchan w ∧
                  heap w' p = heap w p) ∨
                 (p = nheap w ∧ nchan w <= c < nchan w')) as Hcs.
  { intros p c Hp Hpc. destruct (decide (p = nheap w)) as [->|Hne].
    - right. destruct Hcase as [Hnone|(c' & Hsome & Hr)]; [congruence|].
      rewrite Hsome in Hpc. by simplify_eq.
    - left. assert (p < nheap w) by lia. rewrite (Hh p) in Hpc by done.
      repeat split; [done|done| |by apply Hh]. by apply (H1 p). }
  constructor.
  - intros p c. rewrite Hn. intros Hp Hpc.
    destruct (Hcs p c Hp Hpc) as [(_ & _ & ? & _)|(_ & ?)]; lia.
  - intros p q c. rewrite Hn. intros Hp Hq Hpc Hqc.
    destruct (Hcs p c Hp Hpc) as [(Hp1 & Hp' & Hlt & _)|(Hps & Hr)],
             (Hcs q c Hq Hqc) as [(Hq1 & Hq' & Hlt' & _)|(Hqs & Hr')];
      try lia.
    by apply (H2 p q c).
  - intros p c. rewrite Hn, Ht. intros Hp Hwk Hpc.
    destruct (Hcs p c Hp Hpc) as [(Hp1 & Hp' & _ & Heq)|(-> & Hr)].
    + apply (H3 p c); [done| |done]. by rewrite <- Heq.
    + intros Hin%H4. lia.
  - intros c. rewrite Ht. intros Hin%H4. lia.
  - by rewrite Ht.
Qed.

Lemma sends_ok_frame w w' :
  sends_ok w →
  nheap w' = nheap w → nchan w ≤ nchan w' → sends (trace w') = sends (trace w) →
  (∀ p, sl_c (heap w' p) = sl_c (heap w p)) →
  (∀ p, sl_woke (heap w' p) = false → sl_woke (heap w p) = false) →
  sends_ok w'.
Proof.
  intros [H1 H2 H3 H4 H5] Hn Hc Ht Hsc Hsw. constructor.
  - intros p c. rewrite Hn, Hsc. intros Hp Hpc%H1; [lia|done].
  - intros p q c. rewrite Hn, !Hsc. apply H2.
  - intros p c. rewrite Hn, Hsc, Ht. intros Hp Hwk%Hsw. by apply H3.
  - intros c. rewrite Ht. intros Hin%H4. lia.
  - by rewrite Ht.
Qed.

(** *** Owners *)

Lemma due_frame s w w' :
  at_ (clock w') = at_ (clock w) →
  sl_until (heap w' s) = sl_until (heap w s) →
  due s w' ↔ due s w.
Proof. unfold due. by intros -> ->. Qed.

(** The heap changes at most at [s]. *)
Lemma owners_ok_update s w w' :
  owners_ok w →
  clock w' = clock w → nheap w' = nheap w →
  timers w' = timers w → ntimers w' = ntimers w →
  tickers w' = tickers w → ntickers w' = ntickers w →
  (∀ p, p ≠ s → heap w' p = heap w p) →
  (pending s w → sl_woke (heap w' s) = false) →
  (∀ t, t < ntimers w → tm_sleeper (timers w t) = s →
        sl_woke (heap w' s) = true → due s w') →
  owners_ok w'.
Proof.
  intros [H1 H2 H3 H4 H5] Hc Hn Ht Hnt Hk Hnk Hh Hp Hw. constructor.
  - intros p. unfold pending. rewrite Hc. intros Hin.
    destruct (decide (p = s)) as [->|Hne]; [by apply Hp|].
    rewrite Hh by done. by apply H1.
  - intros t. rewrite Hnt, Ht, Hn. apply H2.
  - intros k. rewrite Hnk, Hk, Hn. apply H3.
  - intros t k. rewrite Hnt, Hnk, Ht, Hk. apply H4.
  - intros t. rewrite Hnt, Ht. intros Hlt.
    destruct (decide (tm_sleeper (timers w t) = s)) as [Heq|Hne].
    + rewrite Heq. by apply (Hw t).
    + rewrite Hh by done. intros Hwk.
      apply (due_frame _ w w'); [by rewrite Hc|by rewrite Hh|by apply H5].
Qed.

(** A new sleeper, which nobody owns yet. *)
Lemma owners_ok_alloc w w' :
  owners_ok w → (∀ p, pending p w → p < nheap w) →
  clock w' = clock w → nheap w' = S (nheap w) →
  timers w' = timers w → ntimers w' = ntimers w →
  tickers w' = tickers w → ntickers w' = ntickers w →
  (∀ p, p ≠ nheap w → heap w' p = heap w p) →
  owners_ok w'.
Proof.
  intros [H1 H2 H3 H4 H5] Ha Hc Hn Ht Hnt Hk Hnk Hh. constructor.
  - intros p. unfold pending. rewrite Hc. intros Hin.
    rewrite Hh; [by apply H1|]. apply Ha in Hin. lia.
  - intros t. rewrite Hnt, Ht, Hn. intros Hlt%H2. lia.
  - intros k. rewrite Hnk, Hk, Hn. intros Hlt%H3. lia.
  - intros t k. rewrite Hnt, Hnk, Ht, Hk. apply H4.
  - intros t. rewrite Hnt, Ht. intros Hlt.
    pose proof (H2 t Hlt). rewrite Hh by lia. intros Hwk.
    apply (due_frame _ w w'); [by rewrite Hc|by rewrite Hh by lia|by apply H5].
Qed.

Lemma owners_ok_new_timer tm w w' :
  owners_ok w →
  clock w' = clock w → heap w' = heap w → nheap w' = nheap w →
  timers w' = <[ntimers w := tm]> (timers w) → ntimers w' = S (ntimers w) →
  tickers w' = tickers w → ntickers w' = ntickers w →
  tm_sleeper tm < nheap w →
  (∀ k, k < ntickers w → tk_sleeper (tickers w k) ≠ tm_sleeper tm) →
  (sl_woke (heap w (tm_sleeper tm)) = true → due (tm_sleeper tm) w) →
  owners_ok w'.
Proof.
  intros [H1 H2 H3 H4 H5] Hc Hh Hn Ht Hnt Hk Hnk Hs Hfree Hw.
  assert (∀ t, t < S (ntimers w) →
               (t < ntimers w ∧ timers w' t = timers w t) ∨
               (t = ntimers w ∧ timers w' t = tm)) as Hcase.
  { intros t Hlt. rewrite Ht. destruct (decide (t = ntimers w)) as [->|Hne].
    - right. by rewrite fn_lookup_insert.
    - left. rewrite fn_lookup_insert_ne by done. split; [lia|done]. }
  constructor.
  - intros p. unfold pending. rewrite Hc, Hh. apply H1.
  - intros t. rewrite Hnt, Hn. intros Hlt.
    destruct (Hcase t Hlt) as [[Hlt' ->]|[_ ->]]; [by apply H2|done].
  - intros k. rewrite Hnk, Hk, Hn. apply H3.
  - intros t k. rewrite Hnt, Hnk, Hk. intros Hlt Hlk.
    destruct (Hcase t Hlt) as [[Hlt' ->]|[_ ->]]; [by apply H4|].
    intros Heq. by apply (Hfree k).
  - intros t. rewrite Hnt, Hh. intros Hlt.
    destruct (Hcase t Hlt) as [[Hlt' ->]|[_ ->]]; intros Hwk.
    + apply (due_frame _ w w'); [by rewrite Hc|by rewrite Hh|by apply H5].
    + apply (due_frame _ w w'); [by rewrite Hc|by rewrite Hh|by apply Hw].
Qed.

(** The timer [t] is replaced by one with the same sleeper. *)
Lemma owners_ok_set_timer t tm w w' :
  owners_ok w →
  clock w' = clock w → heap w' = heap w → nheap w' = nheap w →
  timers w' = <[t := tm]> (timers w) → ntimers w' = ntimers w →
  tickers w' = tickers w → ntickers w' = ntickers w →
  tm_sleeper tm = tm_sleeper (timers w t) →
  owners_ok w'.
Proof.
  intros [H1 H2 H3 H4 H5] Hc Hh Hn Ht Hnt Hk Hnk Hs.
  assert (∀ t', tm_sleeper (timers w' t') = tm_sleeper (timers w t')) as Hsame.
  { intros t'. rewrite Ht. destruct (decide (t = t')) as [->|Hne].
    - by rewrite fn_lookup_insert.
    - by rewrite fn_lookup_insert_ne. }
  constructor.
  - intros p. unfold pending. rewrite Hc, Hh. apply H1.
  - intros t'. rewrite Hnt, Hn, Hsame. apply H2.
  - intros k. rewrite Hnk, Hk, Hn. apply H3.
  - intros t' k. rewrite Hnt, Hnk, Hk, Hsame. apply H4.
  - intros t'. rewrite Hnt, Hh, Hsame. intros Hlt Hwk.
    apply (due_frame _ w w'); [by rewrite Hc|by rewrite Hh|by apply H5].
Qed.

(** The ticker [k] is stored, new ([k = ntickers w]) or replaced, with the
    sleeper it tracks owned by no timer. *)
Lemma owners_ok_set_ticker k tk w w' :
  owners_ok w →
  clock w' = clock w → heap w' = heap w → nheap w' = nheap w →
  timers w' = timers w → ntimers w' = ntimers w →
  tickers w' = <[k := tk]> (tickers w) →
  (ntickers w' = ntickers w ∨ (k = ntickers w ∧ ntickers w' = S (ntickers w))) →
  tk_sleeper tk < nheap w →
  (∀ t, t < ntimers w → tm_sleeper (timers w t) ≠ tk_sleeper tk) →
  owners_ok w'.
Proof.
  intros [H1 H2 H3 H4 H5] Hc Hh Hn Ht Hnt Hk Hnk Hs Hfree.
  assert (∀ k', k' < ntickers w' →
                (k' < ntickers w ∧ tickers w' k' = tickers w k') ∨
                tickers w' k' = tk) as Hcase.
  { intros k' Hlt. rewrite Hk. destruct (decide (k = k')) as [->|Hne].
    - right. by rewrite fn_lookup_insert.
    - left. rewrite fn_lookup_insert_ne by done. split; [lia|done]. }
  constructor.
  - intros p. unfold pending. rewrite Hc, Hh. apply H1.
  - intros t. rewrite Hnt, Ht, Hn. apply H2.
  - intros k' Hlt. rewrite Hn.
    destruct (Hcase k' Hlt) as [[Hlt' ->]| ->]; [by apply H3|done].
  - intros t k'. rewrite Hnt, Ht. intros Hlt Hlk.
    destruct (Hcase k' Hlk) as [[Hlt' ->]| ->]; [by apply H4|by apply Hfree].
  - intros t. rewrite Hnt, Ht, Hh. intros Hlt Hwk.
    apply (due_frame _ w w'); [by rewrite Hc|by rewrite Hh|by apply H5].
Qed.

Lemma removeSleeper_pending_subset s w r w' p :
  removeSleeper s w = Some (r, w') → pending p w' → pending p w.
Proof.
  intros [(-> & -> & _)|(-> & Hi & last & Hl & Hs & ->)]%removeSleeper_Some;
    [done|].
  unfold pending, removed; simpl.
  intros (pos & Hpos & _)%elem_of_take.
  apply list_lookup_insert_Some in Hpos as [(_ & <- & _)|(_ & Hpos)].
  - by eapply list_elem_of_lookup_2.
  - by eapply list_elem_of_lookup_2.
Qed.

Lemma removeSleeper_owners_ok s w r w' :
  owners_ok w → removeSleeper s w = Some (r, w') → owners_ok w'.
Proof.
  intros [H1 H2 H3 H4 H5] Hrm.
  destruct (removeSleeper_frame _ _ _ _ Hrm)
    as (Hat & _ & _ & (Hn & Ht & Hnt & Hk & Hnk & _) & Hh & _).
  constructor.
  - intros p Hp. destruct (Hh p) as (_ & -> & _).
    apply H1. by eapply removeSleeper_pending_subset.
  - intros t. rewrite Hnt, Ht, Hn. apply H2.
  - intros k. rewrite Hnk, Hk, Hn. apply H3.
  - intros t k. rewrite Hnt, Hnk, Ht, Hk. apply H4.
  - intros t. rewrite Hnt, Ht. intros Hlt.
    destruct (Hh (tm_sleeper (timers w t))) as (Hu & -> & _). intros Hwk.
    apply (due_frame _ w w'); [done|done|by apply H5].
Qed.

Lemma removeSleeper_blockers_ok s w r w' :
  blockers_ok w → removeSleeper s w = Some (r, w') → blockers_ok w'.
Proof.
  intros Hb Hrm.
  destruct (removeSleeper_frame _ _ _ _ Hrm) as (_ & Hbl & _ & _ & _ & Hlen & _).
  by eapply blockers_ok_frame.
Qed.

Lemma removeSleeper_closes_ok s w r w' :
  closes_ok w → removeSleeper s w = Some (r, w') → closes_ok w'.
Proof.
  intros Hb Hrm.
  destruct (removeSleeper_frame _ _ _ _ Hrm)
    as (_ & Hbl & Htr & (_ & _ & _ & _ & _ & Hc) & _).
  eapply closes_ok_frame; [done|done|by rewrite Htr|lia].
Qed.

Lemma removeSleeper_sends_ok s w r w' :
  sends_ok w → removeSleeper s w = Some (r, w') → sends_ok w'.
Proof.
  intros [H1 H2 H3 H4 H5] Hrm.
  destruct (removeSleeper_frame _ _ _ _ Hrm)
    as (_ & _ & Htr & (Hn & _ & _ & _ & _ & Hc) & Hh & _).
  assert (∀ p, sl_c (heap w' p) = sl_c (heap w p)) as Hsc.
  { intros p. by destruct (Hh p) as (_ & _ & -> & _). }
  assert (∀ p, sl_woke (heap w' p) = sl_woke (heap w p)) as Hsw.
  { intros p. by destruct (Hh p) as (_ & -> & _). }
  constructor.
  - intros p c. rewrite Hn, Hsc, Hc. apply H1.
  - intros p q c. rewrite Hn, !Hsc. apply H2.
  - intros p c. rewrite Hn, Hsc, Hsw, Htr. apply H3.
  - intros c. rewrite Htr, Hc. apply H4.
  - by rewrite Htr.
Qed.

(** Under the invariant a removal does not panic, answers whether the sleeper
    was pending, and keeps the invariant. *)
Lemma removeSleeper_clock_ok s w :
  clock_ok w → s < nheap w →
  ∃ w', removeSleeper s w = Some (bool_decide (pending s w), w') ∧
        clock_ok w' ∧ (∀ p, pending p w' ↔ pending p w ∧ p ≠ s).
Proof.
  intros [Hr Ho Hb Hc Hsn] Hs.
  destruct (removeSleeper_registry_ok s w Hr Hs) as (w' & Hrm & Hr' & Hp).
  exists w'. split; [done|]. split; [|done]. constructor; [done|..].
  - by eapply removeSleeper_owners_ok.
  - by eapply removeSleeper_blockers_ok.
  - by eapply removeSleeper_closes_ok.
  - by eapply removeSleeper_sends_ok.
Qed.

Lemma registry_ok_except_one s w :
  registry_ok w → s < nheap w → (sl_i (heap w s) < 0)%Z →
  registry_ok_except [s] w.
Proof.
  intros Hr Hs Hi.
  pose proof (proj1 (registry_ok_negative w s Hr Hs) Hi) as Hp.
  destruct Hr as [H1 H2 H3]. constructor; [exact H1| |exact H3|].
  - intros p ? Hout. by apply H2.
  - by intros p ->%list_elem_of_singleton.
Qed.

(** Offering a sleeper that is outside the registry keeps the invariant. *)
Lemma appendSleeper_clock_ok s w :
  registry_ok_except [s] w → owners_ok w → blockers_ok w → closes_ok w →
  sends_ok w → (¬ due s w → sl_woke (heap w s) = false) →
  clock_ok (appendSleeper s w).
Proof.
  intros Hr Ho Hb Hc Hsn Hw.
  destruct (rx_out _ _ Hr s) as [Hp Hs]; [by left|].
  constructor.
  - apply registry_ok_except_nil.
    apply appendSleeper_registry_ok_except; [done|apply not_elem_of_nil].
  - by apply appendSleeper_owners_ok.
  - by apply appendSleeper_blockers_ok.
  - by apply appendSleeper_closes_ok.
  - by apply appendSleeper_sends_ok.
Qed.

(** ** Preservation of the invariant by the clock's methods *)

Lemma NewFakeClockAt_clock_ok t : clock_ok (NewFakeClockAt t).
Proof.
  assert (∀ {A} (x : A), x ∈ @nil A → False) as Hnil.
  { intros A x H. by apply elem_of_nil in H. }
  constructor; [constructor|constructor| |constructor|constructor]; simpl;
    try apply NoDup_nil_2; try (intros; lia);
    try (intros ? H; by apply Hnil in H).
  intros pos p H. by rewrite lookup_nil in H.
Qed.

Lemma After_clock_ok d w : clock_ok w → clock_ok (After d w).2.
Proof.
  intros [Hr Ho Hb Hc Hsn]. unfold After, make_chan, new_sleeper. simpl.
  match goal with |- clock_ok (appendSleeper _ ?v) => set (w2 := v) end.
  assert (∀ p, p ≠ nheap w → heap w2 p = heap w p) as Hh.
  { intros p Hp. unfold w2; simpl. by rewrite fn_lookup_insert_ne. }
  assert (heap w2 (nheap w)
          = Sleeper 0 (Time_Add (at_ (clock w))
                         (if bool_decide (d < 0)%Z then 0%Z else d))
                    false (Some (nchan w)) None) as Hnew.
  { unfold w2; simpl. by rewrite fn_lookup_insert. }
  apply appendSleeper_clock_ok.
  - eapply (registry_ok_alloc w w2); try done. intros p Hp. by rewrite Hh.
  - apply (owners_ok_alloc w w2); try done. apply (reg_alloc w Hr).
  - by apply (blockers_ok_frame w w2).
  - apply (closes_ok_frame w w2); try done. simpl. lia.
  - apply (sends_ok_alloc w w2); try done; [simpl; lia|].
    right. exists (nchan w). rewrite Hnew. simpl. split; [done|lia].
  - intros _. by rewrite Hnew.
Qed.

Lemma AfterFunc_clock_ok d f w : clock_ok w → clock_ok (AfterFunc d f w).2.
Proof.
  intros [Hr Ho Hb Hc Hsn]. unfold AfterFunc, new_timer, new_sleeper. simpl.
  match goal with |- clock_ok (appendSleeper _ ?v) => set (w2 := v) end.
  set (w1 := World (clock w) (heap w2) (S (nheap w)) (timers w) (ntimers w)
                   (tickers w) (ntickers w) (nchan w) (trace w)).
  assert (∀ p, p ≠ nheap w → heap w2 p = heap w p) as Hh.
  { intros p Hp. unfold w2; simpl. by rewrite fn_lookup_insert_ne. }
  assert (heap w2 (nheap w)
          = Sleeper 0 (Time_Add (at_ (clock w)) d) false None (Some f)) as Hnew.
  { unfold w2; simpl. by rewrite fn_lookup_insert. }
  assert (owners_ok w1) as Ho1.
  { apply (owners_ok_alloc w w1); try done. apply (reg_alloc w Hr). }
  apply appendSleeper_clock_ok.
  - eapply (registry_ok_alloc w w2); try done. intros p Hp. by rewrite Hh.
  - apply (owners_ok_new_timer (FakeTimer false (nheap w)) w1 w2); try done.
    + simpl. lia.
    + intros k Hk. simpl. pose proof (ow_tickers w Ho k Hk). lia.
    + simpl. by rewrite fn_lookup_insert.
  - by apply (blockers_ok_frame w w2).
  - by apply (closes_ok_frame w w2).
  - apply (sends_ok_alloc w w2); try done. left. by rewrite Hnew.
  - intros _. by rewrite Hnew.
Qed.

Lemma NewTimer_clock_ok d w : clock_ok w → clock_ok (NewTimer d w).2.
Proof.
  intros [Hr Ho Hb Hc Hsn]. unfold NewTimer, new_timer, new_sleeper, make_chan.
  simpl.
  match goal with |- clock_ok ?v => set (w2 := v) end.
  set (w1 := World (clock w) (heap w2) (S (nheap w)) (timers w) (ntimers w)
                   (tickers w) (ntickers w) (S (nchan w)) (trace w)).
  assert (∀ p, p ≠ nheap w → heap w2 p = heap w p) as Hh.
  { intros p Hp. unfold w2; simpl. by rewrite fn_lookup_insert_ne. }
  assert (heap w2 (nheap w)
          = Sleeper (-1) (Time_Add (Now w) d) false (Some (nchan w)) None)
    as Hnew.
  { unfold w2; simpl. by rewrite fn_lookup_insert. }
  assert (owners_ok w1) as Ho1.
  { apply (owners_ok_alloc w w1); try done. apply (reg_alloc w Hr). }
  constructor.
  - eapply (registry_ok_alloc w w2); try done.
    intros p Hp. by rewrite Hh.
  - apply (owners_ok_new_timer (FakeTimer false (nheap w)) w1 w2); try done.
    + simpl. lia.
    + intros k Hk. simpl. pose proof (ow_tickers w Ho k Hk). lia.
    + simpl. by rewrite fn_lookup_insert.
  - by apply (blockers_ok_frame w w2).
  - apply (closes_ok_frame w w2); try done. simpl. lia.
  - apply (sends_ok_alloc w w2); try done; [simpl; lia|].
    right. exists (nchan w). rewrite Hnew. simpl. split; [done|lia].
Qed.

Lemma fakeTimer_C_clock_ok t w :
  clock_ok w → t < ntimers w → clock_ok (fakeTimer_C t w).2.
Proof.
  intros Hok Ht. unfold fakeTimer_C. simpl. case_bool_decide as Hi; [|done].
  destruct Hok as [Hr Ho Hb Hc Hsn].
  pose proof (ow_timers w Ho t Ht) as Hs.
  apply appendSleeper_clock_ok; try done.
  - by apply registry_ok_except_one.
  - intros Hd. destruct (sl_woke (heap w (tm_sleeper (timers w t)))) eqn:Hwk;
      [|done].
    exfalso. apply Hd. by apply (ow_woke w Ho).
Qed.

Lemma stop_clock_ok t w :
  clock_ok w →
  clock_ok (upd_timer t (λ x, FakeTimer true (tm_sleeper x)) w).
Proof.
  intros [Hr Ho Hb Hc Hsn].
  match goal with |- clock_ok ?v => set (w2 := v) end.
  constructor.
  - by apply (registry_ok_frame w w2).
  - by apply (owners_ok_set_timer t (FakeTimer true (tm_sleeper (timers w t)))
                                  w w2).
  - by apply (blockers_ok_frame w w2).
  - by apply (closes_ok_frame w w2).
  - by apply (sends_ok_frame w w2).
Qed.

Lemma fakeTimer_Stop_clock_ok t w :
  clock_ok w → t < ntimers w →
  ∃ r w', fakeTimer_Stop t w = Some (r, w') ∧ clock_ok w'.
Proof.
  intros Hok Ht. unfold fakeTimer_Stop.
  destruct (tm_stopped (timers w t)).
  { eexists _, _. split; [done|]. by apply stop_clock_ok. }
  pose proof (ow_timers w (ok_owners w Hok) t Ht) as Hs.
  destruct (removeSleeper_clock_ok _ w Hok Hs) as (w' & -> & Hok' & _).
  destruct (bool_decide _); eexists _, _; (split; [done|]);
    by apply stop_clock_ok.
Qed.

Lemma fakeTimer_Reset_clock_ok t d w :
  clock_ok w → t < ntimers w →
  ∃ r w', fakeTimer_Reset t d w = Some (r, w') ∧ clock_ok w'.
Proof.
  intros [Hr Ho Hb Hc Hsn] Ht. unfold fakeTimer_Reset, make_chan.
  set (s := tm_sleeper (timers w t)).
  pose proof (ow_timers w Ho t Ht) as Hs. fold s in Hs.
  match goal with
  | |- context [removeSleeper s ?v] => set (w1 := v)
  end.
  assert (∀ p, p ≠ s → heap w1 p = heap w p) as Hh.
  { intros p Hp. unfold w1, upd_sleeper; simpl.
    by rewrite !fn_lookup_insert_ne. }
  assert (heap w1 s
          = Sleeper (sl_i (heap w s))
              (Time_Add (at_ (clock w))
                 (if bool_decide (d < 0)%Z then 0%Z else d))
              false (Some (nchan w)) (sl_f (heap w s))) as Hnew.
  { unfold w1, upd_sleeper; simpl. by rewrite !fn_lookup_insert. }
  assert (clock_ok w1) as Hok1.
  { constructor.
    - apply (registry_ok_frame w w1); try done. intros p.
      destruct (decide (p = s)) as [->|Hne]; [by rewrite Hnew|by rewrite Hh].
    - apply (owners_ok_update s w w1); try done.
      + intros _. by rewrite Hnew.
      + intros t' _ _. by rewrite Hnew.
    - by apply (blockers_ok_frame w w1).
    - apply (closes_ok_frame w w1); try done. simpl. lia.
    - apply (sends_ok_update s w w1); try done; [simpl; lia|].
      right. rewrite Hnew. simpl. split; [done|lia]. }
  destruct (removeSleeper_clock_ok s w1 Hok1 Hs) as (w2 & Hrm & Hok2 & Hp).
  rewrite Hrm. eexists _, _. split; [done|].
  destruct (sl_f (heap w2 s)); [|done].
  destruct (removeSleeper_frame _ _ _ _ Hrm)
    as (_ & _ & _ & (Hn & _) & Hsb & _ & Hneg & _).
  destruct Hok2 as [Hr2 Ho2 Hb2 Hc2 Hsn2].
  apply appendSleeper_clock_ok; try done.
  - apply registry_ok_except_one; [done|by rewrite Hn|done].
  - intros _. destruct (Hsb s) as (_ & -> & _). by rewrite Hnew.
Qed.

Lemma NewTicker_clock_ok d w :
  clock_ok w → (0 < d)%Z →
  ∃ k w', NewTicker d w = Some (k, w') ∧ clock_ok w'.
Proof.
  intros [Hr Ho Hb Hc Hsn] Hd. unfold NewTicker, new_ticker, new_sleeper.
  rewrite bool_decide_eq_false_2 by lia. simpl. eexists _, _. split; [done|].
  match goal with |- clock_ok ?v => set (w2 := v) end.
  set (w1 := World (clock w) (heap w2) (S (nheap w)) (timers w) (ntimers w)
                   (tickers w) (ntickers w) (nchan w) (trace w)).
  assert (∀ p, p ≠ nheap w → heap w2 p = heap w p) as Hh.
  { intros p Hp. unfold w2; simpl. by rewrite fn_lookup_insert_ne. }
  assert (heap w2 (nheap w) = Sleeper (-1) zeroTime false None None) as Hnew.
  { unfold w2; simpl. by rewrite fn_lookup_insert. }
  assert (owners_ok w1) as Ho1.
  { apply (owners_ok_alloc w w1); try done. apply (reg_alloc w Hr). }
  constructor.
  - eapply (registry_ok_alloc w w2); try done.
    intros p Hp. by rewrite Hh.
  - apply (owners_ok_set_ticker (ntickers w)
             (FakeTicker d (Time_Add (Now w) d) false (nheap w)) w1 w2);
      try done.
    + right. done.
    + simpl. lia.
    + intros t Ht. simpl. pose proof (ow_timers w Ho t Ht). lia.
  - by apply (blockers_ok_frame w w2).
  - by apply (closes_ok_frame w w2).
  - apply (sends_ok_alloc w w2); try done. left. by rewrite Hnew.
Qed.

(** The clock's fields change while the heap and the owners stay: fewer
    pending sleepers, a later instant. *)
Lemma owners_ok_clock w w' :
  owners_ok w →
  (∀ p, pending p w' → pending p w) →
  (at_ (clock w) <= at_ (clock w'))%Z →
  heap w' = heap w → nheap w' = nheap w →
  timers w' = timers w → ntimers w' = ntimers w →
  tickers w' = tickers w → ntickers w' = ntickers w →
  owners_ok w'.
Proof.
  intros [H1 H2 H3 H4 H5] Hp Hat Hh Hn Ht Hnt Hk Hnk. constructor.
  - intros p Hin%Hp. rewrite Hh. by apply H1.
  - intros t. rewrite Hnt, Ht, Hn. apply H2.
  - intros k. rewrite Hnk, Hk, Hn. apply H3.
  - intros t k. rewrite Hnt, Hnk, Ht, Hk. apply H4.
  - intros t. rewrite Hnt, Ht, Hh. intros Hlt Hwk.
    pose proof (H5 t Hlt Hwk) as Hd. unfold due in *. rewrite Hh. lia.
Qed.

(** A ticker's fields other than its sleeper change. *)
Lemma upd_ticker_clock_ok k g w :
  clock_ok w → k < ntickers w →
  (∀ x, tk_sleeper (g x) = tk_sleeper x) →
  clock_ok (upd_ticker k g w).
Proof.
  intros [Hr Ho Hb Hc Hsn] Hk Hg.
  match goal with |- clock_ok ?v => set (w2 := v) end.
  constructor.
  - by apply (registry_ok_frame w w2).
  - apply (owners_ok_set_ticker k (g (tickers w k)) w w2); try done.
    + by left.
    + rewrite Hg. by apply (ow_tickers w Ho).
    + intros t Ht. rewrite Hg. by apply (ow_apart w Ho).
  - by apply (blockers_ok_frame w w2).
  - by apply (closes_ok_frame w w2).
  - by apply (sends_ok_frame w w2).
Qed.

Lemma make_chan_clock_ok w : clock_ok w → clock_ok (make_chan w).2.
Proof.
  intros [Hr Ho Hb Hc Hsn]. unfold make_chan. simpl.
  match goal with |- clock_ok ?v => set (w2 := v) end.
  constructor.
  - by apply (registry_ok_frame w w2).
  - by apply (owners_ok_clock w w2).
  - by apply (blockers_ok_frame w w2).
  - apply (closes_ok_frame w w2); try done. simpl. lia.
  - apply (sends_ok_frame w w2); try done. simpl. lia.
Qed.

Lemma fakeTicker_C_clock_ok k w :
  clock_ok w → k < ntickers w → clock_ok (fakeTicker_C k w).2.
Proof.
  intros Hok Hk. unfold fakeTicker_C.
  pose proof (make_chan_clock_ok w Hok) as Hok1.
  unfold make_chan in *. simpl in *.
  destruct (tk_stopped (tickers w k)); [done|].
  unfold new_sleeper. simpl. rewrite !fn_lookup_insert. simpl.
  apply upd_ticker_clock_ok; [| |done].
  2:{ match goal with
      | |- _ < ntickers (appendSleeper ?s ?v) =>
          destruct (appendSleeper_alloc s v) as (_ & _ & _ & _ & Hnk & _)
      end.
      by rewrite Hnk. }
  clear Hok1. destruct Hok as [Hr Ho Hb Hc Hsn].
  match goal with |- clock_ok (appendSleeper _ ?v) => set (w2 := v) end.
  set (w1 := World (clock w) (heap w2) (S (nheap w)) (timers w) (ntimers w)
                   (tickers w) (ntickers w) (S (nchan w)) (trace w)).
  assert (∀ p, p ≠ nheap w → heap w2 p = heap w p) as Hh.
  { intros p Hp. unfold w2, upd_ticker; simpl. by rewrite fn_lookup_insert_ne. }
  assert (heap w2 (nheap w)
          = Sleeper 0 (tk_next (tickers w k)) false (Some (nchan w)) None)
    as Hnew.
  { unfold w2, upd_ticker; simpl. by rewrite fn_lookup_insert. }
  assert (owners_ok w1) as Ho1.
  { apply (owners_ok_alloc w w1); try done. apply (reg_alloc w Hr). }
  apply appendSleeper_clock_ok.
  - eapply (registry_ok_alloc w w2); try done. intros p Hp. by rewrite Hh.
  - apply (owners_ok_set_ticker k
             (FakeTicker (tk_interval (tickers w k)) (tk_next (tickers w k))
                         (tk_stopped (tickers w k)) (nheap w)) w1 w2);
      try done.
    + by left.
    + simpl. lia.
    + intros t Ht. simpl. pose proof (ow_timers w Ho t Ht). lia.
  - by apply (blockers_ok_frame w w2).
  - apply (closes_ok_frame w w2); try done. simpl. lia.
  - apply (sends_ok_alloc w w2); try done; [simpl; lia|].
    right. exists (nchan w). rewrite Hnew. simpl. split; [done|lia].
  - intros _. by rewrite Hnew.
Qed.

Lemma fakeTicker_Stop_clock_ok k w :
  clock_ok w → k < ntickers w →
  ∃ w', fakeTicker_Stop k w = Some w' ∧ clock_ok w' ∧
        ntickers w' = ntickers w ∧
        tk_sleeper (tickers w' k) = tk_sleeper (tickers w k) ∧
        ¬ pending (tk_sleeper (tickers w k)) w'.
Proof.
  intros Hok Hk. unfold fakeTicker_Stop.
  assert (clock_ok (upd_ticker k
            (λ x, FakeTicker (tk_interval x) (tk_next x) true (tk_sleeper x)) w))
    as Hok1 by (by apply upd_ticker_clock_ok).
  match goal with
  | |- context [removeSleeper ?s ?v] => set (s1 := s); set (w1 := v) in *
  end.
  assert (s1 = tk_sleeper (tickers w k)) as Hs1.
  { unfold s1, upd_ticker. simpl. by rewrite fn_lookup_insert. }
  assert (s1 < nheap w1) as Hs.
  { rewrite Hs1. apply (ow_tickers w (ok_owners w Hok) k Hk). }
  destruct (removeSleeper_clock_ok s1 w1 Hok1 Hs) as (w2 & Hrm & Hok2 & Hp).
  rewrite Hrm. exists w2. split; [done|]. split; [done|].
  destruct (removeSleeper_frame _ _ _ _ Hrm)
    as (_ & _ & _ & (_ & _ & _ & Htk & Hnk & _) & _).
  split; [by rewrite Hnk|]. split.
  - rewrite Htk. by rewrite <- Hs1.
  - rewrite <- Hs1. intros Hin%Hp. by destruct Hin.
Qed.

Lemma fakeTicker_Reset_clock_ok k d w :
  clock_ok w → k < ntickers w →
  ∃ w', fakeTicker_Reset k d w = Some w' ∧ clock_ok w'.
Proof.
  intros Hok Hk. unfold fakeTicker_Reset.
  destruct (fakeTicker_Stop_clock_ok k w Hok Hk)
    as (w2 & -> & Hok2 & Hnk & Hsl & Hnp).
  eexists. split; [done|].
  assert (k < ntickers w2) as Hk2 by (by rewrite Hnk).
  set (w3 := upd_ticker k
               (λ x, FakeTicker (tk_interval x) (tk_next x) false (tk_sleeper x))
               w2).
  assert (clock_ok w3) as Hok3 by (by apply upd_ticker_clock_ok).
  set (w4 := upd_ticker k
               (λ x, FakeTicker d (tk_next x) (tk_stopped x) (tk_sleeper x)) w3).
  assert (clock_ok w4) as [Hr Ho Hb Hc Hsn] by (by apply upd_ticker_clock_ok).
  set (s := tk_sleeper (tickers w4 k)).
  assert (s = tk_sleeper (tickers w k)) as Hs.
  { unfold s, w4, w3, upd_ticker. simpl. rewrite !fn_lookup_insert. simpl.
    done. }
  assert (s < nheap w4) as Hlt.
  { apply (ow_tickers w4 Ho k). done. }
  match goal with |- clock_ok ?v => set (w5 := v) end.
  assert (∀ p, p ≠ s → heap w5 p = heap w4 p) as Hh.
  { intros p Hp. unfold w5, upd_sleeper; simpl. by rewrite fn_lookup_insert_ne. }
  assert (heap w5 s = set_until (Time_Add (Now w4) d) (heap w4 s)) as Hnew.
  { unfold w5, upd_sleeper; simpl. by rewrite fn_lookup_insert. }
  constructor.
  - apply (registry_ok_frame w4 w5); try done. intros p.
    destruct (decide (p = s)) as [->|Hne]; [by rewrite Hnew|by rewrite Hh].
  - apply (owners_ok_update s w4 w5); try done.
    + intros Hp. exfalso. apply Hnp. by rewrite <- Hs.
    + intros t Ht Heq. exfalso. by apply (ow_apart w4 Ho t k).
  - by apply (blockers_ok_frame w4 w5).
  - by apply (closes_ok_frame w4 w5).
  - apply (sends_ok_update s w4 w5); try done.
    left. by rewrite Hnew.
Qed.

(** *** Advance *)

Lemma offer_all_clock_ok l : ∀ v,
  NoDup l → registry_ok_except l v → owners_ok v → blockers_ok v →
  closes_ok v → sends_ok v →
  (∀ s, s ∈ l → sl_woke (heap v s) = false) →
  clock_ok (offer_all l v).
Proof.
  induction l as [|s l IH]; intros v Hnd Hr Ho Hb Hc Hsn Hw.
  { simpl. constructor; try done. by apply registry_ok_except_nil. }
  apply list.NoDup_cons in Hnd as [Hs Hnd].
  destruct (rx_out _ _ Hr s) as [Hp Hlt]; [by left|].
  simpl. apply IH; try done.
  - by apply appendSleeper_registry_ok_except.
  - apply appendSleeper_owners_ok; [done|done|]. intros _. apply Hw. by left.
  - by apply appendSleeper_blockers_ok.
  - by apply appendSleeper_closes_ok.
  - by apply appendSleeper_sends_ok.
  - intros p Hp'. rewrite appendSleeper_heap_ne; [apply Hw; by right|].
    by intros ->.
Qed.

Lemma Advance_clock_ok d w : clock_ok w → clock_ok (Advance d w).
Proof.
  intros Hok. unfold Advance. case_bool_decide as Hd; [done|].
  destruct Hok as [Hr Ho Hb Hc Hsn].
  rewrite checkSleepers_offer. simpl.
  match goal with |- clock_ok (offer_all _ ?v) => set (w2 := v) end.
  apply offer_all_clock_ok.
  - by apply registry_ok_NoDup.
  - apply (registry_ok_except_frame _ (upd_clock (set_sleepers []) w) w2);
      try done.
    by apply emptied_registry_ok.
  - apply (owners_ok_clock w w2); try done.
    + intros p Hp. by apply elem_of_nil in Hp.
    + unfold w2, Time_Add. simpl. lia.
  - apply (blockers_ok_frame w w2); try done. simpl. lia.
  - by apply (closes_ok_frame w w2).
  - by apply (sends_ok_frame w w2).
  - intros s Hs. by apply (ow_asleep w Ho).
Qed.

(** *** Until *)

Lemma Until_clock_ok n w : clock_ok w → clock_ok (Until n w).2.
Proof.
  intros [Hr Ho Hb Hc Hsn]. unfold Until, make_chan. simpl.
  case_bool_decide as Hn; simpl.
  - match goal with |- clock_ok ?v => set (w2 := v) end.
    constructor.
    + by apply (registry_ok_frame w w2).
    + by apply (owners_ok_clock w w2).
    + by apply (blockers_ok_frame w w2).
    + destruct Hc as [H1 H2 H3 H4 H5].
      assert (closes (trace w2) = closes (trace w) ++ [nchan w]) as Hcl.
      { unfold w2, emit; simpl. by rewrite closes_app. }
      constructor; rewrite ?Hcl.
      * intros b Hin%H1. simpl. lia.
      * intros b Hin [Hold|Heq%list_elem_of_singleton]%elem_of_app.
        -- by apply (H2 b).
        -- apply H1 in Hin. lia.
      * done.
      * intros c [Hold%H4| ->%list_elem_of_singleton]%elem_of_app; simpl; lia.
      * apply list.NoDup_app. split; [done|]. split; [|apply NoDup_singleton].
        intros c Hin%H4 ->%list_elem_of_singleton. lia.
    + apply (sends_ok_frame w w2); try done; [simpl; lia|].
      unfold w2, emit; simpl. rewrite sends_app. simpl. by rewrite app_nil_r.
  - match goal with |- clock_ok ?v => set (w2 := v) end.
    constructor.
    + by apply (registry_ok_frame w w2).
    + by apply (owners_ok_clock w w2).
    + intros b. unfold w2, appendBlocker; simpl.
      intros [Hold| ->%list_elem_of_singleton]%elem_of_app; [by apply Hb|].
      unfold waiting. simpl. lia.
    + destruct Hc as [H1 H2 H3 H4 H5].
      constructor; unfold w2, appendBlocker; simpl.
      * intros b [Hold%H1| ->%list_elem_of_singleton]%elem_of_app; simpl; lia.
      * intros b [Hold| ->%list_elem_of_singleton]%elem_of_app;
          [by apply H2|].
        simpl. intros Hin%H4. lia.
      * rewrite fmap_app. apply list.NoDup_app. split; [done|].
        split; [|apply NoDup_singleton].
        intros c (b & -> & Hin%H1)%list_elem_of_fmap.
        simpl. intros Heq%list_elem_of_singleton. lia.
      * intros c Hin%H4. lia.
      * done.
    + apply (sends_ok_frame w w2); try done. simpl. lia.
Qed.

(** *** Every call *)

(** A well-formed call on a world that satisfies the invariant panics only
    when it is [NewTicker] with a non-positive interval, and leaves a world
    that satisfies the invariant. *)
Lemma exec_clock_ok o w :
  clock_ok w → op_ok o w →
  (∀ d, o = OpNewTicker d → (0 < d)%Z) →
  ∃ w', exec o w = Some w' ∧ clock_ok w'.
Proof.
  intros Hok Hop Hd. destruct o as [d|d f|d|t|t|t d|d|k|k|k d|d|n]; simpl in *.
  - eexists. split; [done|]. by apply After_clock_ok.
  - eexists. split; [done|]. by apply AfterFunc_clock_ok.
  - eexists. split; [done|]. by apply NewTimer_clock_ok.
  - eexists. split; [done|]. by apply fakeTimer_C_clock_ok.
  - destruct (fakeTimer_Stop_clock_ok t w Hok Hop) as (r & w' & -> & Hok').
    by exists w'.
  - destruct (fakeTimer_Reset_clock_ok t d w Hok Hop) as (r & w' & -> & Hok').
    by exists w'.
  - destruct (NewTicker_clock_ok d w Hok (Hd d eq_refl)) as (k & w' & -> & Hok').
    by exists w'.
  - eexists. split; [done|]. by apply fakeTicker_C_clock_ok.
  - destruct (fakeTicker_Stop_clock_ok k w Hok Hop) as (w' & -> & Hok' & _).
    by exists w'.
  - destruct (fakeTicker_Reset_clock_ok k d w Hok Hop) as (w' & -> & Hok').
    by exists w'.
  - eexists. split; [done|]. by apply Advance_clock_ok.
  - eexists. split; [done|]. by apply Until_clock_ok.
Qed.

Lemma exec_Some_clock_ok o w w' :
  clock_ok w → op_ok o w → exec o w = Some w' → clock_ok w'.
Proof.
  intros Hok Hop Hex.
  destruct (exec_clock_ok o w Hok Hop) as (w'' & Hex' & Hok').
  - intros d ->. simpl in Hex. unfold NewTicker in Hex.
    case_bool_decide; [done|lia].
  - congruence.
Qed.

Lemma reachable_clock_ok w : reachable w → clock_ok w.
Proof.
  induction 1 as [t|w o w' _ IH Hop Hex].
  - apply NewFakeClockAt_clock_ok.
  - by eapply exec_Some_clock_ok.
Qed.

(** ** Runs *)

Lemma run_reachable os : ∀ w w', reachable w → run os w = Some w' → reachable w'.
Proof.
  induction os as [|o os IH]; intros w w' Hw; simpl.
  - by intros [= <-].
  - case_decide as Hop; [|done].
    destruct (exec o w) as [w1|] eqn:Hex; [|done].
    apply IH. by eapply reach_step.
Qed.

Lemma world_after_reachable os :
  is_Some (run os NewFakeClock) → reachable (world_after os).
Proof.
  intros [w Hw]. unfold world_after. rewrite Hw.
  eapply run_reachable; [|exact Hw]. apply reach_new.
Qed.

Lemma world_after_ok os :
  is_Some (run os NewFakeClock) → clock_ok (world_after os).
Proof. intros H. by apply reachable_clock_ok, world_after_reachable. Qed.

Lemma idle_timer_world_ok : clock_ok idle_timer_world.
Proof. apply world_after_ok. vm_compute. eauto. Qed.

Lemma two_sleepers_world_ok : clock_ok two_sleepers_world.
Proof. apply world_after_ok. vm_compute. eauto. Qed.

Lemma twice_requested_world_ok : clock_ok twice_requested_world.
Proof. apply world_after_ok. vm_compute. eauto. Qed.

Lemma reset_ticker_world_ok : clock_ok reset_ticker_world.
Proof. apply world_after_ok. vm_compute. eauto. Qed.

Lemma two_timers_world_ok : clock_ok two_timers_world.
Proof. apply world_after_ok. vm_compute. eauto. Qed.

(** ** Channels *)

Lemma sent_on_app c tr1 tr2 :
  sent_on c (tr1 ++ tr2) = sent_on c tr1 ++ sent_on c tr2.
Proof. unfold sent_on. apply omap_app. Qed.

Lemma sent_on_unsent c tr : c ∉ sends tr → sent_on c tr = [].
Proof.
  unfold sent_on, sends. induction tr as [|e tr IH]; [done|].
  destruct e as [c' t|f|c']; simpl; try done.
  intros Hc. apply not_elem_of_cons in Hc as [Hne Hc].
  rewrite bool_decide_eq_false_2 by done. by apply IH.
Qed.

Lemma sent_unsent c w : c ∉ sends (trace w) → sent c w = [].
Proof. apply sent_on_unsent. Qed.

Lemma sent_on_fire_events c s :
  sent_on c (fire_events s) =
  if sl_woke s then []
  else if bool_decide (sl_c s = Some c) then [sl_until s] else [].
Proof.
  unfold fire_events, sent_on. destruct (sl_woke s); [done|].
  destruct (sl_c s) as [c'|], (sl_f s); simpl; repeat case_bool_decide;
    simplify_eq; done.
Qed.

(** What the events of waking the sleepers of [l] send on the channel [c]. *)
Lemma sent_on_fire_all c (h : ptr → sleeper) (l : list ptr) :
  sent_on c (flat_map (λ p, fire_events (h p)) l) =
  flat_map (λ p, if sl_woke (h p) then []
                 else if bool_decide (sl_c (h p) = Some c)
                      then [sl_until (h p)] else []) l.
Proof.
  induction l as [|p l IH]; [done|]. simpl.
  by rewrite sent_on_app, sent_on_fire_events, IH.
Qed.

Lemma flat_map_single {A B} `{EqDecision A} (g : A → list B) (l : list A) x :
  NoDup l → x ∈ l → (∀ y, y ∈ l → y ≠ x → g y = []) →
  flat_map g l = g x.
Proof.
  induction l as [|y l IH]; intros Hnd Hx Hg.
  { by apply elem_of_nil in Hx. }
  apply list.NoDup_cons in Hnd as [Hy Hnd]. simpl.
  destruct (decide (y = x)) as [->|Hne].
  - rewrite (flat_map_ext_in g (λ _, [])).
    + assert (∀ k : list A, flat_map (λ _, @nil B) k = []) as ->.
      { induction k as [|z k IHk]; [done|by simpl]. }
      by rewrite app_nil_r.
    + intros z Hz. apply Hg; [by right|]. by intros ->.
  - rewrite (Hg y) by (done || by left). simpl. apply IH; [done| |].
    + apply elem_of_cons in Hx as [->|Hx]; done.
    + intros z Hz. apply Hg. by right.
Qed.

Lemma flat_map_none {A B} (g : A → list B) (l : list A) :
  (∀ y, y ∈ l → g y = []) → flat_map g l = [].
Proof.
  induction l as [|y l IH]; intros Hg; [done|]. simpl.
  rewrite Hg by (by left). simpl. apply IH. intros z Hz. apply Hg. by right.
Qed.

(** ** Registration (C2) *)

Lemma After_not_positive d w :
  (d <= 0)%Z →
  After d w =
  (nchan w,
   wake (nheap w)
     (upd_sleeper (nheap w) (set_i (-1))
        (new_sleeper (Sleeper 0 (at_ (clock w)) false (Some (nchan w)) None)
                     (make_chan w).2).2)).
Proof.
  intros Hd. unfold After. simpl.
  assert ((if bool_decide (d < 0)%Z then 0%Z else d) = 0%Z) as ->.
  { case_bool_decide; lia. }
  unfold Time_Add. rewrite Z.add_0_r. f_equal.
  apply appendSleeper_due. unfold due. simpl. rewrite fn_lookup_insert. simpl.
  lia.
Qed.

(** C2. Registering a sleeper whose deadline is not strictly after the
    clock's instant fires it at once (index -1, woken, its events emitted)
    and leaves the registry and the blockers alone; otherwise the sleeper is
    appended, its index is its position, and the blockers are checked against
    the new size.  [After] and [Sleep] with a duration that is not positive
    deliver the clock's instant at once, leave the registry as it was, and
    [Sleep] returns. *)
Theorem C2_register_fires_or_appends (s : ptr) (w : world) (d : duration) :
  ((sl_until (heap w s) <= at_ (clock w))%Z →
     appendSleeper s w = wake s (upd_sleeper s (set_i (-1)) w) ∧
     sleepers (clock (appendSleeper s w)) = sleepers (clock w) ∧
     blockers (clock (appendSleeper s w)) = blockers (clock w) ∧
     trace (appendSleeper s w) = trace w ++ fire_events (heap w s) ∧
     sl_i (heap (appendSleeper s w) s) = (-1)%Z ∧
     sl_woke (heap (appendSleeper s w) s) = true) ∧
  ((at_ (clock w) < sl_until (heap w s))%Z →
     sleepers (clock (appendSleeper s w)) = sleepers (clock w) ++ [s] ∧
     sl_i (heap (appendSleeper s w) s)
       = Z.of_nat (length (sleepers (clock w))) ∧
     sl_woke (heap (appendSleeper s w) s) = sl_woke (heap w s) ∧
     blockers (clock (appendSleeper s w))
       = filter (waiting (S (length (sleepers (clock w)))))
                (blockers (clock w)) ∧
     trace (appendSleeper s w)
       = trace w ++
         map (λ b, Close (bl_done b))
             (filter (satisfied (S (length (sleepers (clock w)))))
                     (blockers (clock w)))) ∧
  ((d <= 0)%Z →
     sleepers (clock (After d w).2) = sleepers (clock w) ∧
     blockers (clock (After d w).2) = blockers (clock w) ∧
     trace (After d w).2 = trace w ++ [Send (After d w).1 (at_ (clock w))] ∧
     sent (After d w).1 (After d w).2 = sent (nchan w) w ++ [at_ (clock w)] ∧
     (clock_ok w → sent (After d w).1 (After d w).2 = [at_ (clock w)]) ∧
     Sleep d w = Some (After d w).2).
Proof.
  split; [|split].
  - intros Hd. assert (due s w) as Hdue by exact Hd.
    rewrite appendSleeper_sleepers, appendSleeper_blockers,
      appendSleeper_trace, appendSleeper_heap.
    rewrite !decide_True by done. split; [by apply appendSleeper_due|].
    done.
  - intros Hd. assert (¬ due s w) as Hdue by (unfold due; lia).
    rewrite appendSleeper_sleepers, appendSleeper_blockers,
      appendSleeper_trace, appendSleeper_heap.
    rewrite (decide_True (P := s = s)) by done.
    rewrite !decide_False by done. done.
  - intros Hd.
    assert (trace (After d w).2 = trace w ++ [Send (nchan w) (at_ (clock w))])
      as Htr.
    { rewrite After_not_positive by done. simpl. rewrite wake_trace. simpl.
      rewrite !fn_lookup_insert. reflexivity. }
    assert ((After d w).1 = nchan w) as Hc by (by rewrite After_not_positive).
    assert (sent (nchan w) (After d w).2 = sent (nchan w) w ++ [at_ (clock w)])
      as Hsent.
    { unfold sent. rewrite Htr, sent_on_app. simpl.
      by rewrite bool_decide_eq_true_2. }
    rewrite Hc. split; [|split; [|split; [done|split; [done|split]]]].
    + rewrite After_not_positive by done. simpl. by rewrite wake_clock.
    + rewrite After_not_positive by done. simpl. by rewrite wake_clock.
    + intros Hok. rewrite Hsent, sent_unsent; [done|].
      intros Hin%(sn_alloc w (ok_sends w Hok)). lia.
    + unfold Sleep. destruct (After d w) as [c w'] eqn:Haft. simpl in *.
      subst c. rewrite Hsent. by destruct (sent (nchan w) w).
Qed.

Lemma C2_register_witness :
  Sleep (-1)%Z NewFakeClock = Some (After (-1)%Z NewFakeClock).2 ∧
  sleepers (clock (After (-1)%Z NewFakeClock).2) = [] ∧
  sleepers (clock (appendSleeper 0 (NewTimer second NewFakeClock).2)) = [0].
Proof.
  destruct (C2_register_fires_or_appends 0 (NewTimer second NewFakeClock).2
              (-1)%Z) as (_ & Happ & _).
  destruct (C2_register_fires_or_appends 0 NewFakeClock (-1)%Z) as (_ & _ & H).
  destruct H as (H1 & _ & _ & _ & _ & H2); [lia|].
  destruct Happ as (H3 & _); [vm_compute; reflexivity|].
  split; [exact H2|]. split; [exact H1|exact H3].
Defined.

(** ** Waking (C8) *)

(** C8. Waking is idempotent.  After a wake the sleeper's flag is set; a wake
    of a sleeper whose flag is set changes nothing, so a second wake is the
    first one; offering a woken sleeper that is due to the registry emits
    nothing and leaves the registry alone; and when [checkSleepers] offers a
    registry of woken sleepers again, nothing is delivered. *)
Theorem C8_wake_once (s : ptr) (w : world) :
  sl_woke (heap (wake s w) s) = true ∧
  wake s (wake s w) = wake s w ∧
  (sl_woke (heap w s) = true → wake s w = w) ∧
  (sl_woke (heap w s) = true → due s w →
     trace (appendSleeper s w) = trace w ∧
     sleepers (clock (appendSleeper s w)) = sleepers (clock w) ∧
     sl_woke (heap (appendSleeper s w) s) = true) ∧
  trace (appendSleeper s (wake s w)) =
    trace (wake s w) ++
    (if decide (due s w) then []
     else map (λ b, Close (bl_done b))
              (filter (satisfied (S (length (sleepers (clock w)))))
                      (blockers (clock w)))) ∧
  (NoDup (sleepers (clock w)) → blockers_ok w →
   (∀ p, pending p w → sl_woke (heap w p) = true) →
   trace (checkSleepers w) = trace w).
Proof.
  split; [by rewrite wake_heap_eq|].
  split; [apply wake_idempotent|].
  split; [apply wake_woken|].
  split; [|split].
  - intros Hw Hd.
    rewrite appendSleeper_trace, appendSleeper_sleepers, appendSleeper_heap.
    rewrite !decide_True by done. unfold fire_events. rewrite Hw.
    by rewrite app_nil_r.
  - rewrite appendSleeper_trace, wake_clock.
    assert (due s (wake s w) ↔ due s w) as Hiff.
    { apply due_frame; [by rewrite wake_clock|].
      rewrite wake_heap_eq. by destruct (heap w s). }
    destruct (decide (due s w)) as [Hd|Hd].
    + rewrite decide_True by (by apply Hiff). unfold fire_events.
      by rewrite wake_heap_eq.
    + by rewrite decide_False by (by rewrite Hiff).
  - intros Hnd Hb Hw. rewrite checkSleepers_offer.
    destruct (offer_all_spec (sleepers (clock w))
                (upd_clock (set_sleepers []) w) Hnd) as [_ _ _ _ Htr _ _ _].
    { intros b Hin. simpl. by apply Hb. }
    rewrite Htr. simpl.
    rewrite (flat_map_ext_in _ (λ _, [])).
    + assert (∀ l : list ptr, flat_map (λ _, @nil event) l = []) as ->.
      { induction l as [|x l IH]; [done|by simpl]. }
      by rewrite app_nil_r.
    + intros p [_ Hp]%list_elem_of_filter. unfold fire_events.
      by rewrite Hw.
Qed.

Lemma C8_wake_once_witness :
  trace (checkSleepers (Advance (2 * second)%Z two_sleepers_world))
  = trace (Advance (2 * second)%Z two_sleepers_world) ∧
  wake 0 (Advance (2 * second)%Z two_sleepers_world)
  = Advance (2 * second)%Z two_sleepers_world.
Proof.
  destruct (C8_wake_once 0 (Advance (2 * second)%Z two_sleepers_world))
    as (_ & _ & Hw & _ & _ & Hcs).
  split.
  - apply Hcs.
    + vm_compute. apply NoDup_nil_2.
    + intros b Hb.
      assert (blockers (clock (Advance (2 * second)%Z two_sleepers_world))
              = [Blocker 3 2]) as Heq by (vm_compute; reflexivity).
      rewrite Heq in Hb. apply list_elem_of_singleton in Hb as ->.
      vm_compute. reflexivity.
    + intros p Hp. vm_compute in Hp. by apply elem_of_nil in Hp.
  - apply Hw. vm_compute. reflexivity.
Defined.

(** ** Tickers with an interval that is not positive (C10) *)

(** C10. [NewTicker] panics exactly when the interval is not positive, and
    [Tick] never panics: for an interval that is not positive it returns,
    in an unchanged world, the function that returns the nil channel, on
    which nobody ever receives; for a positive interval it returns the
    [C] method of a new ticker. *)
Theorem C10_ticker_interval (d : duration) (w : world) :
  ((d <= 0)%Z →
     NewTicker d w = None ∧
     Tick d w = Some (TickNil, w) ∧
     call_tick TickNil w = (None, w)) ∧
  ((0 < d)%Z →
     ∃ w', NewTicker d w = Some (ntickers w, w') ∧
           Tick d w = Some (TickC (ntickers w), w') ∧
           clock w' = clock w ∧ trace w' = trace w ∧
           tickers w' (ntickers w)
             = FakeTicker d (at_ (clock w) + d)%Z false (nheap w) ∧
           ntickers w' = S (ntickers w)).
Proof.
  split.
  - intros Hd. unfold Tick, NewTicker.
    by rewrite !bool_decide_eq_true_2 by done.
  - intros Hd. unfold Tick, NewTicker.
    rewrite !bool_decide_eq_false_2 by lia. simpl.
    eexists. split; [done|]. split; [done|]. simpl.
    rewrite fn_lookup_insert. done.
Qed.

Lemma C10_ticker_interval_witness :
  NewTicker 0%Z NewFakeClock = None ∧
  Tick (-1)%Z NewFakeClock = Some (TickNil, NewFakeClock) ∧
  is_Some (NewTicker second NewFakeClock).
Proof.
  destruct (C10_ticker_interval 0%Z NewFakeClock) as [H0 _].
  destruct (C10_ticker_interval (-1)%Z NewFakeClock) as [H1 _].
  destruct (C10_ticker_interval second NewFakeClock) as [_ H2].
  destruct H0 as (H0 & _); [lia|].
  destruct H1 as (_ & H1 & _); [lia|].
  destruct H2 as (w' & H2 & _); [unfold second; lia|].
  split; [exact H0|]. split; [exact H1|]. rewrite H2. by eexists.
Defined.

(** ** The back-pointer invariant (C9) *)

(** C9. In every world a run of calls reaches, and after every call made on
    a world that satisfies the invariant, the sleeper at position [pos] of
    the registry records [pos] as its index, and an allocated sleeper's index
    is negative exactly when the registry does not hold it.  A removal does
    not panic, answers [true] exactly when the sleeper was pending, takes
    just that sleeper out, leaves its index negative, and, putting the last
    entry in its place before truncating, records the new position in the
    moved sleeper. *)
Theorem C9_registry_back_pointers (w : world) :
  (reachable w → registry_ok w) ∧
  (clock_ok w → ∀ o w', op_ok o w → exec o w = Some w' → registry_ok w') ∧
  (registry_ok w → ∀ s, s < nheap w →
     ((sl_i (heap w s) < 0)%Z ↔ ¬ pending s w) ∧
     (pending s w →
        sleepers (clock w) !! Z.to_nat (sl_i (heap w s)) = Some s) ∧
     ∃ w', removeSleeper s w = Some (bool_decide (pending s w), w') ∧
           registry_ok w' ∧
           (∀ p, pending p w' ↔ pending p w ∧ p ≠ s) ∧
           (sl_i (heap w' s) < 0)%Z ∧
           (pending s w → ∀ moved,
              sleepers (clock w) !! (length (sleepers (clock w)) - 1)
                = Some moved →
              sleepers (clock w')
                = take (length (sleepers (clock w)) - 1)
                       (<[Z.to_nat (sl_i (heap w s)) := moved]>
                          (sleepers (clock w))) ∧
              (moved ≠ s → sl_i (heap w' moved) = sl_i (heap w s)))).
Proof.
  split; [|split].
  - intros Hw. by apply ok_registry, reachable_clock_ok.
  - intros Hok o w' Hop Hex. by eapply ok_registry, exec_Some_clock_ok.
  - intros Hr s Hs. split; [by apply registry_ok_negative|].
    split.
    { intros Hp. apply (reg_back w Hr); [done|]. by apply registry_ok_pending. }
    destruct (removeSleeper_registry_ok s w Hr Hs) as (w' & Hrm & Hr' & Hp).
    exists w'. split; [done|]. split; [done|]. split; [done|].
    destruct (removeSleeper_frame _ _ _ _ Hrm) as (_ & _ & _ & _ & _ & _ & Hneg & _).
    split; [done|]. intros Hpend moved Hmoved.
    rewrite (removeSleeper_pending s w Hr Hs Hpend moved Hmoved) in Hrm.
    injection Hrm as _ <-. split; [done|].
    intros Hne. rewrite removed_heap.
    rewrite decide_False by done. by rewrite decide_True.
Qed.

Lemma C9_registry_back_pointers_witness :
  registry_ok two_sleepers_world ∧
  removeSleeper 0 two_sleepers_world
  = Some (true, removed 0 0 1 two_sleepers_world) ∧
  sleepers (clock (removed 0 0 1 two_sleepers_world)) = [1] ∧
  sl_i (heap (removed 0 0 1 two_sleepers_world) 1) = 0%Z.
Proof.
  destruct (C9_registry_back_pointers two_sleepers_world) as (Hreach & _ & Hrm).
  assert (registry_ok two_sleepers_world) as Hr.
  { apply Hreach. apply world_after_reachable. vm_compute. eauto. }
  split; [exact Hr|].
  destruct (Hrm Hr 0) as (_ & _ & w' & Heq & _ & _ & _ & Hmoved).
  { vm_compute. lia. }
  split; [vm_compute; reflexivity|]. split; [vm_compute; reflexivity|].
  vm_compute. reflexivity.
Defined.

(** ** Timer.Reset (C6) *)

(** C6. On a world that satisfies the invariant, [Reset] of a timer does not
    panic and returns [true] exactly when the timer's sleeper was pending
    (so [false] for a sleeper that has fired).  The sleeper gets the deadline
    "instant plus duration", a negative duration counting as zero, a new
    channel, and is taken out of the registry.  A timer without a callback
    is left unregistered and asleep, with nothing sent.  A timer with a
    callback is offered to the registry at once: it is pending again when the
    duration is positive, and fires on the spot otherwise. *)
Theorem C6_timer_reset (w : world) (t : nat) (d : duration)
    (Hok : clock_ok w) (Ht : t < ntimers w) :
  let s := tm_sleeper (timers w t) in
  ∃ w', fakeTimer_Reset t d w = Some (bool_decide (pending s w), w') ∧
        clock_ok w' ∧
        at_ (clock w') = at_ (clock w) ∧
        sl_until (heap w' s) = (at_ (clock w) + Z.max d 0)%Z ∧
        sl_c (heap w' s) = Some (nchan w) ∧
        sl_f (heap w' s) = sl_f (heap w s) ∧
        (sl_woke (heap w s) = true → bool_decide (pending s w) = false) ∧
        (∀ p, p ≠ s → pending p w' ↔ pending p w) ∧
        (sl_f (heap w s) = None →
           ¬ pending s w' ∧ sl_woke (heap w' s) = false ∧
           (sl_i (heap w' s) < 0)%Z ∧ trace w' = trace w) ∧
        (∀ f, sl_f (heap w s) = Some f →
           (pending s w' ↔ (0 < d)%Z) ∧
           ((0 < d)%Z → sl_woke (heap w' s) = false) ∧
           ((d <= 0)%Z →
              sl_woke (heap w' s) = true ∧
              trace w' = trace w ++ [Send (nchan w) (at_ (clock w)); Go f])).
Proof.
  intros s.
  destruct (fakeTimer_Reset_clock_ok t d w Hok Ht) as (r0 & w0 & Hres & Hok').
  revert Hres. unfold fakeTimer_Reset, make_chan. fold s.
  pose proof (ow_timers w (ok_owners w Hok) t Ht) as Hs. fold s in Hs.
  match goal with
  | |- context [removeSleeper s ?v] => set (w1 := v)
  end.
  assert (∀ p, p ≠ s → heap w1 p = heap w p) as Hh.
  { intros p Hp. unfold w1, upd_sleeper; simpl.
    by rewrite !fn_lookup_insert_ne. }
  assert (heap w1 s
          = Sleeper (sl_i (heap w s)) (at_ (clock w) + Z.max d 0)%Z
                    false (Some (nchan w)) (sl_f (heap w s))) as Hnew.
  { unfold w1, upd_sleeper, Time_Add; simpl. rewrite !fn_lookup_insert.
    unfold set_c, set_woke, set_until. simpl. f_equal.
    case_bool_decide; lia. }
  assert (registry_ok w1) as Hr1.
  { apply (registry_ok_frame w w1); [apply Hok|done|done|]. intros p.
    destruct (decide (p = s)) as [->|Hne]; [by rewrite Hnew|by rewrite Hh]. }
  destruct (removeSleeper_registry_ok s w1 Hr1 Hs) as (w2 & Hrm & Hr2 & Hp).
  rewrite Hrm.
  destruct (removeSleeper_frame _ _ _ _ Hrm)
    as (Hat & Hbl & Htr & (Hn & _) & Hsb & Hlen & Hneg & _).
  destruct (Hsb s) as (Hu2 & Hw2 & Hc2 & Hf2). rewrite Hnew in Hu2, Hw2, Hc2, Hf2.
  simpl in Hu2, Hw2, Hc2, Hf2.
  assert (¬ pending s w2) as Hnp by (intros Hin%Hp; by destruct Hin).
  intros Hres. injection Hres as <- <-. 
  change (pending s w1) with (pending s w).
  exists (match sl_f (heap w2 s) with
          | Some _ => appendSleeper s w2
          | None => w2
          end).
  split; [done|]. split; [done|].
  assert (due s w2 ↔ (d <= 0)%Z) as Hdue.
  { unfold due. rewrite Hu2, Hat. simpl. lia. }
  rewrite Hf2. destruct (sl_f (heap w s)) as [f|] eqn:Hf.
  - split; [by rewrite appendSleeper_at|].
    destruct (appendSleeper_same_but_i s w2 s) as (-> & -> & ->).
    split; [done|]. split; [done|]. split; [done|]. split.
    { intros Hwk. apply bool_decide_eq_false_2. intros Hin.
      pose proof (ow_asleep w (ok_owners w Hok) s Hin). congruence. }
    split.
    { intros p Hne. rewrite appendSleeper_pending. rewrite Hp.
      change (pending p w1) with (pending p w). tauto. }
    split; [done|]. intros f' [= <-]. split; [|split].
    + rewrite appendSleeper_pending. split.
      * intros [?|[_ Hnd]]; [done|]. rewrite Hdue in Hnd. lia.
      * intros Hd. right. split; [done|]. rewrite Hdue. lia.
    + intros Hd. rewrite appendSleeper_heap. rewrite decide_True by done.
      rewrite decide_False by (rewrite Hdue; lia). done.
    + intros Hd. rewrite appendSleeper_heap, appendSleeper_trace.
      rewrite !decide_True by (done || by apply Hdue). split; [done|].
      rewrite Htr. simpl. unfold fire_events. rewrite Hw2, Hc2, Hf2, Hu2.
      replace (at_ (clock w) + Z.max d 0)%Z with (at_ (clock w)) by lia.
      done.
  - split; [done|]. split; [done|]. split; [done|]. split; [done|]. split.
    { intros Hwk. apply bool_decide_eq_false_2. intros Hin.
      pose proof (ow_asleep w (ok_owners w Hok) s Hin). congruence. }
    split.
    { intros p Hne. rewrite Hp. change (pending p w1) with (pending p w).
      tauto. }
    split; [|by intros f [=]]. intros _. done.
Qed.

Lemma C6_timer_reset_witness :
  ∃ w', fakeTimer_Reset 0 (-1)%Z two_timers_world = Some (true, w') ∧
        sl_woke (heap w' 0) = true ∧
        trace w' = trace two_timers_world ++ [Send 1 second; Go 7].
Proof.
  destruct (C6_timer_reset two_timers_world 0 (-1)%Z two_timers_world_ok)
    as (w' & Hres & _ & _ & _ & _ & _ & _ & _ & _ & Hcb).
  { vm_compute. lia. }
  destruct (Hcb 7) as (_ & _ & Hfire); [vm_compute; reflexivity|].
  destruct Hfire as [Hwoke Htrace]; [lia|].
  exists w'. split; [|split; [exact Hwoke|exact Htrace]].
  rewrite Hres. do 2 f_equal.
Defined.

(** ** Advance (C1) *)

Lemma Advance_not_positive d w : (d <= 0)%Z → Advance d w = w.
Proof. intros Hd. unfold Advance. by rewrite bool_decide_eq_true_2. Qed.

Lemma Advance_offered d w :
  (0 < d)%Z → clock_ok w →
  offered (sleepers (clock w))
    (upd_clock (set_sleepers [])
       (upd_clock (λ k, set_at (Time_Add (at_ k) d) k) w))
    (Advance d w).
Proof.
  intros Hd Hok. unfold Advance. rewrite bool_decide_eq_false_2 by lia.
  rewrite checkSleepers_offer. apply offer_all_spec.
  - simpl. apply (registry_ok_NoDup w), Hok.
  - intros b Hb. simpl in *. by apply (ok_blockers w Hok).
Qed.

(** What [Advance] does on a world that satisfies the invariant. *)
Lemma Advance_spec (w : world) (d : duration) (Hok : clock_ok w) :
  let now := (at_ (clock w) + d)%Z in
  ((d <= 0)%Z → Advance d w = w) ∧
  ((0 < d)%Z →
     clock_ok (Advance d w) ∧
     at_ (clock (Advance d w)) = now ∧
     sleepers (clock (Advance d w))
       = filter (λ s, (now < sl_until (heap w s))%Z) (sleepers (clock w)) ∧
     blockers (clock (Advance d w)) = blockers (clock w) ∧
     NoDup (sleepers (clock w)) ∧
     trace (Advance d w)
       = trace w ++
         flat_map (λ s, fire_events (heap w s))
                  (filter (λ s, (sl_until (heap w s) <= now)%Z)
                          (sleepers (clock w))) ∧
     (∀ s, pending s w → (sl_until (heap w s) <= now)%Z →
        sl_woke (heap w s) = false ∧
        heap (Advance d w) s = set_woke true (set_i (-1) (heap w s)) ∧
        ¬ pending s (Advance d w) ∧
        ∀ c, sl_c (heap w s) = Some c →
             sent c (Advance d w) = [sl_until (heap w s)]) ∧
     (∀ s, pending s w → (now < sl_until (heap w s))%Z →
        pending s (Advance d w) ∧
        same_but_i (heap (Advance d w) s) (heap w s) ∧
        sl_woke (heap (Advance d w) s) = false ∧
        ∀ c, sl_c (heap w s) = Some c → sent c (Advance d w) = []) ∧
     (∀ s, ¬ pending s w → heap (Advance d w) s = heap w s)).
Proof.
  intros now. split; [apply Advance_not_positive|]. intros Hd.
  destruct (Advance_offered d w Hd Hok) as [H1 H2 H3 H4 H5 H6 H7 H8].
  set (w2 := upd_clock (set_sleepers [])
               (upd_clock (λ k, set_at (Time_Add (at_ k) d) k) w)) in *.
  assert (∀ s, due s w2 ↔ (sl_until (heap w s) <= now)%Z) as Hdue.
  { intros s. unfold due, w2, now, Time_Add. simpl. done. }
  pose proof (registry_ok_NoDup w (ok_registry w Hok)) as Hnd.
  pose proof (ok_sends w Hok) as [Hs1 Hs2 Hs3 Hs4 Hs5].
  pose proof (ok_owners w Hok) as Ho.
  assert (sleepers (clock (Advance d w))
          = filter (λ s, (now < sl_until (heap w s))%Z) (sleepers (clock w)))
    as Hsl.
  { rewrite H4. simpl. apply filter_ext_in. intros s _. rewrite Hdue. lia. }
  assert (trace (Advance d w)
          = trace w ++
            flat_map (λ s, fire_events (heap w s))
                     (filter (λ s, (sl_until (heap w s) <= now)%Z)
                             (sleepers (clock w)))) as Htr.
  { rewrite H5. reflexivity. }
  assert (∀ s c, pending s w → sl_c (heap w s) = Some c →
            sent c (Advance d w) =
            if decide (sl_until (heap w s) <= now)%Z
            then [sl_until (heap w s)] else []) as Hsent.
  { intros s c Hp Hc.
    pose proof (reg_alloc w (ok_registry w Hok) s Hp) as Hlt.
    pose proof (ow_asleep w Ho s Hp) as Hwk.
    unfold sent. rewrite Htr, sent_on_app, sent_on_fire_all.
    rewrite (sent_on_unsent c (trace w)) by (by apply (Hs3 s c)).
    simpl. case_decide as Hd'.
    - rewrite (flat_map_single _ _ s).
      + by rewrite Hwk, bool_decide_eq_true_2.
      + by apply list.NoDup_filter.
      + by apply list_elem_of_filter.
      + intros q [_ Hq]%list_elem_of_filter Hne.
        destruct (sl_woke (heap w q)); [done|].
        rewrite bool_decide_eq_false_2; [done|]. intros Hqc. apply Hne.
        apply (Hs2 q s c); try done. by apply (reg_alloc w (ok_registry w Hok)).
    - apply flat_map_none. intros q [Hq1 Hq]%list_elem_of_filter.
      destruct (sl_woke (heap w q)); [done|].
      rewrite bool_decide_eq_false_2; [done|]. intros Hqc.
      assert (q = s) as ->; [|done].
      apply (Hs2 q s c); try done. by apply (reg_alloc w (ok_registry w Hok)). }
  split; [by apply Advance_clock_ok|].
  split; [by rewrite H1|].
  split; [done|]. split; [by rewrite H2|]. split; [done|]. split; [done|].
  split; [|split].
  - intros s Hp Hd'. split; [by apply (ow_asleep w Ho)|].
    split; [by apply H7; [|apply Hdue]|]. split.
    + unfold pending. rewrite Hsl. intros [Hlt _]%list_elem_of_filter. lia.
    + intros c Hc. rewrite (Hsent s c Hp Hc). by rewrite decide_True.
  - intros s Hp Hd'. split; [|split; [|split]].
    + unfold pending. rewrite Hsl. by apply list_elem_of_filter.
    + apply H8; [done|]. rewrite Hdue. lia.
    + destruct (H8 s Hp) as (_ & -> & _); [rewrite Hdue; lia|].
      by apply (ow_asleep w Ho).
    + intros c Hc. rewrite (Hsent s c Hp Hc). by rewrite decide_False by lia.
  - intros s Hp. by apply H6.
Qed.

(** C1. On a world that satisfies the invariant, [Advance] by a duration
    that is not positive changes nothing.  [Advance] by a positive duration
    moves the instant forward by that duration; the sleepers whose deadline
    is after the new instant stay pending, in their order, and are left
    asleep with nothing sent on their channels; every pending sleeper whose
    deadline is at or before the new instant was asleep, is woken, leaves
    the registry, and its events (its deadline sent on its channel, its
    callback started) are emitted once: the trace grows by the events of
    the due sleepers, each of which occurs once in the registry, and a due
    sleeper's channel holds exactly its deadline.  No other sleeper is
    touched and no blocker is signalled. *)
Theorem C1_advance (w : world) (d : duration) (Hok : clock_ok w) :
  let now := (at_ (clock w) + d)%Z in
  ((d <= 0)%Z → Advance d w = w) ∧
  ((0 < d)%Z →
     clock_ok (Advance d w) ∧
     at_ (clock (Advance d w)) = now ∧
     sleepers (clock (Advance d w))
       = filter (λ s, (now < sl_until (heap w s))%Z) (sleepers (clock w)) ∧
     blockers (clock (Advance d w)) = blockers (clock w) ∧
     NoDup (sleepers (clock w)) ∧
     trace (Advance d w)
       = trace w ++
         flat_map (λ s, fire_events (heap w s))
                  (filter (λ s, (sl_until (heap w s) <= now)%Z)
                          (sleepers (clock w))) ∧
     (∀ s, pending s w → (sl_until (heap w s) <= now)%Z →
        sl_woke (heap w s) = false ∧
        heap (Advance d w) s = set_woke true (set_i (-1) (heap w s)) ∧
        ¬ pending s (Advance d w) ∧
        ∀ c, sl_c (heap w s) = Some c →
             sent c (Advance d w) = [sl_until (heap w s)]) ∧
     (∀ s, pending s w → (now < sl_until (heap w s))%Z →
        pending s (Advance d w) ∧
        same_but_i (heap (Advance d w) s) (heap w s) ∧
        sl_woke (heap (Advance d w) s) = false ∧
        ∀ c, sl_c (heap w s) = Some c → sent c (Advance d w) = []) ∧
     (∀ s, ¬ pending s w → heap (Advance d w) s = heap w s)).
Proof. by apply Advance_spec. Qed.


Lemma C1_advance_witness :
  Advance 0%Z two_sleepers_world = two_sleepers_world ∧
  at_ (clock (Advance second two_sleepers_world)) = (2 * second)%Z ∧
  sleepers (clock (Advance second two_sleepers_world)) = [1] ∧
  sent 0 (Advance second two_sleepers_world) = [(2 * second)%Z] ∧
  sent 1 (Advance second two_sleepers_world) = [].
Proof.
  destruct (C1_advance two_sleepers_world 0%Z two_sleepers_world_ok) as [H0 _].
  destruct (C1_advance two_sleepers_world second two_sleepers_world_ok)
    as [_ H1].
  destruct H1 as (_ & Hat & Hsl & _ & _ & _ & Hdue & Hkept & _);
    [unfold second; lia|].
  destruct (Hdue 0) as (_ & _ & _ & Hsent0);
    [vm_compute; left|vm_compute; discriminate|].
  destruct (Hkept 1) as (_ & _ & _ & Hsent1);
    [vm_compute; right; left|vm_compute; reflexivity|].
  split; [apply H0; lia|]. split; [exact Hat|]. split; [exact Hsl|].
  split; [exact (Hsent0 0 eq_refl)|exact (Hsent1 1 eq_refl)].
Defined.

(** ** Ticker.C (C3) *)

Lemma fakeTicker_C_active k w :
  tk_stopped (tickers w k) = false →
  fakeTicker_C k w =
  (nchan w,
   upd_ticker k (λ x, FakeTicker (tk_interval x)
                        (Time_Add (tk_next x) (tk_interval x))
                        (tk_stopped x) (tk_sleeper x))
     (appendSleeper (nheap w) (requested k w))).
Proof.
  intros Hs. unfold fakeTicker_C, make_chan, new_sleeper. simpl. rewrite Hs.
  unfold upd_ticker at 2. simpl. rewrite fn_lookup_insert. simpl.
  reflexivity.
Qed.

(** What a request for the channel of an active ticker does. *)
Lemma fakeTicker_C_spec (w : world) (k : nat)
    (Hok : clock_ok w) (Hk : k < ntickers w)
    (Hactive : tk_stopped (tickers w k) = false) :
  let old := tk_sleeper (tickers w k) in
  let next := tk_next (tickers w k) in
  let w' := (fakeTicker_C k w).2 in
  (fakeTicker_C k w).1 = nchan w ∧
  clock_ok w' ∧
  at_ (clock w') = at_ (clock w) ∧
  nheap w' = S (nheap w) ∧ nchan w' = S (nchan w) ∧ ntickers w' = ntickers w ∧
  tickers w' k
    = FakeTicker (tk_interval (tickers w k))
                 (next + tk_interval (tickers w k))%Z false (nheap w) ∧
  sl_until (heap w' (nheap w)) = next ∧
  sl_c (heap w' (nheap w)) = Some (nchan w) ∧
  ((at_ (clock w) < next)%Z →
     sleepers (clock w') = sleepers (clock w) ++ [nheap w] ∧
     sl_woke (heap w' (nheap w)) = false) ∧
  ((next <= at_ (clock w))%Z →
     sleepers (clock w') = sleepers (clock w) ∧
     sent (nchan w) w' = [next]) ∧
  old ≠ nheap w ∧
  (∀ p, p ≠ nheap w → heap w' p = heap w p) ∧
  (∀ p, pending p w → pending p w').
Proof.
  intros old next w'. unfold w'. rewrite fakeTicker_C_active by done.
  pose proof (fakeTicker_C_clock_ok k w Hok Hk) as Hok'.
  rewrite fakeTicker_C_active in Hok' by done. simpl in *.
  set (v := requested k w) in *.
  destruct (appendSleeper_alloc (nheap w) v) as (Hn & _ & _ & Htk & Hnk & Hnc).
  assert (heap v (nheap w) = Sleeper 0 next false (Some (nchan w)) None) as Hnew.
  { unfold v, requested; simpl. by rewrite fn_lookup_insert. }
  assert (due (nheap w) v ↔ (next <= at_ (clock w))%Z) as Hdue.
  { unfold due. by rewrite Hnew. }
  pose proof (appendSleeper_same_but_i (nheap w) v (nheap w)) as (Hu & Hc & _).
  rewrite Hnew in Hu, Hc. simpl in Hu, Hc.
  split; [done|]. split; [done|].
  split; [by rewrite appendSleeper_at|].
  split; [by rewrite Hn|]. split; [by rewrite Hnc|]. split; [by rewrite Hnk|].
  split.
  { rewrite fn_lookup_insert, Htk. unfold v, requested; simpl.
    rewrite fn_lookup_insert. simpl. by rewrite Hactive. }
  split; [done|]. split; [done|]. split; [|split; [|split; [|split]]].
  - intros Hlt. assert (¬ due (nheap w) v) as Hnd by (rewrite Hdue; lia).
    rewrite appendSleeper_sleepers, appendSleeper_heap.
    rewrite (decide_True (P := nheap w = nheap w)) by done.
    rewrite !(decide_False (P := due (nheap w) v)) by done.
    by rewrite Hnew.
  - intros Hle. rewrite appendSleeper_sleepers.
    rewrite decide_True by (by apply Hdue). split; [done|].
    unfold sent. simpl. rewrite appendSleeper_trace.
    rewrite decide_True by (by apply Hdue). rewrite sent_on_app.
    rewrite sent_on_unsent.
    + rewrite sent_on_fire_events, Hnew. simpl.
      by rewrite bool_decide_eq_true_2.
    + intros Hin%(sn_alloc w (ok_sends w Hok)). lia.
  - pose proof (ow_tickers w (ok_owners w Hok) k Hk). unfold old. lia.
  - intros p Hp. rewrite appendSleeper_heap_ne by done.
    unfold v, requested; simpl. by rewrite fn_lookup_insert_ne.
  - intros p Hp. unfold pending. simpl. apply appendSleeper_pending.
    by left.
Qed.

(** What two requests in a row for the channel of an active ticker do.  A
    request makes a new channel and a new sleeper at the ticker's next
    deadline, which the ticker tracks from then on, offers that sleeper to
    the registry, and moves the next deadline on by the interval.  The
    sleeper tracked before is not removed: its record is untouched and, if
    it was pending, it still is.  When the next deadline is in the future
    and the interval positive, both sleepers are pending after two requests,
    and an advance past both deadlines delivers the first deadline on the
    first channel and the second deadline on the second channel. *)
Lemma fakeTicker_C_twice (w : world) (k : nat)
    (Hok : clock_ok w) (Hk : k < ntickers w)
    (Hactive : tk_stopped (tickers w k) = false) :
  let old := tk_sleeper (tickers w k) in
  let next := tk_next (tickers w k) in
  let iv := tk_interval (tickers w k) in
  let r1 := fakeTicker_C k w in
  let r2 := fakeTicker_C k r1.2 in
  r1.1 = nchan w ∧
  tickers r1.2 k = FakeTicker iv (next + iv)%Z false (nheap w) ∧
  sl_until (heap r1.2 (nheap w)) = next ∧
  sl_c (heap r1.2 (nheap w)) = Some (nchan w) ∧
  ((at_ (clock w) < next)%Z → pending (nheap w) r1.2) ∧
  ((next <= at_ (clock w))%Z → sent r1.1 r1.2 = [next]) ∧
  heap r1.2 old = heap w old ∧
  (pending old w → pending old r1.2) ∧
  ((at_ (clock w) < next)%Z → (0 < iv)%Z →
   ∀ d, (next + iv <= at_ (clock w) + d)%Z →
     r2.1 = S (nchan w) ∧
     tk_sleeper (tickers r2.2 k) = S (nheap w) ∧
     pending (nheap w) r2.2 ∧ pending (S (nheap w)) r2.2 ∧
     sent r1.1 (Advance d r2.2) = [next] ∧
     sent r2.1 (Advance d r2.2) = [(next + iv)%Z]).
Proof.
  intros old next iv r1 r2.
  destruct (fakeTicker_C_spec w k Hok Hk Hactive)
    as (Hc1 & Hok1 & Hat1 & Hn1 & Hnc1 & Hnk1 & Htk1 & Hu1 & Hsc1 & Hfut1 &
        Hpast1 & Hold1 & Hh1 & Hp1).
  fold r1 old next iv in Hc1, Hok1, Hat1, Hn1, Hnc1, Hnk1, Htk1, Hu1, Hsc1,
    Hfut1, Hpast1, Hold1, Hh1, Hp1.
  split; [done|]. split; [done|]. split; [done|]. split; [done|].
  split.
  { intros Hlt. destruct (Hfut1 Hlt) as [Hsl _]. unfold pending.
    rewrite Hsl. apply elem_of_app. right. by left. }
  split; [by rewrite Hc1; intros Hle; apply Hpast1|].
  split; [by apply Hh1|]. split; [by apply Hp1|].
  intros Hlt Hiv d Hd.
  assert (k < ntickers r1.2) as Hk2 by (by rewrite Hnk1).
  assert (tk_stopped (tickers r1.2 k) = false) as Hactive2 by (by rewrite Htk1).
  destruct (fakeTicker_C_spec r1.2 k Hok1 Hk2 Hactive2)
    as (Hc2 & Hok2 & Hat2 & Hn2 & Hnc2 & Hnk2 & Htk2 & Hu2 & Hsc2 & Hfut2 &
        _ & _ & Hh2 & Hp2).
  fold r2 in Hc2, Hok2, Hat2, Hn2, Hnc2, Hnk2, Htk2, Hu2, Hsc2, Hfut2, Hh2, Hp2.
  rewrite Htk1 in Htk2, Hu2, Hfut2. simpl in Htk2, Hu2, Hfut2.
  rewrite Hn1 in Htk2, Hu2, Hsc2, Hfut2, Hh2. rewrite Hnc1 in Hc2, Hsc2.
  rewrite Hat1 in Hfut2, Hat2.
  destruct (Hfut1 Hlt) as [Hsl1 _].
  destruct Hfut2 as [Hsl2 _]; [lia|].
  assert (pending (nheap w) r1.2) as Hpend1.
  { unfold pending. rewrite Hsl1. apply elem_of_app. right. by left. }
  assert (pending (nheap w) r2.2) as Hpend2 by (by apply Hp2).
  assert (pending (S (nheap w)) r2.2) as Hpend3.
  { unfold pending. rewrite Hsl2. apply elem_of_app. right. by left. }
  assert (heap r2.2 (nheap w) = heap r1.2 (nheap w)) as Hsame
    by (apply Hh2; lia).
  destruct (Advance_spec r2.2 d Hok2) as [_ Hadv].
  destruct Hadv as (_ & _ & _ & _ & _ & _ & Hdue & _); [lia|].
  split; [done|]. split; [by rewrite Htk2|]. split; [done|]. split; [done|].
  split.
  - destruct (Hdue (nheap w) Hpend2) as (_ & _ & _ & Hsent).
    { rewrite Hsame, Hu1, Hat2. lia. }
    rewrite Hc1. rewrite (Hsent (nchan w)); [by rewrite Hsame, Hu1|].
    by rewrite Hsame.
  - destruct (Hdue (S (nheap w)) Hpend3) as (_ & _ & _ & Hsent).
    { rewrite Hu2, Hat2. lia. }
    rewrite Hc2. rewrite (Hsent (S (nchan w))); [by rewrite Hu2|done].
Qed.

(** C3.  The code at the failing input.  After a new ticker of one second
    and two requests in a row, the sleeper of the first request (address 1,
    channel 0) is still in the registry beside that of the second (address
    2, channel 1), which alone the ticker tracks; an advance of two seconds
    delivers the first deadline on the first channel as well as the second
    deadline on the second.  A [Stop] after the two requests removes the
    tracked sleeper only: the sleeper of the first request stays pending,
    and a later advance delivers its tick on the first channel, after the
    [Stop]. *)
Theorem C3_first_request_still_pending :
  sleepers (clock twice_requested_world) = [1; 2] ∧
  sl_c (heap twice_requested_world 1) = Some 0 ∧
  sl_c (heap twice_requested_world 2) = Some 1 ∧
  tk_sleeper (tickers twice_requested_world 0) = 2 ∧
  sent 0 (Advance (2 * second)%Z twice_requested_world) = [(2 * second)%Z] ∧
  sent 1 (Advance (2 * second)%Z twice_requested_world) = [(3 * second)%Z] ∧
  fakeTicker_Stop 0 twice_requested_world
  = Some (world_after [OpNewTicker second; OpTickerC 0; OpTickerC 0;
                       OpTickerStop 0]) ∧
  sleepers (clock (world_after [OpNewTicker second; OpTickerC 0; OpTickerC 0;
                                OpTickerStop 0])) = [1] ∧
  sent 0 (world_after [OpNewTicker second; OpTickerC 0; OpTickerC 0;
                       OpTickerStop 0]) = [] ∧
  sent 0 (Advance (5 * second)%Z
            (world_after [OpNewTicker second; OpTickerC 0; OpTickerC 0;
                          OpTickerStop 0])) = [(2 * second)%Z] ∧
  sent 1 (Advance (5 * second)%Z
            (world_after [OpNewTicker second; OpTickerC 0; OpTickerC 0;
                          OpTickerStop 0])) = [].
Proof.
  split; [vm_compute; reflexivity|]. split; [vm_compute; reflexivity|].
  split; [vm_compute; reflexivity|]. split; [vm_compute; reflexivity|].
  split; [vm_compute; reflexivity|]. split; [vm_compute; reflexivity|].
  split; [vm_compute; reflexivity|]. split; [vm_compute; reflexivity|].
  split; [vm_compute; reflexivity|]. split; [vm_compute; reflexivity|].
  vm_compute; reflexivity.
Qed.

(** ** Ticker.Reset (C4) *)

(** What [Reset] does to a ticker: the flag is cleared, the interval adopted,
    the tracked sleeper is taken out of the registry and given the deadline
    "instant plus duration"; nothing is emitted; the ticker's [next], from
    which [C] takes the deadline of the sleeper it makes, stays as it was. *)
Lemma fakeTicker_Reset_spec (w : world) (k : nat) (d : duration)
    (Hok : clock_ok w) (Hk : k < ntickers w) :
  ∃ w', fakeTicker_Reset k d w = Some w' ∧
        tickers w' k
          = FakeTicker d (tk_next (tickers w k)) false
                       (tk_sleeper (tickers w k)) ∧
        sl_until (heap w' (tk_sleeper (tickers w k)))
          = (at_ (clock w) + d)%Z ∧
        ¬ pending (tk_sleeper (tickers w k)) w' ∧
        trace w' = trace w.
Proof.
  unfold fakeTicker_Reset.
  destruct (fakeTicker_Stop_clock_ok k w Hok Hk)
    as (w2 & Hstop & Hok2 & Hnk & Hsl & Hnp).
  rewrite Hstop. eexists. split; [done|].
  assert (tickers w2 k
          = FakeTicker (tk_interval (tickers w k)) (tk_next (tickers w k))
                       true (tk_sleeper (tickers w k))
          ∧ at_ (clock w2) = at_ (clock w) ∧ trace w2 = trace w)
    as (Htk & Hat & Htr).
  { unfold fakeTicker_Stop in Hstop.
    match type of Hstop with
    | context [removeSleeper ?s ?v] =>
        destruct (removeSleeper s v) as [[r w2']|] eqn:Hrm; [|done]
    end.
    injection Hstop as ->.
    destruct (removeSleeper_frame _ _ _ _ Hrm)
      as (Hat & _ & Htr & (_ & _ & _ & Htk & _) & _).
    rewrite Htk, Hat, Htr. unfold upd_ticker. simpl.
    by rewrite fn_lookup_insert. }
  set (w3 := upd_ticker k
               (λ x, FakeTicker (tk_interval x) (tk_next x) false (tk_sleeper x))
               w2).
  set (w4 := upd_ticker k
               (λ x, FakeTicker d (tk_next x) (tk_stopped x) (tk_sleeper x)) w3).
  assert (tickers w4 k
          = FakeTicker d (tk_next (tickers w k)) false
                       (tk_sleeper (tickers w k))) as Htk4.
  { unfold w4, w3, upd_ticker. simpl. rewrite !fn_lookup_insert. simpl.
    by rewrite Htk. }
  rewrite Htk4. simpl.
  split; [done|]. split; [|split].
  - unfold upd_sleeper. simpl. rewrite fn_lookup_insert. simpl.
    unfold Time_Add, Now. simpl. by rewrite Hat.
  - exact Hnp.
  - exact Htr.
Qed.

(** C4, on the code.  A ticker of one second made at instant 1 s has its
    next deadline at 2 s.  [Reset] to ten seconds, at that same instant,
    clears the flag and adopts the interval, but leaves the next deadline at
    2 s, not at 11 s: the 11 s are written into the tracked sleeper, which
    the following [C] replaces.  The channel that [C] returns then receives
    its tick, 2 s, after an advance of a single second. *)
Theorem C4_ticker_reset_leaves_next :
  tk_next (tickers (world_after [OpNewTicker second]) 0) = (2 * second)%Z ∧
  fakeTicker_Reset 0 (10 * second)%Z (world_after [OpNewTicker second])
    = Some reset_only_world ∧
  tickers reset_only_world 0
    = FakeTicker (10 * second)%Z (2 * second)%Z false 0 ∧
  sl_until (heap reset_only_world 0) = (11 * second)%Z ∧
  trace reset_only_world = [] ∧
  fakeTicker_C 0 reset_only_world = (0, reset_ticker_world) ∧
  sl_until (heap reset_ticker_world 1) = (2 * second)%Z ∧
  at_ (clock (Advance second reset_ticker_world)) = (2 * second)%Z ∧
  sent 0 (Advance second reset_ticker_world) = [(2 * second)%Z].
Proof. by vm_compute. Qed.

(** ** Timer.Stop (C5) *)

Lemma offer_all_alloc l : ∀ v, same_alloc v (offer_all l v).
Proof.
  induction l as [|s l IH]; intros v; [apply same_alloc_refl|].
  simpl. eapply same_alloc_trans; [apply appendSleeper_alloc|apply IH].
Qed.

Lemma timers_kept_same w w' :
  timers w' = timers w → ntimers w' = ntimers w → timers_kept w w'.
Proof. intros Ht Hn t Hlt. rewrite Ht, Hn. done. Qed.

Lemma timers_kept_alloc w w' : same_alloc w w' → timers_kept w w'.
Proof. intros (_ & Ht & Hn & _). by apply timers_kept_same. Qed.

Lemma timers_kept_trans w1 w2 w3 :
  timers_kept w1 w2 → timers_kept w2 w3 → timers_kept w1 w3.
Proof.
  intros H12 H23 t Hlt. destruct (H12 t Hlt) as (Hlt2 & Hs2 & Hst2).
  destruct (H23 t Hlt2) as (Hlt3 & Hs3 & Hst3).
  split; [done|]. split; [congruence|]. auto.
Qed.

Lemma timers_kept_new tm w w' :
  timers w' = <[ntimers w := tm]> (timers w) → ntimers w' = S (ntimers w) →
  timers_kept w w'.
Proof.
  intros Ht Hn t Hlt. rewrite Ht, Hn, fn_lookup_insert_ne by lia.
  split; [lia|done].
Qed.

Lemma timers_kept_stop t w :
  timers_kept w (upd_timer t (λ x, FakeTimer true (tm_sleeper x)) w).
Proof.
  intros t' Hlt. unfold upd_timer. simpl. split; [done|].
  destruct (decide (t = t')) as [->|Hne].
  - by rewrite fn_lookup_insert.
  - by rewrite fn_lookup_insert_ne.
Qed.

Lemma removeSleeper_timers_kept s w r w' :
  removeSleeper s w = Some (r, w') → timers_kept w w'.
Proof.
  intros Hrm. destruct (removeSleeper_frame _ _ _ _ Hrm) as (_ & _ & _ & Ha & _).
  by apply timers_kept_alloc.
Qed.

Lemma exec_timers_kept o w w' : exec o w = Some w' → timers_kept w w'.
Proof.
  destruct o as [d|d f|d|t|t|t d|d|k|k|k d|d|n]; simpl.
  - intros [= <-]. unfold After, make_chan, new_sleeper. simpl.
    eapply timers_kept_trans; [|apply timers_kept_alloc, appendSleeper_alloc].
    by apply timers_kept_same.
  - intros [= <-]. unfold AfterFunc, new_timer, new_sleeper. simpl.
    eapply timers_kept_trans; [|apply timers_kept_alloc, appendSleeper_alloc].
    by eapply timers_kept_new.
  - intros [= <-]. unfold NewTimer, new_timer, new_sleeper, make_chan. simpl.
    by eapply timers_kept_new.
  - intros [= <-]. unfold fakeTimer_C. simpl. case_bool_decide.
    + apply timers_kept_alloc, appendSleeper_alloc.
    + by apply timers_kept_same.
  - unfold fakeTimer_Stop. destruct (tm_stopped (timers w t)).
    { intros [= <-]. apply timers_kept_stop. }
    destruct (removeSleeper _ w) as [[[] w1]|] eqn:Hrm; [| |done];
      intros [= <-];
      (eapply timers_kept_trans;
         [by eapply removeSleeper_timers_kept|apply timers_kept_stop]).
  - unfold fakeTimer_Reset, make_chan. simpl.
    match goal with
    | |- context [removeSleeper ?s ?v] =>
        destruct (removeSleeper s v) as [[r w1]|] eqn:Hrm; [|done];
        set (w0 := v) in Hrm
    end.
    intros [= <-].
    apply (timers_kept_trans w w0); [by apply timers_kept_same|].
    apply (timers_kept_trans w0 w1); [by eapply removeSleeper_timers_kept|].
    destruct (sl_f _); [|by apply timers_kept_same].
    apply timers_kept_alloc, appendSleeper_alloc.
  - unfold NewTicker. case_bool_decide; [done|]. intros [= <-].
    by apply timers_kept_same.
  - intros [= <-]. destruct (tk_stopped (tickers w k)) eqn:Hst.
    { unfold fakeTicker_C, make_chan. simpl. rewrite Hst.
      by apply timers_kept_same. }
    rewrite fakeTicker_C_active by done. simpl.
    apply (timers_kept_trans w (appendSleeper (nheap w) (requested k w)));
      [|by apply timers_kept_same].
    apply (timers_kept_trans w (requested k w)); [by apply timers_kept_same|].
    apply timers_kept_alloc, appendSleeper_alloc.
  - unfold fakeTicker_Stop.
    match goal with
    | |- context [removeSleeper ?s ?v] =>
        destruct (removeSleeper s v) as [[r w1]|] eqn:Hrm; [|done];
        set (w0 := v) in Hrm
    end.
    intros [= <-].
    apply (timers_kept_trans w w0); [by apply timers_kept_same|].
    by eapply removeSleeper_timers_kept.
  - unfold fakeTicker_Reset, fakeTicker_Stop.
    match goal with
    | |- context [removeSleeper ?s ?v] =>
        destruct (removeSleeper s v) as [[r w1]|] eqn:Hrm; [|done];
        set (w0 := v) in Hrm
    end.
    intros [= <-].
    apply (timers_kept_trans w w1); [|by apply timers_kept_same].
    apply (timers_kept_trans w w0); [by apply timers_kept_same|].
    by eapply removeSleeper_timers_kept.
  - intros [= <-]. unfold Advance. case_bool_decide; [by apply timers_kept_same|].
    rewrite checkSleepers_offer.
    eapply timers_kept_trans; [|apply timers_kept_alloc, offer_all_alloc].
    by apply timers_kept_same.
  - intros [= <-]. unfold Until, make_chan. simpl.
    case_bool_decide; by apply timers_kept_same.
Qed.

Lemma run_timers_kept os : ∀ w w', run os w = Some w' → timers_kept w w'.
Proof.
  induction os as [|o os IH]; intros w w'; simpl.
  - intros [= <-]. by apply timers_kept_same.
  - case_decide; [|done]. destruct (exec o w) as [w1|] eqn:Hex; [|done].
    intros Hrun. eapply timers_kept_trans; [by eapply exec_timers_kept|].
    by apply IH.
Qed.

Lemma fakeTimer_Stop_stopped t w :
  tm_stopped (timers w t) = true →
  fakeTimer_Stop t w
  = Some (false, upd_timer t (λ x, FakeTimer true (tm_sleeper x)) w).
Proof. intros Hs. unfold fakeTimer_Stop. by rewrite Hs. Qed.

(** C5, as the code has it.  On a world that satisfies the invariant, [Stop]
    of a timer does not panic, emits nothing and sets the timer's stopped
    flag.  It returns [true] exactly when the timer had not been stopped and
    its sleeper either was pending (and is then taken out of the registry)
    or, being unregistered, has a deadline strictly after the clock's
    instant (a timer whose channel was never requested).  It returns [false]
    when the timer had been stopped, and when its sleeper has fired.  After
    a [Stop], whatever calls follow, every later [Stop] of the same timer
    returns [false]. *)
Theorem C5_timer_stop (w : world) (t : nat)
    (Hok : clock_ok w) (Ht : t < ntimers w) :
  let s := tm_sleeper (timers w t) in
  ∃ r w', fakeTimer_Stop t w = Some (r, w') ∧
          clock_ok w' ∧
          (r = true ↔
             tm_stopped (timers w t) = false ∧
             (pending s w ∨ (at_ (clock w) < sl_until (heap w s))%Z)) ∧
          (sl_woke (heap w s) = true → r = false) ∧
          (tm_stopped (timers w t) = true →
             r = false ∧ sleepers (clock w') = sleepers (clock w)) ∧
          (tm_stopped (timers w t) = false →
             ∀ p, pending p w' ↔ pending p w ∧ p ≠ s) ∧
          trace w' = trace w ∧
          at_ (clock w') = at_ (clock w) ∧
          tm_stopped (timers w' t) = true ∧
          (∀ os w'', run os w' = Some w'' →
             ∃ w3, fakeTimer_Stop t w'' = Some (false, w3)).
Proof.
  intros s.
  pose proof (ok_owners w Hok) as Ho.
  pose proof (ow_timers w Ho t Ht) as Hs. fold s in Hs.
  assert (∀ w1, timers w1 = timers w → ntimers w1 = ntimers w →
            let w' := upd_timer t (λ x, FakeTimer true (tm_sleeper x)) w1 in
            tm_stopped (timers w' t) = true ∧
            ∀ os w'', run os w' = Some w'' →
                      ∃ w3, fakeTimer_Stop t w'' = Some (false, w3)) as Hlater.
  { intros w1 Htm Hnt w'.
    assert (tm_stopped (timers w' t) = true) as Hst.
    { unfold w', upd_timer. simpl. by rewrite fn_lookup_insert. }
    split; [done|]. intros os w'' Hrun.
    destruct (run_timers_kept os w' w'' Hrun t) as (_ & _ & Hkept).
    { unfold w', upd_timer. simpl. by rewrite Hnt. }
    eexists. apply fakeTimer_Stop_stopped. by apply Hkept. }
  assert (sl_woke (heap w s) = true →
          ¬ pending s w ∧ ¬ (at_ (clock w) < sl_until (heap w s))%Z) as Hfired.
  { intros Hwk. split.
    - intros Hp. pose proof (ow_asleep w Ho s Hp). congruence.
    - pose proof (ow_woke w Ho t Ht Hwk) as Hd. unfold due in Hd. fold s in Hd.
      lia. }
  unfold fakeTimer_Stop. fold s.
  destruct (tm_stopped (timers w t)) eqn:Hstopped.
  { eexists _, _. split; [done|]. split; [by apply stop_clock_ok|].
    split; [by split; [|intros [? _]]|]. split; [done|]. split; [done|].
    split; [done|]. split; [done|]. split; [done|]. by apply Hlater. }
  destruct (removeSleeper_clock_ok s w Hok Hs) as (w1 & Hrm & Hok1 & Hp).
  destruct (removeSleeper_frame _ _ _ _ Hrm)
    as (Hat & _ & Htr & (_ & Htm & Hnt & _) & Hsb & _).
  destruct (Hsb s) as (Hu & _).
  rewrite Hrm. destruct (decide (pending s w)) as [Hpend|Hpend].
  - rewrite bool_decide_eq_true_2 by done.
    eexists _, _. split; [done|]. split; [by apply stop_clock_ok|].
    split; [by split; [intros _; split; [|left]|]|].
    split; [by intros [? _]%Hfired|]. split; [done|].
    split; [done|]. split; [done|]. split; [done|]. by apply Hlater.
  - rewrite bool_decide_eq_false_2 by done.
    eexists _, _. split; [done|]. split; [by apply stop_clock_ok|].
    unfold Time_After. rewrite Hu, Hat. split; [|split].
    + split.
      * intros Hr%bool_decide_eq_true_1. split; [done|by right].
      * intros [_ [?|Hlt]]; [done|]. by apply bool_decide_eq_true_2.
    + intros [_ Hnlt]%Hfired. by apply bool_decide_eq_false_2.
    + split; [done|]. split; [done|]. split; [done|]. split; [done|].
      by apply Hlater.
Qed.

(** C5, as the claim states it, fails: a timer of two seconds whose channel
    was never requested has no pending sleeper (the registry is empty), and
    [Stop] returns [true]. *)
Lemma C5_stop_true_without_registration :
  sleepers (clock idle_timer_world) = [] ∧
  ¬ pending (tm_sleeper (timers idle_timer_world 0)) idle_timer_world ∧
  fst <$> fakeTimer_Stop 0 idle_timer_world = Some true.
Proof.
  split; [by vm_compute|]. split; [|by vm_compute].
  unfold pending.
  replace (sleepers (clock idle_timer_world)) with (@nil ptr)
    by (vm_compute; reflexivity).
  apply not_elem_of_nil.
Qed.

Lemma C5_timer_stop_witness :
  ∃ w', fakeTimer_Stop 1 two_timers_world = Some (true, w') ∧
        ¬ pending 1 w' ∧
        ∃ w3, fakeTimer_Stop 1 (Advance second w') = Some (false, w3).
Proof.
  destruct (C5_timer_stop two_timers_world 1 two_timers_world_ok)
    as (r & w' & Hstop & _ & Hr & _ & _ & Hrem & _ & _ & _ & Hlater).
  { vm_compute. lia. }
  assert (r = true) as ->.
  { apply Hr. split; [vm_compute; reflexivity|]. right.
    vm_compute. reflexivity. }
  exists w'. split; [exact Hstop|]. split.
  - intros Hp. apply (Hrem eq_refl 1) in Hp as [_ Hne]. by apply Hne.
  - apply (Hlater [OpAdvance second]). reflexivity.
Defined.

(** ** Blockers (C7) *)

Lemma quiet_refl w : quiet w w.
Proof. by repeat split. Qed.

Lemma quiet_trans w1 w2 w3 : quiet w1 w2 → quiet w2 w3 → quiet w1 w3.
Proof.
  unfold quiet. intros (Hb & Hc & Hl) (Hb' & Hc' & Hl').
  split; [congruence|]. split; [congruence|lia].
Qed.

Lemma quiet_signalled w w' : blockers_ok w → quiet w w' → signalled w w'.
Proof.
  intros Hok (Hb & Hc & Hl). unfold signalled. rewrite Hb, Hc.
  rewrite filter_all, filter_none.
  - rewrite app_nil_r. split; [done|]. split; [done|lia].
  - intros b Hin Hs. apply Hs. eapply waiting_le; [exact Hl|by apply Hok].
  - intros b Hin. eapply waiting_le; [exact Hl|by apply Hok].
Qed.

Lemma appendSleeper_signalled s v :
  blockers_ok v → signalled v (appendSleeper s v).
Proof.
  intros Hok. destruct (decide (due s v)) as [Hd|Hd].
  - apply quiet_signalled; [done|]. unfold quiet.
    rewrite appendSleeper_blockers, appendSleeper_closes,
      appendSleeper_sleepers.
    rewrite !decide_True by done. by rewrite app_nil_r.
  - unfold signalled.
    rewrite appendSleeper_blockers, appendSleeper_closes,
      appendSleeper_sleepers.
    rewrite !decide_False by done. rewrite length_app. simpl.
    rewrite Nat.add_1_r. done.
Qed.

Lemma signalled_pre w v v' : quiet w v → signalled v v' → signalled w v'.
Proof.
  unfold quiet, signalled. intros (Hb & Hc & Hl) (Hb' & Hc' & Hl').
  rewrite Hb', Hc', Hb, Hc. split; [done|]. split; [done|lia].
Qed.

Lemma signalled_post w v v' :
  signalled w v →
  blockers (clock v') = blockers (clock v) →
  closes (trace v') = closes (trace v) →
  sleepers (clock v') = sleepers (clock v) →
  signalled w v'.
Proof. unfold signalled. by intros H -> -> ->. Qed.

Lemma removeSleeper_quiet s w r w' :
  removeSleeper s w = Some (r, w') → quiet w w'.
Proof.
  intros Hrm.
  destruct (removeSleeper_frame _ _ _ _ Hrm) as (_ & Hb & Ht & _ & _ & Hl & _).
  unfold quiet. by rewrite Hb, Ht.
Qed.

Lemma closes_fire_all (h : ptr → sleeper) (l : list ptr) :
  closes (flat_map (λ s, fire_events (h s)) l) = [].
Proof.
  induction l as [|x l IH]; [reflexivity|]. simpl.
  by rewrite closes_app, closes_fire_events, IH.
Qed.

Lemma Advance_quiet d w : clock_ok w → quiet w (Advance d w).
Proof.
  intros Hok. destruct (decide (d <= 0)%Z) as [Hd|Hd].
  { rewrite Advance_not_positive by done. apply quiet_refl. }
  destruct (Advance_offered d w) as [_ Hb _ Hs Ht _ _ _]; [lia|done|].
  unfold quiet. rewrite Hb, Ht, Hs, closes_app. simpl.
  split; [done|]. split.
  - by rewrite closes_fire_all, app_nil_r.
  - apply length_filter.
Qed.

(** Every call but [Until] signals just the blockers that the size of the
    registry it leaves satisfies. *)
Lemma exec_signalled o w w' :
  clock_ok w → op_ok o w → exec o w = Some w' → (∀ n, o ≠ OpUntil n) →
  signalled w w'.
Proof.
  intros Hok Hop Hex Hun. pose proof (ok_blockers w Hok) as Hb.
  destruct o as [d|d f|d|t|t|t d|d|k|k|k d|d|n]; simpl in *.
  - injection Hex as <-. unfold After, make_chan, new_sleeper. simpl.
    match goal with |- signalled _ (appendSleeper _ ?v) => set (w2 := v) end.
    apply (signalled_pre w w2); [by repeat split|].
    apply appendSleeper_signalled. by apply (blockers_ok_frame w w2).
  - injection Hex as <-. unfold AfterFunc, new_timer, new_sleeper. simpl.
    match goal with |- signalled _ (appendSleeper _ ?v) => set (w2 := v) end.
    apply (signalled_pre w w2); [by repeat split|].
    apply appendSleeper_signalled. by apply (blockers_ok_frame w w2).
  - injection Hex as <-. apply quiet_signalled; [done|]. by repeat split.
  - injection Hex as <-. unfold fakeTimer_C. simpl. case_bool_decide.
    + by apply appendSleeper_signalled.
    + apply quiet_signalled; [done|apply quiet_refl].
  - apply quiet_signalled; [done|]. revert Hex. unfold fakeTimer_Stop.
    destruct (tm_stopped (timers w t)).
    { intros [= <-]. by repeat split. }
    destruct (removeSleeper _ w) as [[[] w1]|] eqn:Hrm; [| |done];
      intros [= <-];
      (eapply quiet_trans; [by eapply removeSleeper_quiet|by repeat split]).
  - revert Hex. unfold fakeTimer_Reset, make_chan. simpl.
    match goal with
    | |- context [removeSleeper ?s ?v] =>
        destruct (removeSleeper s v) as [[r w2]|] eqn:Hrm; [|done];
        set (w1 := v) in Hrm
    end.
    intros [= <-].
    assert (quiet w w2) as Hq.
    { eapply (quiet_trans w w1); [by repeat split|].
      by eapply removeSleeper_quiet. }
    destruct (sl_f _); [|by apply quiet_signalled].
    apply (signalled_pre w w2); [done|]. apply appendSleeper_signalled.
    destruct Hq as (Hq1 & _ & Hq3). by apply (blockers_ok_frame w w2).
  - apply quiet_signalled; [done|]. revert Hex. unfold NewTicker.
    case_bool_decide; [done|]. intros [= <-]. by repeat split.
  - injection Hex as <-.
    destruct (tk_stopped (tickers w k)) eqn:Hst.
    { apply quiet_signalled; [done|]. unfold fakeTicker_C, make_chan. simpl.
      rewrite Hst. by repeat split. }
    rewrite fakeTicker_C_active by done. simpl.
    eapply (signalled_post w (appendSleeper (nheap w) (requested k w)));
      [|done..].
    apply (signalled_pre w (requested k w)); [by repeat split|].
    apply appendSleeper_signalled.
    by apply (blockers_ok_frame w (requested k w)).
  - apply quiet_signalled; [done|]. revert Hex. unfold fakeTicker_Stop.
    match goal with
    | |- context [removeSleeper ?s ?v] =>
        destruct (removeSleeper s v) as [[r w2]|] eqn:Hrm; [|done];
        set (w1 := v) in Hrm
    end.
    intros [= <-]. eapply (quiet_trans w w1); [by repeat split|].
    by eapply removeSleeper_quiet.
  - apply quiet_signalled; [done|]. revert Hex.
    unfold fakeTicker_Reset, fakeTicker_Stop.
    match goal with
    | |- context [removeSleeper ?s ?v] =>
        destruct (removeSleeper s v) as [[r w2]|] eqn:Hrm; [|done];
        set (w1 := v) in Hrm
    end.
    intros [= <-]. eapply (quiet_trans w w2); [|by repeat split].
    eapply (quiet_trans w w1); [by repeat split|].
    by eapply removeSleeper_quiet.
  - injection Hex as <-. apply quiet_signalled; [done|]. by apply Advance_quiet.
  - by destruct (Hun n).
Qed.

Lemma Until_spec n w :
  let len := length (sleepers (clock w)) in
  (Until n w).1 = nchan w ∧
  sleepers (clock (Until n w).2) = sleepers (clock w) ∧
  ((n <= Z.of_nat len)%Z →
     trace (Until n w).2 = trace w ++ [Close (nchan w)] ∧
     blockers (clock (Until n w).2) = blockers (clock w)) ∧
  ((Z.of_nat len < n)%Z →
     trace (Until n w).2 = trace w ∧
     blockers (clock (Until n w).2)
       = blockers (clock w) ++ [Blocker n (nchan w)]).
Proof.
  intros len. unfold Until, make_chan. simpl. fold len.
  case_bool_decide as Hn; simpl; (split; [done|]); (split; [done|]);
    split; intros Hn'; try lia; done.
Qed.

(** C7.  On a world that satisfies the invariant: [Until n] closes its new
    channel at once, storing nothing, when the registry holds at least [n]
    sleepers, and [BlockUntil n] returns; otherwise it stores a blocker with
    that channel, closing nothing, and [BlockUntil n] stays blocked.  Every
    stored blocker's threshold is above the registry's size and its channel
    has not been closed; no channel has been closed twice.  After any call,
    a blocker that was stored is still stored, its channel still open, when
    its threshold is above the new size; and when the new size reaches the
    threshold, the size is exactly the threshold, the blocker is off the
    list and its channel has been closed, once.  A removal stores and
    signals nothing, and a check of the blockers after it changes nothing. *)
Theorem C7_wait_for_count (w : world) (Hok : clock_ok w) :
  let len := length (sleepers (clock w)) in
  (∀ n, (n <= Z.of_nat len)%Z →
     (Until n w).1 = nchan w ∧
     trace (Until n w).2 = trace w ++ [Close (nchan w)] ∧
     (Close (nchan w) ∉ trace w) ∧
     blockers (clock (Until n w).2) = blockers (clock w) ∧
     BlockUntil n w = Some (Until n w).2) ∧
  (∀ n, (Z.of_nat len < n)%Z →
     (Until n w).1 = nchan w ∧
     trace (Until n w).2 = trace w ∧
     blockers (clock (Until n w).2)
       = blockers (clock w) ++ [Blocker n (nchan w)] ∧
     BlockUntil n w = None) ∧
  (∀ b, b ∈ blockers (clock w) →
     waiting len b ∧ (Close (bl_done b) ∉ trace w)) ∧
  NoDup (closes (trace w)) ∧
  (∀ o w' b, op_ok o w → exec o w = Some w' → b ∈ blockers (clock w) →
     let len' := length (sleepers (clock w')) in
     len' ≤ S len ∧
     NoDup (closes (trace w')) ∧
     (waiting len' b →
        b ∈ blockers (clock w') ∧ (Close (bl_done b) ∉ trace w')) ∧
     (satisfied len' b →
        bl_n b = Z.of_nat len' ∧ len' = S len ∧
        (b ∉ blockers (clock w')) ∧ Close (bl_done b) ∈ trace w')) ∧
  (∀ s r w', removeSleeper s w = Some (r, w') →
     blockers (clock w') = blockers (clock w) ∧ trace w' = trace w ∧
     checkBlockers w' = w').
Proof.
  intros len.
  pose proof (ok_blockers w Hok) as Hb.
  pose proof (ok_closes w Hok) as [Hc1 Hc2 Hc3 Hc4 Hc5].
  assert (Close (nchan w) ∉ trace w) as Hfresh.
  { rewrite <- elem_of_closes. intros Hin%Hc4. lia. }
  split; [|split; [|split; [|split; [done|split]]]].
  - intros n Hn. destruct (Until_spec n w) as (Hc & _ & Himm & _).
    destruct (Himm Hn) as [Htr Hbl]. fold len in Htr, Hbl.
    split; [done|]. split; [done|]. split; [done|]. split; [done|].
    unfold BlockUntil. destruct (Until n w) as [c w'] eqn:Hu. simpl in *.
    subst c. unfold closed. rewrite bool_decide_eq_true_2; [done|].
    rewrite Htr. apply elem_of_app. right. by left.
  - intros n Hn. destruct (Until_spec n w) as (Hc & _ & _ & Hstore).
    destruct (Hstore Hn) as [Htr Hbl].
    split; [done|]. split; [done|]. split; [done|].
    unfold BlockUntil. destruct (Until n w) as [c w'] eqn:Hu. simpl in *.
    subst c. unfold closed. rewrite bool_decide_eq_false_2; [done|].
    by rewrite Htr.
  - intros b Hin. split; [by apply Hb|].
    rewrite <- elem_of_closes. by apply Hc2.
  - intros o w' b Hop Hex Hin len'.
    pose proof (exec_Some_clock_ok o w w' Hok Hop Hex) as Hok'.
    pose proof (cl_once w' (ok_closes w' Hok')) as Honce.
    assert ((∃ n, o = OpUntil n) ∨ (∀ n, o ≠ OpUntil n)) as [[n ->]|Hnot].
    { destruct o; try (right; intros; discriminate). left. by eexists. }
    + simpl in Hex. injection Hex as <-.
      destruct (Until_spec n w) as (_ & Hsl & Himm & Hstore).
      assert (len' = len) as Hlen by (unfold len', len; by rewrite Hsl).
      rewrite Hlen. split; [lia|]. split; [done|]. split.
      * intros _. destruct (decide (n <= Z.of_nat len)%Z) as [Hn|Hn].
        -- destruct (Himm Hn) as [-> ->]. split; [done|].
           intros [Hold|Hnew%list_elem_of_singleton]%elem_of_app.
           ++ apply (Hc2 b Hin). by apply elem_of_closes.
           ++ injection Hnew as Heq. pose proof (Hc1 b Hin). lia.
        -- destruct Hstore as [-> ->]; [lia|]. split.
           ++ apply elem_of_app. by left.
           ++ rewrite <- elem_of_closes. by apply Hc2.
      * intros Hs. destruct Hs. by apply Hb.
    + destruct (exec_signalled o w w' Hok Hop Hex) as (Hbl & Hcl & Hle).
      { exact Hnot. }
      fold len' len in Hbl, Hcl, Hle.
      split; [done|]. split; [done|]. split.
      * intros Hw. split.
        -- rewrite Hbl. by apply list_elem_of_filter.
        -- rewrite <- elem_of_closes, Hcl.
           intros [Hold|Hnew]%elem_of_app; [by apply (Hc2 b)|].
           apply list_elem_of_fmap in Hnew
             as (b' & Heq & [Hsat Hin']%list_elem_of_filter).
           assert (b = b') as <-; [|by apply Hsat].
           apply list_elem_of_lookup_1 in Hin as (i & Hi).
           apply list_elem_of_lookup_1 in Hin' as (j & Hj).
           assert (i = j) as ->; [|congruence].
           eapply NoDup_lookup; [exact Hc3| |];
             rewrite list_lookup_fmap; [by rewrite Hi|by rewrite Hj, Heq].
      * intros Hs. pose proof (Hb b Hin) as Hw. unfold waiting in Hw.
        unfold satisfied, waiting in Hs. fold len in Hw.
        split; [lia|]. split; [lia|]. split.
        -- rewrite Hbl. intros [Hw' _]%list_elem_of_filter. by apply Hs.
        -- rewrite <- elem_of_closes, Hcl. apply elem_of_app. right.
           apply list_elem_of_fmap. exists b. split; [done|].
           by apply list_elem_of_filter.
  - intros s r w' Hrm.
    destruct (removeSleeper_frame _ _ _ _ Hrm) as (_ & Hbl & Htr & _).
    split; [done|]. split; [done|]. apply checkBlockers_waiting.
    by apply (removeSleeper_blockers_ok s w r w').
Qed.

Lemma C7_wait_for_count_witness :
  BlockUntil 2 two_sleepers_world = Some (Until 2 two_sleepers_world).2 ∧
  BlockUntil 4 two_sleepers_world = None ∧
  Close 2 ∈ trace (After second two_sleepers_world).2 ∧
  blockers (clock (After second two_sleepers_world).2) = [].
Proof.
  destruct (C7_wait_for_count two_sleepers_world two_sleepers_world_ok)
    as (Himm & Hstore & _ & _ & Hstep & _).
  destruct (Himm 2%Z) as (_ & _ & _ & _ & H2); [vm_compute; discriminate|].
  destruct (Hstore 4%Z) as (_ & _ & _ & H4); [vm_compute; reflexivity|].
  destruct (Hstep (OpAfter second) (After second two_sleepers_world).2
              (Blocker 3 2)) as (_ & _ & _ & Hsat).
  { exact I. }
  { reflexivity. }
  { replace (blockers (clock two_sleepers_world)) with [Blocker 3 2]
      by (vm_compute; reflexivity).
    by left. }
  destruct Hsat as (_ & _ & _ & Hclosed).
  { unfold satisfied, waiting. vm_compute. discriminate. }
  split; [exact H2|]. split; [exact H4|]. split; [exact Hclosed|].
  vm_compute. reflexivity.
Defined.

(** * Further properties of the fake clock *)

(** ** Panics *)

(** X1. Callbacks are function values that are not nil (see the modelling
    conventions): a nil callback given to [AfterFunc] makes [wake] crash at
    the [go] statement of the wrapper, and is outside this statement.  With
    that, a well-formed call on a world that a run of calls reaches panics
    exactly when it is [NewTicker] with an interval that is not positive: no
    removal ever indexes the registry out of range. *)
Theorem X1_only_NewTicker_panics (w : world) (o : op)
    (Hw : reachable w) (Hop : op_ok o w) :
  exec o w = None ↔ ∃ d, o = OpNewTicker d ∧ (d <= 0)%Z.
Proof.
  split.
  - intros Hex.
    assert ((∃ d, o = OpNewTicker d ∧ (d <= 0)%Z) ∨
            (∀ d, o = OpNewTicker d → (0 < d)%Z)) as [?|Hpos]; [|done|].
    { destruct o as [| | | | | |d| | | | |];
        try (right; intros; discriminate).
      destruct (decide (d <= 0)%Z); [left; by exists d|].
      right. intros d' [= <-]. lia. }
    destruct (exec_clock_ok o w (reachable_clock_ok w Hw) Hop Hpos)
      as (w' & Hex' & _).
    congruence.
  - intros (d & -> & Hd). simpl. unfold NewTicker.
    by rewrite bool_decide_eq_true_2.
Qed.

Lemma X1_only_NewTicker_panics_witness :
  exec (OpNewTicker 0%Z) two_timers_world = None ∧
  exec (OpTimerStop 0) two_timers_world ≠ None.
Proof.
  assert (reachable two_timers_world) as Hr.
  { apply world_after_reachable. vm_compute. eauto. }
  split.
  - apply (X1_only_NewTicker_panics two_timers_world (OpNewTicker 0%Z) Hr I).
    exists 0%Z. split; [reflexivity|lia].
  - intros Hex.
    apply (X1_only_NewTicker_panics two_timers_world (OpTimerStop 0) Hr) in Hex
      as (d & Hd & _); [discriminate|].
    vm_compute. lia.
Defined.

(** ** The instant *)

Lemma offer_all_at l : ∀ v, at_ (clock (offer_all l v)) = at_ (clock v).
Proof.
  induction l as [|s l IH]; intros v; [done|]. simpl.
  by rewrite IH, appendSleeper_at.
Qed.

Lemma removeSleeper_at s w r w' :
  removeSleeper s w = Some (r, w') → at_ (clock w') = at_ (clock w).
Proof. intros Hrm. by destruct (removeSleeper_frame _ _ _ _ Hrm) as (-> & _). Qed.

Lemma exec_at o w w' :
  exec o w = Some w' →
  at_ (clock w') =
  (at_ (clock w) + match o with OpAdvance d => Z.max d 0 | _ => 0 end)%Z.
Proof.
  destruct o as [d|d f|d|t|t|t d|d|k|k|k d|d|n]; simpl; rewrite ?Z.add_0_r.
  - intros [= <-]. unfold After, make_chan, new_sleeper. simpl.
    by rewrite appendSleeper_at.
  - intros [= <-]. unfold AfterFunc, new_timer, new_sleeper. simpl.
    by rewrite appendSleeper_at.
  - by intros [= <-].
  - intros [= <-]. unfold fakeTimer_C. simpl. case_bool_decide; [|done].
    by rewrite appendSleeper_at.
  - unfold fakeTimer_Stop. destruct (tm_stopped (timers w t)).
    { by intros [= <-]. }
    destruct (removeSleeper _ w) as [[[] w1]|] eqn:Hrm; [| |done];
      intros [= <-]; simpl; by rewrite (removeSleeper_at _ _ _ _ Hrm).
  - unfold fakeTimer_Reset, make_chan. simpl.
    match goal with
    | |- context [removeSleeper ?s ?v] =>
        destruct (removeSleeper s v) as [[r w1]|] eqn:Hrm; [|done]
    end.
    intros [= <-]. apply removeSleeper_at in Hrm. simpl in Hrm.
    destruct (sl_f _); [by rewrite appendSleeper_at|done].
  - unfold NewTicker. case_bool_decide; [done|]. by intros [= <-].
  - intros [= <-]. destruct (tk_stopped (tickers w k)) eqn:Hst.
    { unfold fakeTicker_C, make_chan. simpl. by rewrite Hst. }
    rewrite fakeTicker_C_active by done. simpl. by rewrite appendSleeper_at.
  - unfold fakeTicker_Stop.
    match goal with
    | |- context [removeSleeper ?s ?v] =>
        destruct (removeSleeper s v) as [[r w1]|] eqn:Hrm; [|done]
    end.
    intros [= <-]. by rewrite (removeSleeper_at _ _ _ _ Hrm).
  - unfold fakeTicker_Reset, fakeTicker_Stop.
    match goal with
    | |- context [removeSleeper ?s ?v] =>
        destruct (removeSleeper s v) as [[r w1]|] eqn:Hrm; [|done]
    end.
    intros [= <-]. simpl. by rewrite (removeSleeper_at _ _ _ _ Hrm).
  - intros [= <-]. unfold Advance. case_bool_decide.
    + lia.
    + rewrite checkSleepers_offer, offer_all_at. simpl. unfold Time_Add. lia.
  - intros [= <-]. unfold Until, make_chan. simpl. by case_bool_decide.
Qed.

(** X2. The clock's instant never goes back, and only [Advance] moves it:
    after a run of calls the instant is the instant before plus the positive
    durations of the run's [Advance] calls. *)
Theorem X2_instant_after_run (os : list op) (w w' : world)
    (Hrun : run os w = Some w') :
  Now w' = (Now w + elapsed os)%Z ∧ (Now w <= Now w')%Z.
Proof.
  assert (∀ os', (0 <= elapsed os')%Z) as Hpos.
  { induction os' as [|o os' IH]; simpl; [lia|]. destruct o; lia. }
  assert (Now w' = (Now w + elapsed os)%Z) as Heq.
  { revert w Hrun. induction os as [|o os IH]; intros w; simpl.
    - intros [= <-]. lia.
    - case_decide; [|done]. destruct (exec o w) as [w1|] eqn:Hex; [|done].
      intros Hrun. rewrite (IH w1 Hrun). unfold Now.
      rewrite (exec_at o w w1 Hex). destruct o; lia. }
  split; [done|]. rewrite Heq. pose proof (Hpos os). lia.
Qed.

Lemma X2_instant_after_run_witness :
  Now (world_after [OpAfter second; OpAdvance (-5)%Z; OpAdvance second;
                    OpUntil 1%Z; OpAdvance (2 * second)%Z])
  = (4 * second)%Z.
Proof.
  destruct (X2_instant_after_run
              [OpAfter second; OpAdvance (-5)%Z; OpAdvance second;
               OpUntil 1%Z; OpAdvance (2 * second)%Z]
              NewFakeClock
              (world_after [OpAfter second; OpAdvance (-5)%Z; OpAdvance second;
                            OpUntil 1%Z; OpAdvance (2 * second)%Z]))
    as [Heq _].
  { vm_compute. reflexivity. }
  rewrite Heq. vm_compute. reflexivity.
Defined.

(** ** Channels *)

Lemma sent_on_length c tr : NoDup (sends tr) → length (sent_on c tr) ≤ 1.
Proof.
  induction tr as [|e tr IH]; [by intros; vm_compute; lia|].
  change (e :: tr) with ([e] ++ tr). rewrite sends_app, sent_on_app.
  intros (_ & Hdisj & Hnd)%list.NoDup_app. rewrite length_app.
  destruct e as [c' t|f|c']; try (by apply IH).
  destruct (decide (c' = c)) as [->|Hne].
  - rewrite (sent_on_unsent c tr); [|apply Hdisj; by left].
    unfold sent_on. simpl. rewrite bool_decide_eq_true_2 by done. simpl. lia.
  - replace (sent_on c [Send c' t]) with (@nil time); [by apply IH|].
    unfold sent_on. simpl. by rewrite bool_decide_eq_false_2.
Qed.

(** X3. In every world a run of calls reaches, at most one value has been
    sent on any channel, so that the channels' buffer of capacity one never
    makes a wake (and with it [Advance]) wait for a receiver; and no channel
    has been closed twice, so that no close panics. *)
Theorem X3_one_send_per_channel (w : world) (c : chan) (Hw : reachable w) :
  length (sent c w) ≤ 1 ∧ NoDup (sends (trace w)) ∧ NoDup (closes (trace w)).
Proof.
  pose proof (reachable_clock_ok w Hw) as Hok.
  pose proof (sn_once w (ok_sends w Hok)) as Hnd.
  split; [by apply sent_on_length|]. split; [done|].
  apply (cl_once w (ok_closes w Hok)).
Qed.

Lemma X3_one_send_per_channel_witness :
  length (sent 0 (world_after [OpAfter second; OpAdvance (5 * second)%Z])) ≤ 1.
Proof.
  apply (X3_one_send_per_channel
           (world_after [OpAfter second; OpAdvance (5 * second)%Z]) 0).
  apply world_after_reachable. vm_compute. eauto.
Defined.

(** ** Pending sleepers are in the future *)

Lemma future_ok_frame w w' :
  future_ok w →
  (∀ p, pending p w' →
        pending p w ∧ sl_until (heap w' p) = sl_until (heap w p)) →
  at_ (clock w') = at_ (clock w) →
  future_ok w'.
Proof.
  intros Hf Hp Hat p Hin. destruct (Hp p Hin) as [Hin' ->]. rewrite Hat.
  by apply Hf.
Qed.

Lemma appendSleeper_future s v : future_ok v → future_ok (appendSleeper s v).
Proof.
  intros Hf p. rewrite appendSleeper_pending, appendSleeper_at.
  destruct (appendSleeper_same_but_i s v p) as (-> & _).
  intros [Hp|[-> Hd]]; [by apply Hf|]. unfold due in Hd. lia.
Qed.

Lemma removeSleeper_future s w r w' :
  future_ok w → removeSleeper s w = Some (r, w') → future_ok w'.
Proof.
  intros Hf Hrm. apply (future_ok_frame w w'); [done| |].
  - intros p Hp. split; [by eapply removeSleeper_pending_subset|].
    destruct (removeSleeper_frame _ _ _ _ Hrm) as (_ & _ & _ & _ & Hsb & _).
    by destruct (Hsb p) as (-> & _).
  - by eapply removeSleeper_at.
Qed.

(** A new sleeper, at an address no pending sleeper has. *)
Lemma future_ok_alloc w w' :
  future_ok w → registry_ok w →
  clock w' = clock w →
  (∀ p, p ≠ nheap w → heap w' p = heap w p) →
  future_ok w'.
Proof.
  intros Hf Hr Hc Hh. apply (future_ok_frame w w'); [done| |by rewrite Hc].
  intros p. unfold pending. rewrite Hc. intros Hp. split; [done|].
  rewrite Hh; [done|]. pose proof (reg_alloc w Hr p Hp). lia.
Qed.

Lemma exec_future o w w' :
  clock_ok w → future_ok w → op_ok o w → exec o w = Some w' → future_ok w'.
Proof.
  intros Hok Hf Hop. pose proof (ok_registry w Hok) as Hr.
  destruct o as [d|d f|d|t|t|t d|d|k|k|k d|d|n]; simpl in *.
  - intros [= <-]. unfold After, make_chan, new_sleeper. simpl.
    apply appendSleeper_future.
    apply (future_ok_alloc w); [done|done|done|].
    intros p Hp. simpl. by rewrite fn_lookup_insert_ne.
  - intros [= <-]. unfold AfterFunc, new_timer, new_sleeper. simpl.
    apply appendSleeper_future.
    apply (future_ok_alloc w); [done|done|done|].
    intros p Hp. simpl. by rewrite fn_lookup_insert_ne.
  - intros [= <-]. unfold NewTimer, new_timer, new_sleeper, make_chan. simpl.
    apply (future_ok_alloc w); [done|done|done|].
    intros p Hp. simpl. by rewrite fn_lookup_insert_ne.
  - intros [= <-]. unfold fakeTimer_C. simpl. case_bool_decide; [|done].
    by apply appendSleeper_future.
  - unfold fakeTimer_Stop. destruct (tm_stopped (timers w t)).
    { intros [= <-]. by apply (future_ok_frame w). }
    destruct (removeSleeper _ w) as [[[] w1]|] eqn:Hrm; [| |done];
      intros [= <-];
      (apply (future_ok_frame w1); [by eapply removeSleeper_future|done|done]).
  - unfold fakeTimer_Reset, make_chan. simpl.
    set (s := tm_sleeper (timers w t)).
    pose proof (ow_timers w (ok_owners w Hok) t Hop) as Hs. fold s in Hs.
    match goal with
    | |- context [removeSleeper s ?v] => set (w1 := v)
    end.
    assert (∀ p, p ≠ s → heap w1 p = heap w p) as Hh.
    { intros p Hp. unfold w1, upd_sleeper; simpl.
      by rewrite !fn_lookup_insert_ne. }
    assert (sl_i (heap w1 s) = sl_i (heap w s)) as Hi.
    { unfold w1, upd_sleeper; simpl. by rewrite !fn_lookup_insert. }
    assert (registry_ok w1) as Hr1.
    { apply (registry_ok_frame w w1); [done|done|done|]. intros p.
      destruct (decide (p = s)) as [->|Hne]; [done|by rewrite Hh]. }
    destruct (removeSleeper_registry_ok s w1 Hr1 Hs) as (w2 & Hrm & Hr2 & Hp).
    rewrite Hrm. intros [= <-].
    assert (future_ok w2) as Hf2.
    { apply (future_ok_frame w w2); [done| |].
      - intros p [Hin Hne]%Hp. split; [done|].
        destruct (removeSleeper_frame _ _ _ _ Hrm) as (_ & _ & _ & _ & Hsb & _).
        destruct (Hsb p) as (-> & _). by rewrite Hh.
      - by rewrite (removeSleeper_at _ _ _ _ Hrm). }
    destruct (sl_f _); [by apply appendSleeper_future|done].
  - unfold NewTicker. case_bool_decide; [done|]. intros [= <-].
    unfold new_ticker, new_sleeper. simpl.
    apply (future_ok_alloc w); [done|done|done|].
    intros p Hp. simpl. by rewrite fn_lookup_insert_ne.
  - intros [= <-]. destruct (tk_stopped (tickers w k)) eqn:Hst.
    { unfold fakeTicker_C, make_chan. simpl. rewrite Hst.
      by apply (future_ok_frame w). }
    rewrite fakeTicker_C_active by done. simpl.
    apply (future_ok_frame (appendSleeper (nheap w) (requested k w)));
      [|done|done].
    apply appendSleeper_future.
    apply (future_ok_alloc w); [done|done|done|].
    intros p Hp. unfold requested. simpl. by rewrite fn_lookup_insert_ne.
  - unfold fakeTicker_Stop.
    match goal with
    | |- context [removeSleeper ?s ?v] =>
        destruct (removeSleeper s v) as [[r w1]|] eqn:Hrm; [|done]
    end.
    intros [= <-]. eapply removeSleeper_future; [|exact Hrm].
    by apply (future_ok_frame w).
  - intros Hex.
    destruct (fakeTicker_Stop_clock_ok k w Hok Hop)
      as (w2 & Hstop & Hok2 & Hnk & Hsl & Hnp).
    assert (future_ok w2) as Hf2.
    { revert Hstop. unfold fakeTicker_Stop.
      match goal with
      | |- context [removeSleeper ?s ?v] =>
          destruct (removeSleeper s v) as [[r w1]|] eqn:Hrm; [|done]
      end.
      intros [= <-]. eapply removeSleeper_future; [|exact Hrm].
      by apply (future_ok_frame w). }
    revert Hex. unfold fakeTicker_Reset. rewrite Hstop. intros [= <-].
    match goal with
    | |- future_ok (upd_sleeper ?s _ ?v) => set (s4 := s); set (w4 := v)
    end.
    assert (s4 = tk_sleeper (tickers w k)) as Hs4.
    { unfold s4, w4, upd_ticker. simpl. rewrite !fn_lookup_insert. simpl.
      done. }
    apply (future_ok_frame w2); [done| |done].
    intros p Hp. split; [done|]. unfold upd_sleeper. simpl.
    rewrite fn_lookup_insert_ne; [done|]. intros <-. apply Hnp.
    by rewrite <- Hs4.
  - intros [= <-]. destruct (decide (d <= 0)%Z) as [Hd|Hd].
    { by rewrite Advance_not_positive. }
    destruct (Advance_offered d w) as [Hat _ _ Hsl _ _ _ Hkept]; [lia|done|].
    intros p. unfold pending. rewrite Hsl, Hat. simpl.
    intros [Hnd Hin]%list_elem_of_filter.
    destruct (Hkept p Hin Hnd) as (-> & _). unfold due in Hnd. simpl in *.
    unfold Time_Add in *. lia.
  - intros [= <-]. unfold Until, make_chan. simpl.
    case_bool_decide; by apply (future_ok_frame w).
Qed.

Lemma reachable_future w : reachable w → future_ok w.
Proof.
  induction 1 as [t|w o w' Hw IH Hop Hex].
  - intros p Hp. by apply elem_of_nil in Hp.
  - eapply exec_future; [by apply reachable_clock_ok|done|done|done].
Qed.

(** X4. In every world a run of calls reaches, the deadline of every pending
    sleeper is strictly after the clock's instant: no call leaves a sleeper
    that is due in the registry. *)
Theorem X4_pending_is_future (w : world) (s : ptr)
    (Hw : reachable w) (Hs : pending s w) :
  (Now w < sl_until (heap w s))%Z ∧ sl_woke (heap w s) = false.
Proof.
  split; [by apply reachable_future|].
  by apply (ow_asleep w (ok_owners w (reachable_clock_ok w Hw))).
Qed.

Lemma X4_pending_is_future_witness :
  (Now (world_after [OpAfter second; OpAfter (3 * second)%Z;
                     OpAdvance (2 * second)%Z])
   < sl_until (heap (world_after [OpAfter second; OpAfter (3 * second)%Z;
                                  OpAdvance (2 * second)%Z]) 1%nat))%Z.
Proof.
  apply (X4_pending_is_future
           (world_after [OpAfter second; OpAfter (3 * second)%Z;
                         OpAdvance (2 * second)%Z]) 1).
  - apply world_after_reachable. vm_compute. eauto.
  - unfold pending.
    replace (sleepers (clock (world_after [OpAfter second;
                                           OpAfter (3 * second)%Z;
                                           OpAdvance (2 * second)%Z])))
      with [1] by (vm_compute; reflexivity).
    by left.
Defined.

(** ** After and Sleep with a positive duration *)

Lemma After_positive d w :
  (0 < d)%Z →
  (After d w).1 = nchan w ∧
  sleepers (clock (After d w).2) = sleepers (clock w) ++ [nheap w] ∧
  at_ (clock (After d w).2) = at_ (clock w) ∧
  heap (After d w).2 (nheap w)
    = Sleeper (Z.of_nat (length (sleepers (clock w))))
              (at_ (clock w) + d)%Z false (Some (nchan w)) None.
Proof.
  intros Hd. unfold After, make_chan, new_sleeper. simpl.
  rewrite bool_decide_eq_false_2 by lia.
  match goal with |- context [appendSleeper _ ?v] => set (w2 := v) end.
  assert (heap w2 (nheap w)
          = Sleeper 0 (at_ (clock w) + d)%Z false (Some (nchan w)) None)
    as Hnew.
  { unfold w2; simpl. by rewrite fn_lookup_insert. }
  assert (¬ due (nheap w) w2) as Hnd.
  { unfold due. rewrite Hnew. simpl. lia. }
  split; [done|].
  rewrite appendSleeper_sleepers, appendSleeper_at, appendSleeper_heap.
  rewrite (decide_True (P := nheap w = nheap w)) by done.
  rewrite !(decide_False (P := due (nheap w) w2)) by done.
  by rewrite Hnew.
Qed.

(** X5. [After] with a positive duration, on a world that satisfies the
    invariant, appends one sleeper and sends nothing, so that [Sleep] with
    that duration stays blocked.  A following [Advance] by less than the
    duration still sends nothing on the channel and leaves the sleeper
    pending; an [Advance] by at least the duration delivers on the channel
    exactly the instant of the call plus the duration, and the sleeper is
    pending no more. *)
Theorem X5_after_delivers_at_deadline (w : world) (d e : duration)
    (Hok : clock_ok w) (Hd : (0 < d)%Z) :
  let c := (After d w).1 in
  let w1 := (After d w).2 in
  sleepers (clock w1) = sleepers (clock w) ++ [nheap w] ∧
  sent c w1 = [] ∧
  Sleep d w = None ∧
  ((e < d)%Z →
     sent c (Advance e w1) = [] ∧ pending (nheap w) (Advance e w1)) ∧
  ((d <= e)%Z →
     sent c (Advance e w1) = [(Now w + d)%Z] ∧
     ¬ pending (nheap w) (Advance e w1)).
Proof.
  intros c w1.
  destruct (After_positive d w Hd) as (Hc & Hsl & Hat & Hnew).
  fold c in Hc. fold w1 in Hsl, Hat, Hnew.
  pose proof (After_clock_ok d w Hok) as Hok1. fold w1 in Hok1.
  assert (pending (nheap w) w1) as Hp.
  { unfold pending. rewrite Hsl. apply elem_of_app. right. by left. }
  assert (sent c w1 = []) as Hsent.
  { apply sent_unsent.
    apply (sn_unsent w1 (ok_sends w1 Hok1) (nheap w));
      [by apply (reg_alloc w1 (ok_registry w1 Hok1))| |]; by rewrite Hnew, ?Hc. }
  split; [done|]. split; [done|]. split.
  { unfold Sleep. destruct (After d w) as [c' w'] eqn:Haft. simpl in *.
    subst c w1. by rewrite Hsent. }
  destruct (Advance_spec w1 e Hok1) as [Hnop Hadv].
  split.
  - intros He. destruct (decide (e <= 0)%Z) as [Hz|Hz].
    { by rewrite Hnop. }
    destruct Hadv as (_ & _ & _ & _ & _ & _ & _ & Hkept & _); [lia|].
    destruct (Hkept (nheap w) Hp) as (Hp' & _ & _ & Hs).
    { rewrite Hnew, Hat. simpl. lia. }
    split; [|done]. apply Hs. by rewrite Hnew, Hc.
  - intros He. destruct Hadv as (_ & _ & _ & _ & _ & _ & Hdue & _); [lia|].
    destruct (Hdue (nheap w) Hp) as (_ & _ & Hnp & Hs).
    { rewrite Hnew, Hat. simpl. lia. }
    split; [|done]. rewrite (Hs c); [|by rewrite Hnew, Hc].
    by rewrite Hnew.
Qed.

Lemma X5_after_delivers_at_deadline_witness :
  Sleep second NewFakeClock = None ∧
  sent 0 (Advance second (After second NewFakeClock).2) = [(2 * second)%Z].
Proof.
  destruct (X5_after_delivers_at_deadline NewFakeClock second second)
    as (_ & _ & Hsleep & _ & Hfire).
  { apply NewFakeClockAt_clock_ok. }
  { unfold second. lia. }
  destruct Hfire as [Hsent _]; [lia|].
  split; [exact Hsleep|]. vm_compute in Hsent. vm_compute. exact Hsent.
Defined.

(** ** Timers register on request *)

Lemma fakeTimer_C_again t w :
  let r := fakeTimer_C t w in
  (fakeTimer_C t r.2).1 = r.1 ∧
  clock (fakeTimer_C t r.2).2 = clock r.2 ∧
  trace (fakeTimer_C t r.2).2 = trace r.2.
Proof.
  intros r. unfold r, fakeTimer_C. simpl.
  set (s := tm_sleeper (timers w t)).
  assert (∀ v, tm_sleeper (timers (appendSleeper s v) t)
               = tm_sleeper (timers v t)) as Htm.
  { intros v. destruct (appendSleeper_alloc s v) as (_ & -> & _). done. }
  destruct (decide (sl_i (heap w s) < 0)%Z) as [Hi|Hi].
  - rewrite (bool_decide_eq_true_2 _ Hi). rewrite Htm. fold s.
    destruct (decide (due s w)) as [Hd|Hd].
    + assert (sl_i (heap (appendSleeper s w) s) = (-1)%Z) as Hi'.
      { rewrite appendSleeper_heap. by rewrite !decide_True. }
      assert (sl_woke (heap (appendSleeper s w) s) = true) as Hw'.
      { rewrite appendSleeper_heap. by rewrite !decide_True. }
      rewrite bool_decide_eq_true_2 by lia.
      assert (due s (appendSleeper s w)) as Hd'
        by (by apply appendSleeper_due_iff).
      split; [|split].
      * by destruct (appendSleeper_same_but_i s (appendSleeper s w) s)
          as (_ & -> & _).
      * rewrite (appendSleeper_due s (appendSleeper s w)) by done.
        by rewrite wake_clock.
      * rewrite appendSleeper_trace. rewrite decide_True by done.
        unfold fire_events. by rewrite Hw', app_nil_r.
    + assert (sl_i (heap (appendSleeper s w) s)
              = Z.of_nat (length (sleepers (clock w)))) as Hi'.
      { rewrite appendSleeper_heap. rewrite decide_True by done.
        by rewrite decide_False. }
      by rewrite bool_decide_eq_false_2 by lia.
  - rewrite (bool_decide_eq_false_2 _ Hi). fold s.
    by rewrite (bool_decide_eq_false_2 _ Hi).
Qed.

(** X6. [NewTimer] registers nothing: the clock's registry, blockers and
    trace stay as they were, so that a timer whose channel was not requested
    does not count for [Until].  The first request for the channel offers
    the sleeper: for a positive duration it is appended to the registry; for
    a duration that is not positive it fires at once, and the value sent is
    the instant plus the duration as given (a negative duration is not
    clamped here).  A request repeated at once returns the same channel and
    changes neither the clock nor the trace. *)
Theorem X6_timer_registers_on_request (w : world) (d : duration)
    (Hok : clock_ok w) :
  let t := (NewTimer d w).1 in
  let w1 := (NewTimer d w).2 in
  let r := fakeTimer_C t w1 in
  t = ntimers w ∧ clock w1 = clock w ∧ trace w1 = trace w ∧
  r.1 = Some (nchan w) ∧
  ((0 < d)%Z →
     sleepers (clock r.2) = sleepers (clock w) ++ [nheap w] ∧
     sent (nchan w) r.2 = []) ∧
  ((d <= 0)%Z →
     clock r.2 = clock w ∧ sent (nchan w) r.2 = [(Now w + d)%Z]) ∧
  (fakeTimer_C t r.2).1 = r.1 ∧
  clock (fakeTimer_C t r.2).2 = clock r.2 ∧
  trace (fakeTimer_C t r.2).2 = trace r.2.
Proof.
  intros t w1 r.
  destruct (fakeTimer_C_again t w1) as (Ha1 & Ha2 & Ha3). fold r in Ha1, Ha2, Ha3.
  split; [done|]. split; [done|]. split; [done|].
  assert (tm_sleeper (timers w1 t) = nheap w) as Hs.
  { unfold w1, t, NewTimer, new_timer, new_sleeper, make_chan. simpl.
    by rewrite fn_lookup_insert. }
  assert (heap w1 (nheap w)
          = Sleeper (-1) (Now w + d)%Z false (Some (nchan w)) None) as Hnew.
  { unfold w1, NewTimer, new_timer, new_sleeper, make_chan. simpl.
    by rewrite fn_lookup_insert. }
  assert (r = (sl_c (heap (appendSleeper (nheap w) w1) (nheap w)),
               appendSleeper (nheap w) w1)) as Hr.
  { unfold r, fakeTimer_C. rewrite Hs, Hnew. simpl. done. }
  assert (sent (nchan w) w1 = []) as Hfresh.
  { apply sent_unsent. intros Hin%(sn_alloc w (ok_sends w Hok)). lia. }
  assert (due (nheap w) w1 ↔ (d <= 0)%Z) as Hdue.
  { unfold due. rewrite Hnew. unfold Now. simpl. lia. }
  rewrite Hr. simpl.
  destruct (appendSleeper_same_but_i (nheap w) w1 (nheap w)) as (_ & Hc & _).
  rewrite Hnew in Hc. simpl in Hc.
  split; [done|]. split; [|split; [|by rewrite Hr in Ha1, Ha2, Ha3]].
  - intros Hd. assert (¬ due (nheap w) w1) as Hnd by (rewrite Hdue; lia).
    rewrite appendSleeper_sleepers. rewrite decide_False by done.
    split; [done|]. unfold sent. rewrite appendSleeper_trace.
    rewrite decide_False by done. rewrite sent_on_app.
    unfold sent in Hfresh. rewrite Hfresh. simpl.
    apply sent_on_unsent. rewrite sends_map_Close. apply not_elem_of_nil.
  - intros Hd. assert (due (nheap w) w1) as Hdd by (by apply Hdue).
    rewrite (appendSleeper_due _ _ Hdd), wake_clock. split; [done|].
    unfold sent in *. rewrite wake_trace, sent_on_app.
    change (trace (upd_sleeper (nheap w) (set_i (-1)) w1)) with (trace w1).
    rewrite Hfresh. unfold upd_sleeper. cbn [heap].
    rewrite fn_lookup_insert, sent_on_fire_events, Hnew. simpl.
    by rewrite bool_decide_eq_true_2.
Qed.

Lemma X6_timer_registers_on_request_witness :
  sleepers (clock (fakeTimer_C 0 (NewTimer second NewFakeClock).2).2) = [0] ∧
  sent 0 (fakeTimer_C 0 (NewTimer (-1)%Z NewFakeClock).2).2
  = [(second - 1)%Z].
Proof.
  destruct (X6_timer_registers_on_request NewFakeClock second
              (NewFakeClockAt_clock_ok _))
    as (_ & _ & _ & _ & Hpos & _).
  destruct (X6_timer_registers_on_request NewFakeClock (-1)%Z
              (NewFakeClockAt_clock_ok _))
    as (_ & _ & _ & _ & _ & Hneg & _).
  destruct Hpos as [H1 _]; [unfold second; lia|].
  destruct Hneg as [_ H2]; [lia|].
  split; [exact H1|exact H2].
Defined.

(** ** Callbacks *)

Lemma starts_app tr tr' : starts (tr ++ tr') = starts tr ++ starts tr'.
Proof. unfold starts. apply omap_app. Qed.

Lemma starts_map_Close (bs : list blocker) :
  starts (map (λ b, Close (bl_done b)) bs) = [].
Proof. induction bs as [|b bs IH]; [done|]. simpl. done. Qed.

Lemma AfterFunc_spec d f w :
  let s := nheap w in
  let w0 := (new_timer (FakeTimer false s)
               (new_sleeper (Sleeper 0 (at_ (clock w) + d)%Z false None
                                     (Some f)) w).2).2 in
  AfterFunc d f w = (ntimers w, appendSleeper s w0) ∧
  heap w0 s = Sleeper 0 (at_ (clock w) + d)%Z false None (Some f) ∧
  (∀ p, p ≠ s → heap w0 p = heap w p) ∧
  clock w0 = clock w ∧ trace w0 = trace w ∧
  (due s w0 ↔ (d <= 0)%Z).
Proof.
  intros s w0.
  assert (heap w0 s = Sleeper 0 (at_ (clock w) + d)%Z false None (Some f))
    as Hnew.
  { unfold w0, new_timer, new_sleeper. simpl. by rewrite fn_lookup_insert. }
  split; [done|]. split; [done|]. split.
  { intros p Hp. unfold w0, new_timer, new_sleeper. simpl.
    by rewrite fn_lookup_insert_ne. }
  split; [done|]. split; [done|].
  unfold due. rewrite Hnew. simpl.
  change (at_ (clock w0)) with (at_ (clock w)). lia.
Qed.

(** X7. [AfterFunc] returns a new timer whose channel is nil.  With a
    duration that is not positive it starts the callback in a goroutine at
    once and registers nothing.  With a positive duration it appends one
    sleeper to the registry and starts no callback; a following [Advance]
    then starts the callbacks it would have started without the call and,
    after them, this one exactly when it covers the duration. *)
Theorem X7_afterfunc_starts_at_deadline (w : world) (d e : duration)
    (f : func) (Hok : clock_ok w) :
  let t := (AfterFunc d f w).1 in
  let w1 := (AfterFunc d f w).2 in
  t = ntimers w ∧ (fakeTimer_C t w1).1 = None ∧
  ((d <= 0)%Z → clock w1 = clock w ∧ trace w1 = trace w ++ [Go f]) ∧
  ((0 < d)%Z →
     sleepers (clock w1) = sleepers (clock w) ++ [nheap w] ∧
     starts (trace w1) = starts (trace w) ∧
     starts (trace (Advance e w1))
     = starts (trace (Advance e w)) ++ if decide (d <= e)%Z then [f] else []).
Proof.
  intros t w1.
  pose proof (AfterFunc_clock_ok d f w Hok) as Hok1. fold w1 in Hok1.
  destruct (AfterFunc_spec d f w) as (Heq & Hnew & Hh & Hc & Htr & Hdue).
  set (s := nheap w) in *.
  match type of Heq with _ = (_, appendSleeper _ ?v) => set (w0 := v) in * end.
  assert (w1 = appendSleeper s w0) as Hw1 by (unfold w1; by rewrite Heq).
  assert (tm_sleeper (timers w1 t) = s) as Hts.
  { rewrite Hw1. destruct (appendSleeper_alloc s w0) as (_ & -> & _).
    unfold t. rewrite Heq. simpl. by rewrite fn_lookup_insert. }
  assert (∀ p, p ≠ s → heap w1 p = heap w p) as Hh1.
  { intros p Hp. rewrite Hw1, appendSleeper_heap_ne by done. by apply Hh. }
  split; [unfold t; by rewrite Heq|]. split.
  { unfold fakeTimer_C. simpl. rewrite Hts.
    assert (∀ v, sl_c (heap v s) = None →
                 sl_c (heap (appendSleeper s v) s) = None) as Hap.
    { intros v Hv.
      by destruct (appendSleeper_same_but_i s v s) as (_ & -> & _). }
    assert (sl_c (heap w1 s) = None) as Hc1.
    { rewrite Hw1. apply Hap. by rewrite Hnew. }
    case_bool_decide; [by apply Hap|done]. }
  split.
  - intros Hd. assert (due s w0) as Hd0 by (by apply Hdue).
    rewrite Hw1. rewrite (appendSleeper_due _ _ Hd0), wake_clock, wake_trace.
    split; [done|]. unfold upd_sleeper. cbn [heap trace].
    rewrite fn_lookup_insert. unfold fire_events. by rewrite Hnew.
  - intros Hd. assert (¬ due s w0) as Hnd by (rewrite Hdue; lia).
    assert (sleepers (clock w1) = sleepers (clock w) ++ [s]) as Hsl.
    { rewrite Hw1, appendSleeper_sleepers. by rewrite decide_False. }
    assert (starts (trace w1) = starts (trace w)) as Hst.
    { rewrite Hw1, appendSleeper_trace. rewrite decide_False by done.
      by rewrite starts_app, starts_map_Close, app_nil_r, Htr. }
    split; [done|]. split; [done|].
    destruct (decide (e <= 0)%Z) as [He|He].
    { rewrite !Advance_not_positive by done. rewrite decide_False by lia.
      by rewrite app_nil_r. }
    destruct (Advance_spec w1 e Hok1) as [_ H1].
    destruct (Advance_spec w e Hok) as [_ H0].
    destruct H1 as (_ & _ & _ & _ & _ & -> & _); [lia|].
    destruct H0 as (_ & _ & _ & _ & _ & -> & _); [lia|].
    assert (at_ (clock w1) = at_ (clock w)) as Hat.
    { by rewrite Hw1, appendSleeper_at, Hc. }
    assert (s ∉ sleepers (clock w)) as Hfresh.
    { intros Hin. pose proof (reg_alloc w (ok_registry w Hok) s Hin).
      unfold s in *. lia. }
    assert (heap w1 s = Sleeper (Z.of_nat (length (sleepers (clock w0))))
                          (at_ (clock w) + d)%Z false None (Some f)) as Hs1.
    { rewrite Hw1, appendSleeper_heap. rewrite decide_True by done.
      rewrite decide_False by done. by rewrite Hnew. }
    rewrite Hsl, Hat, list.filter_app, flat_map_app, !starts_app, Hst.
    rewrite <- app_assoc. f_equal. f_equal.
    + f_equal. rewrite (filter_ext_in _
        (λ p, (sl_until (heap w p) <= at_ (clock w) + e)%Z)).
      * apply flat_map_ext_in. intros p [_ Hp]%list_elem_of_filter.
        rewrite Hh1; [done|]. by intros ->.
      * intros p Hp. rewrite Hh1; [done|]. by intros ->.
    + rewrite list.filter_cons, list.filter_nil. rewrite Hs1. simpl.
      destruct (decide (d <= e)%Z) as [Hde|Hde].
      * rewrite decide_True by lia. simpl. unfold fire_events.
        by rewrite Hs1.
      * by rewrite decide_False by lia.
Qed.

Lemma X7_afterfunc_starts_at_deadline_witness :
  starts (trace (Advance (3 * second)%Z
                   (AfterFunc (2 * second)%Z 7 NewFakeClock).2)) = [7].
Proof.
  destruct (X7_afterfunc_starts_at_deadline NewFakeClock (2 * second)%Z
              (3 * second)%Z 7 (NewFakeClockAt_clock_ok _))
    as (_ & _ & _ & Hpos).
  destruct Hpos as (_ & _ & H); [unfold second; lia|].
  vm_compute in H. vm_compute. exact H.
Defined.

(** ** Calls leave the sleepers of other owners alone *)

Lemma removeSleeper_heap_idle s w r w' p :
  removeSleeper s w = Some (r, w') → p ≠ s → ¬ pending p w →
  heap w' p = heap w p.
Proof.
  intros [(-> & -> & _)|(-> & Hi & last & Hl & Hs & ->)]%removeSleeper_Some
    Hne Hp; [done|].
  rewrite removed_heap. rewrite decide_False by done.
  rewrite decide_False; [done|]. intros ->. apply Hp.
  by eapply list_elem_of_lookup_2.
Qed.

(** A call that is not made on the owner of a sleeper outside the registry
    leaves that sleeper as it is, and outside the registry. *)
Lemma exec_idle o w w' s :
  clock_ok w → op_ok o w → exec o w = Some w' →
  s < nheap w → ¬ pending s w → addressed o w ≠ Some s →
  heap w' s = heap w s ∧ ¬ pending s w'.
Proof.
  intros Hok Hop Hex Hs Hp Hadr.
  assert (∀ v, sleepers (clock v) = sleepers (clock w) → ¬ pending s v)
    as Hpc.
  { intros v Hv. unfold pending. by rewrite Hv. }
  assert (∀ s' v, s' ≠ s → heap v s = heap w s → ¬ pending s v →
            heap (appendSleeper s' v) s = heap w s ∧
            ¬ pending s (appendSleeper s' v)) as Hap.
  { intros s' v Hne Hh Hpv. split.
    - by rewrite appendSleeper_heap_ne.
    - rewrite appendSleeper_pending. intros [?|[-> _]]; done. }
  assert (∀ s' v r v', s' ≠ s → heap v s = heap w s → ¬ pending s v →
            removeSleeper s' v = Some (r, v') →
            heap v' s = heap w s ∧ ¬ pending s v') as Hrm.
  { intros s' v r v' Hne Hh Hpv Hr. split.
    - rewrite (removeSleeper_heap_idle _ _ _ _ _ Hr) by done. done.
    - intros Hin. apply Hpv. by eapply removeSleeper_pending_subset. }
  destruct o as [d|d f|d|t|t|t d|d|k|k|k d|d|n]; simpl in *.
  - injection Hex as <-. unfold After, make_chan, new_sleeper. simpl.
    apply Hap; [lia| |by apply Hpc]. simpl. by rewrite fn_lookup_insert_ne by lia.
  - injection Hex as <-. unfold AfterFunc, new_timer, new_sleeper. simpl.
    apply Hap; [lia| |by apply Hpc]. simpl. by rewrite fn_lookup_insert_ne by lia.
  - injection Hex as <-. unfold NewTimer, new_timer, new_sleeper, make_chan.
    simpl. split; [|by apply Hpc]. by rewrite fn_lookup_insert_ne by lia.
  - injection Hex as <-. unfold fakeTimer_C. simpl. case_bool_decide; [|done].
    apply Hap; [by intros E; apply Hadr; rewrite E|done|done].
  - revert Hex. unfold fakeTimer_Stop. destruct (tm_stopped (timers w t)).
    { intros [= <-]. split; [done|by apply Hpc]. }
    destruct (removeSleeper _ w) as [[[] w1]|] eqn:Hr; [| |done];
      intros [= <-];
      (destruct (Hrm (tm_sleeper (timers w t)) w _ w1
                 ltac:(by intros E; apply Hadr; rewrite E) eq_refl Hp Hr)
         as [Hh1 Hp1];
       split; [done|exact Hp1]).
  - revert Hex. unfold fakeTimer_Reset, make_chan. simpl.
    set (s' := tm_sleeper (timers w t)) in *.
    assert (s' ≠ s) as Hne by (by intros E; apply Hadr; rewrite E).
    match goal with
    | |- context [removeSleeper s' ?v] => set (w1 := v)
    end.
    assert (heap w1 s = heap w s) as Hh1.
    { unfold w1, upd_sleeper; simpl. by rewrite !fn_lookup_insert_ne. }
    destruct (removeSleeper s' w1) as [[r w2]|] eqn:Hr; [|done].
    intros [= <-].
    destruct (Hrm s' w1 r w2 Hne Hh1 (Hpc w1 eq_refl) Hr) as [Hh2 Hp2].
    destruct (sl_f _); [by apply Hap|done].
  - revert Hex. unfold NewTicker. case_bool_decide; [done|]. intros [= <-].
    unfold new_ticker, new_sleeper. simpl. split; [|by apply Hpc].
    by rewrite fn_lookup_insert_ne by lia.
  - injection Hex as <-. destruct (tk_stopped (tickers w k)) eqn:Hst.
    { unfold fakeTicker_C, make_chan. simpl. rewrite Hst.
      split; [done|by apply Hpc]. }
    rewrite fakeTicker_C_active by done. simpl.
    apply (Hap (nheap w) (requested k w)); [lia| |by apply Hpc].
    unfold requested. simpl. by rewrite fn_lookup_insert_ne by lia.
  - revert Hex. unfold fakeTicker_Stop.
    match goal with
    | |- context [removeSleeper ?p ?v] =>
        destruct (removeSleeper p v) as [[r w1]|] eqn:Hr; [|done];
        set (w0 := v) in Hr
    end.
    intros [= <-].
    apply (Hrm (tk_sleeper (tickers w0 k)) w0 r w1);
      [|done|by apply Hpc|done].
    unfold w0, upd_ticker. simpl. rewrite fn_lookup_insert. simpl.
    by intros E; apply Hadr; rewrite E.
  - revert Hex. unfold fakeTicker_Reset, fakeTicker_Stop.
    match goal with
    | |- context [removeSleeper ?p ?v] =>
        destruct (removeSleeper p v) as [[r w1]|] eqn:Hr; [|done];
        set (w0 := v) in Hr
    end.
    intros [= <-].
    assert (tk_sleeper (tickers w0 k) = tk_sleeper (tickers w k)) as Hk0.
    { unfold w0, upd_ticker. simpl. by rewrite fn_lookup_insert. }
    rewrite Hk0 in Hr.
    destruct (Hrm (tk_sleeper (tickers w k)) w0 r w1
                ltac:(by intros E; apply Hadr; rewrite E) eq_refl
                (Hpc w0 eq_refl) Hr)
      as [Hh1 Hp1].
    split; [|exact Hp1].
    unfold upd_sleeper, upd_ticker. simpl. rewrite !fn_lookup_insert. simpl.
    destruct (removeSleeper_frame _ _ _ _ Hr)
      as (_ & _ & _ & (_ & _ & _ & Htk & _) & _).
    rewrite Htk, Hk0. rewrite fn_lookup_insert_ne; [done|].
    by intros E; apply Hadr; rewrite E.
  - injection Hex as <-. destruct (decide (d <= 0)%Z) as [Hd|Hd].
    { by rewrite Advance_not_positive. }
    destruct (Advance_spec w d Hok) as [_ H].
    destruct H as (_ & _ & Hsl & _ & _ & _ & _ & _ & Hh); [lia|].
    split; [by apply Hh|]. unfold pending. rewrite Hsl.
    intros [_ Hin]%list_elem_of_filter. done.
  - injection Hex as <-. unfold Until, make_chan. simpl.
    case_bool_decide; simpl; (split; [done|by apply Hpc]).
Qed.

(** A call makes at most one timer, with a sleeper of its own. *)
Lemma exec_new_timer o w w' :
  exec o w = Some w' →
  ntimers w' = ntimers w ∨
  (ntimers w' = S (ntimers w) ∧ tm_sleeper (timers w' (ntimers w)) = nheap w).
Proof.
  assert (∀ v v', same_alloc v v' → ntimers v = ntimers w →
                  ntimers v' = ntimers w) as Hsame.
  { intros v v' (_ & _ & Hn & _) Hv. congruence. }
  assert (∀ s v r v', removeSleeper s v = Some (r, v') →
                      ntimers v = ntimers w → ntimers v' = ntimers w) as Hrm.
  { intros s v r v' Hr Hv.
    destruct (removeSleeper_frame _ _ _ _ Hr) as (_ & _ & _ & Ha & _).
    by apply (Hsame v v'). }
  destruct o as [d|d f|d|t|t|t d|d|k|k|k d|d|n]; simpl.
  - intros [= <-]. left. unfold After, make_chan, new_sleeper. simpl.
    eapply Hsame; [apply appendSleeper_alloc|done].
  - intros [= <-]. right. unfold AfterFunc, new_timer, new_sleeper. simpl.
    match goal with |- context [appendSleeper ?s ?v] =>
      destruct (appendSleeper_alloc s v) as (_ & -> & -> & _) end.
    simpl. by rewrite fn_lookup_insert.
  - intros [= <-]. right. unfold NewTimer, new_timer, new_sleeper, make_chan.
    simpl. by rewrite fn_lookup_insert.
  - intros [= <-]. left. unfold fakeTimer_C. simpl. case_bool_decide; [|done].
    eapply Hsame; [apply appendSleeper_alloc|done].
  - unfold fakeTimer_Stop. destruct (tm_stopped (timers w t)).
    { intros [= <-]. by left. }
    destruct (removeSleeper _ w) as [[[] w1]|] eqn:Hr; [| |done];
      intros [= <-]; left; simpl; by eapply Hrm.
  - unfold fakeTimer_Reset, make_chan. simpl.
    match goal with
    | |- context [removeSleeper ?s ?v] =>
        destruct (removeSleeper s v) as [[r w1]|] eqn:Hr; [|done];
        set (w0 := v) in Hr
    end.
    intros [= <-]. left.
    assert (ntimers w1 = ntimers w) as H1 by ((eapply Hrm; [exact Hr|done])).
    destruct (sl_f _); [|done].
    eapply Hsame; [apply appendSleeper_alloc|done].
  - unfold NewTicker. case_bool_decide; [done|]. intros [= <-]. by left.
  - intros [= <-]. left. destruct (tk_stopped (tickers w k)) eqn:Hst.
    { unfold fakeTicker_C, make_chan. simpl. by rewrite Hst. }
    rewrite fakeTicker_C_active by done. simpl.
    eapply Hsame; [apply appendSleeper_alloc|done].
  - unfold fakeTicker_Stop.
    match goal with
    | |- context [removeSleeper ?s ?v] =>
        destruct (removeSleeper s v) as [[r w1]|] eqn:Hr; [|done];
        set (w0 := v) in Hr
    end.
    intros [= <-]. left. (eapply Hrm; [exact Hr|done]).
  - unfold fakeTicker_Reset, fakeTicker_Stop.
    match goal with
    | |- context [removeSleeper ?s ?v] =>
        destruct (removeSleeper s v) as [[r w1]|] eqn:Hr; [|done];
        set (w0 := v) in Hr
    end.
    intros [= <-]. left. simpl. (eapply Hrm; [exact Hr|done]).
  - intros [= <-]. left. unfold Advance. case_bool_decide; [done|].
    rewrite checkSleepers_offer.
    eapply Hsame; [apply offer_all_alloc|done].
  - intros [= <-]. left. unfold Until, make_chan. simpl.
    by case_bool_decide.
Qed.

Lemma exec_timers_apart o w w' :
  clock_ok w → timers_apart w → op_ok o w → exec o w = Some w' →
  timers_apart w'.
Proof.
  intros Hok Hta Hop Hex t t' Ht Ht' Heq.
  pose proof (exec_timers_kept o w w' Hex) as Hk.
  pose proof (ow_timers w (ok_owners w Hok)) as Hlt.
  destruct (exec_new_timer o w w' Hex) as [Hn|[Hn Hnew]].
  - rewrite Hn in Ht, Ht'.
    destruct (Hk t Ht) as (_ & H1 & _). destruct (Hk t' Ht') as (_ & H2 & _).
    apply Hta; [done|done|congruence].
  - rewrite Hn in Ht, Ht'.
    destruct (decide (t = ntimers w)) as [->|Hne];
      destruct (decide (t' = ntimers w)) as [->|Hne']; [done| | |].
    + destruct (Hk t' ltac:(lia)) as (_ & H2 & _).
      pose proof (Hlt t' ltac:(lia)). rewrite <- H2, <- Heq, Hnew in H. lia.
    + destruct (Hk t ltac:(lia)) as (_ & H1 & _).
      pose proof (Hlt t ltac:(lia)). rewrite <- H1, Heq, Hnew in H. lia.
    + destruct (Hk t ltac:(lia)) as (_ & H1 & _).
      destruct (Hk t' ltac:(lia)) as (_ & H2 & _).
      apply Hta; [lia|lia|congruence].
Qed.

Lemma reachable_timers_apart w : reachable w → timers_apart w.
Proof.
  induction 1 as [t|w o w' Hw IH Hop Hex].
  - intros t1 t2 Ht1. simpl in Ht1. lia.
  - eapply exec_timers_apart; [by apply reachable_clock_ok|done..].
Qed.

Lemma run_idle os : ∀ w w' t,
  clock_ok w → timers_apart w → t < ntimers w →
  ¬ pending (tm_sleeper (timers w t)) w →
  Forall (λ o, ¬ on_timer t o) os → run os w = Some w' →
  clock_ok w' ∧ t < ntimers w' ∧
  tm_sleeper (timers w' t) = tm_sleeper (timers w t) ∧
  heap w' (tm_sleeper (timers w t)) = heap w (tm_sleeper (timers w t)) ∧
  ¬ pending (tm_sleeper (timers w t)) w'.
Proof.
  induction os as [|o os IH]; intros w w' t Hok Hta Ht Hp Hos; simpl.
  - by intros [= <-].
  - apply list.Forall_cons in Hos as [Ho Hos].
    case_decide as Hop; [|done].
    destruct (exec o w) as [w1|] eqn:Hex; [|done]. intros Hrun.
    set (s := tm_sleeper (timers w t)) in *.
    pose proof (ok_owners w Hok) as Hown.
    assert (addressed o w ≠ Some s) as Hadr.
    { destruct o as [d|d f|d|t'|t'|t' d|d|k|k|k d|d|n]; simpl in *;
        try done; intros [= E];
        try (by apply Ho, (Hta t' t Hop Ht E));
        by apply (ow_apart w Hown t k Ht Hop). }
    destruct (exec_idle o w w1 s Hok Hop Hex (ow_timers w Hown t Ht) Hp Hadr)
      as [Hh1 Hp1].
    destruct (exec_timers_kept o w w1 Hex t Ht) as (Ht1 & Hs1 & _).
    fold s in Hs1. rewrite <- Hs1 in Hp1.
    destruct (IH w1 w' t (exec_Some_clock_ok o w w1 Hok Hop Hex)
                (exec_timers_apart o w w1 Hok Hta Hop Hex) Ht1 Hp1 Hos Hrun)
      as (Hok' & Ht' & Hs' & Hh' & Hp').
    rewrite Hs1 in Hs', Hh', Hp'.
    split; [done|]. split; [done|]. split; [done|]. split; [congruence|done].
Qed.

(** X8. When [Stop] of a timer returns [true] in a world that a run of calls
    has reached, the timer's sleeper is asleep and out of the registry, and
    it stays so through every run of calls that are not made on this timer:
    whatever time passes, and whatever is done to other timers and tickers,
    the sleeper is not woken and nothing is sent on its channel.  A request
    for the channel of the stopped timer, however, registers the sleeper
    again. *)
Theorem X8_stopped_timer_stays_silent (w w1 w2 : world) (t : nat)
    (os : list op)
    (Hw : reachable w) (Ht : t < ntimers w)
    (Hstop : fakeTimer_Stop t w = Some (true, w1))
    (Hos : Forall (λ o, ¬ on_timer t o) os)
    (Hrun : run os w1 = Some w2) :
  let s := tm_sleeper (timers w t) in
  tm_sleeper (timers w2 t) = s ∧
  heap w2 s = heap w1 s ∧
  ¬ pending s w2 ∧
  sl_woke (heap w2 s) = false ∧
  (∀ c, sl_c (heap w2 s) = Some c → sent c w2 = []) ∧
  pending s (fakeTimer_C t w1).2.
Proof.
  intros s.
  pose proof (reachable_clock_ok w Hw) as Hok.
  pose proof (ok_owners w Hok) as Hown.
  pose proof (ow_timers w Hown t Ht) as Hs. fold s in Hs.
  assert (reachable w1) as Hw1.
  { eapply (reach_step w (OpTimerStop t)); [done|done|].
    simpl. by rewrite Hstop. }
  pose proof (reachable_clock_ok w1 Hw1) as Hok1.
  pose proof (reachable_timers_apart w1 Hw1) as Hta1.
  assert (exec (OpTimerStop t) w = Some w1) as Hex
    by (simpl; by rewrite Hstop).
  destruct (exec_timers_kept _ w w1 Hex t Ht) as (Ht1 & Hs1 & _).
  fold s in Hs1.
  (* what the removal inside [Stop] did *)
  assert (¬ pending s w1 ∧ (sl_i (heap w1 s) < 0)%Z ∧
          same_but_i (heap w1 s) (heap w s) ∧
          at_ (clock w1) = at_ (clock w) ∧
          (pending s w ∨ (at_ (clock w) < sl_until (heap w s))%Z))
    as (Hp1 & Hi1 & Hsb & Hat & Hwhy).
  { revert Hstop. unfold fakeTimer_Stop. fold s.
    destruct (tm_stopped (timers w t)); [done|].
    destruct (removeSleeper_clock_ok s w Hok Hs) as (w0 & Hrm & _ & Hpend).
    rewrite Hrm.
    destruct (removeSleeper_frame _ _ _ _ Hrm)
      as (Hat0 & _ & _ & _ & Hsb0 & _ & Hi0 & _).
    assert (¬ pending s w0) as Hp0 by (rewrite Hpend; tauto).
    case_bool_decide as Hpd.
    - intros [= <-]. split; [done|]. split; [done|].
      split; [apply Hsb0|]. split; [done|]. by left.
    - unfold Time_After. intros [= Hr <-].
      apply bool_decide_eq_true_1 in Hr.
      destruct (Hsb0 s) as (Hu & _). rewrite Hu, Hat0 in Hr.
      split; [done|]. split; [done|].
      split; [apply Hsb0|]. split; [done|]. by right. }
  assert ((at_ (clock w) < sl_until (heap w s))%Z) as Hfut.
  { destruct Hwhy as [Hpw|?]; [|done]. by apply (reachable_future w Hw). }
  assert (sl_woke (heap w s) = false) as Hwk.
  { destruct (sl_woke (heap w s)) eqn:E; [|done].
    pose proof (ow_woke w Hown t Ht E) as Hd. unfold due in Hd. fold s in Hd.
    lia. }
  rewrite <- Hs1 in Hp1.
  destruct (run_idle os w1 w2 t Hok1 Hta1 Ht1 Hp1 Hos Hrun)
    as (Hok2 & Ht2 & Hs2 & Hh2 & Hp2).
  rewrite Hs1 in Hs2, Hh2, Hp2, Hp1.
  destruct Hsb as (Hu1 & Hw1' & _).
  split; [done|]. split; [done|]. split; [done|].
  assert (sl_woke (heap w2 s) = false) as Hwk2 by congruence.
  split; [done|]. split.
  - intros c Hc. apply sent_unsent.
    apply (sn_unsent w2 (ok_sends w2 Hok2) s c); [|done|done].
    rewrite <- Hs2. by apply (ow_timers w2 (ok_owners w2 Hok2)).
  - unfold fakeTimer_C. simpl. rewrite Hs1.
    rewrite bool_decide_eq_true_2 by done.
    apply appendSleeper_pending. right. split; [done|].
    unfold due. rewrite Hu1, Hat. lia.
Qed.

Lemma X8_stopped_timer_stays_silent_witness :
  sent 0 (world_after [OpNewTimer second; OpTimerC 0; OpTimerStop 0;
                       OpAfter second; OpAdvance (5 * second)%Z]) = [].
Proof.
  destruct (X8_stopped_timer_stays_silent
              (world_after [OpNewTimer second; OpTimerC 0])
              (world_after [OpNewTimer second; OpTimerC 0; OpTimerStop 0])
              (world_after [OpNewTimer second; OpTimerC 0; OpTimerStop 0;
                            OpAfter second; OpAdvance (5 * second)%Z])
              0 [OpAfter second; OpAdvance (5 * second)%Z])
    as (_ & _ & _ & _ & Hsent & _).
  - apply world_after_reachable. vm_compute. eauto.
  - vm_compute. lia.
  - vm_compute. reflexivity.
  - repeat constructor; simpl; tauto.
  - vm_compute. reflexivity.
  - apply Hsent. vm_compute. reflexivity.
Defined.

(** ** Channels that no sleeper holds *)

Lemma orphan_frame c w w' :
  orphan c w →
  nchan w ≤ nchan w' → sends (trace w') = sends (trace w) →
  (∀ p, p < nheap w' → sl_c (heap w' p) ≠ Some c) →
  orphan c w'.
Proof.
  intros (Hn & Hs & Hh) Hnc Htr Hh'. split; [lia|]. split; [by rewrite Htr|done].
Qed.

Lemma appendSleeper_orphan s v c :
  s < nheap v → orphan c v → orphan c (appendSleeper s v).
Proof.
  intros Hs (Hn & Hsn & Hh).
  destruct (appendSleeper_alloc s v) as (Hnh & _ & _ & _ & _ & Hnc).
  split; [by rewrite Hnc|]. split.
  - rewrite appendSleeper_trace, sends_app, elem_of_app.
    intros [?|Hin]; [done|]. case_decide.
    + rewrite sends_fire_events in Hin. destruct (sl_woke (heap v s)).
      { by apply elem_of_nil in Hin. }
      destruct (sl_c (heap v s)) as [c'|] eqn:Hc.
      * apply list_elem_of_singleton in Hin as ->. by apply (Hh s).
      * by apply elem_of_nil in Hin.
    + rewrite sends_map_Close in Hin. by apply elem_of_nil in Hin.
  - intros p Hp. rewrite Hnh in Hp.
    destruct (appendSleeper_same_but_i s v p) as (_ & -> & _). by apply Hh.
Qed.

Lemma removeSleeper_orphan s v r v' c :
  removeSleeper s v = Some (r, v') → orphan c v → orphan c v'.
Proof.
  intros Hrm Ho.
  destruct (removeSleeper_frame _ _ _ _ Hrm)
    as (_ & _ & Htr & (Hnh & _ & _ & _ & _ & Hnc) & Hsb & _).
  apply (orphan_frame c v); [done|lia|by rewrite Htr|].
  intros p Hp. destruct (Hsb p) as (_ & _ & -> & _).
  destruct Ho as (_ & _ & Hh). apply Hh. lia.
Qed.

Lemma offer_all_orphan c l : ∀ v,
  (∀ s, s ∈ l → s < nheap v) → orphan c v → orphan c (offer_all l v).
Proof.
  induction l as [|s l IH]; intros v Hl Ho; [done|]. simpl. apply IH.
  - intros p Hp. destruct (appendSleeper_alloc s v) as (-> & _).
    apply Hl. by right.
  - apply appendSleeper_orphan; [|done]. apply Hl. by left.
Qed.

(** A new sleeper whose channel, if it has one, is new as well. *)
Lemma orphan_alloc c w w' :
  orphan c w →
  nheap w' = S (nheap w) → nchan w ≤ nchan w' →
  sends (trace w') = sends (trace w) →
  (∀ p, p ≠ nheap w → heap w' p = heap w p) →
  sl_c (heap w' (nheap w)) = None ∨ sl_c (heap w' (nheap w)) = Some (nchan w) →
  orphan c w'.
Proof.
  intros Ho Hnh Hnc Htr Hh Hnew.
  apply (orphan_frame c w); [done|done|done|].
  destruct Ho as (Hn & _ & Hold). intros p Hp.
  destruct (decide (p = nheap w)) as [->|Hne].
  - destruct Hnew as [->| ->]; [done|]. intros [= E]. lia.
  - rewrite Hh by done. apply Hold. lia.
Qed.

Lemma exec_orphan o w w' c :
  clock_ok w → op_ok o w → exec o w = Some w' → orphan c w → orphan c w'.
Proof.
  intros Hok Hop Hex Ho.
  pose proof (ok_owners w Hok) as Hown.
  destruct o as [d|d f|d|t|t|t d|d|k|k|k d|d|n]; simpl in *.
  - injection Hex as <-. unfold After, make_chan, new_sleeper. simpl.
    apply appendSleeper_orphan; [simpl; lia|].
    apply (orphan_alloc c w); simpl; [done|done|lia|done| |].
    + intros p Hp. by rewrite fn_lookup_insert_ne.
    + right. by rewrite fn_lookup_insert.
  - injection Hex as <-. unfold AfterFunc, new_timer, new_sleeper. simpl.
    apply appendSleeper_orphan; [simpl; lia|].
    apply (orphan_alloc c w); simpl; [done|done|lia|done| |].
    + intros p Hp. by rewrite fn_lookup_insert_ne.
    + left. by rewrite fn_lookup_insert.
  - injection Hex as <-. unfold NewTimer, new_timer, new_sleeper, make_chan.
    simpl. apply (orphan_alloc c w); simpl; [done|done|lia|done| |].
    + intros p Hp. by rewrite fn_lookup_insert_ne.
    + right. by rewrite fn_lookup_insert.
  - injection Hex as <-. unfold fakeTimer_C. simpl. case_bool_decide; [|done].
    apply appendSleeper_orphan; [|done]. by apply (ow_timers w Hown).
  - revert Hex. unfold fakeTimer_Stop. destruct (tm_stopped (timers w t)).
    { intros [= <-]. by apply (orphan_frame c w); [done|done|done|apply Ho]. }
    destruct (removeSleeper _ w) as [[[] w1]|] eqn:Hr; [| |done];
      intros [= <-];
      pose proof (removeSleeper_orphan _ _ _ _ c Hr Ho) as Ho1;
      by apply (orphan_frame c w1); [done|done|done|apply Ho1].
  - revert Hex. unfold fakeTimer_Reset, make_chan. simpl.
    set (s := tm_sleeper (timers w t)) in *.
    pose proof (ow_timers w Hown t Hop) as Hs. fold s in Hs.
    match goal with
    | |- context [removeSleeper s ?v] => set (w1 := v)
    end.
    assert (orphan c w1) as Ho1.
    { apply (orphan_frame c w); [done|simpl; lia|done|].
      intros p Hp. unfold w1, upd_sleeper; simpl.
      destruct (decide (p = s)) as [->|Hne].
      - rewrite !fn_lookup_insert. simpl. intros [= E].
        destruct Ho as (Hn & _). lia.
      - rewrite !fn_lookup_insert_ne by done. by apply Ho. }
    destruct (removeSleeper s w1) as [[r w2]|] eqn:Hr; [|done].
    intros [= <-].
    pose proof (removeSleeper_orphan _ _ _ _ c Hr Ho1) as Ho2.
    destruct (sl_f _); [|done].
    apply appendSleeper_orphan; [|done].
    destruct (removeSleeper_frame _ _ _ _ Hr) as (_ & _ & _ & (-> & _) & _).
    done.
  - revert Hex. unfold NewTicker. case_bool_decide; [done|]. intros [= <-].
    unfold new_ticker, new_sleeper. simpl.
    apply (orphan_alloc c w); simpl; [done|done|lia|done| |].
    + intros p Hp. by rewrite fn_lookup_insert_ne.
    + left. by rewrite fn_lookup_insert.
  - injection Hex as <-. destruct (tk_stopped (tickers w k)) eqn:Hst.
    { unfold fakeTicker_C, make_chan. simpl. rewrite Hst. simpl.
      by apply (orphan_frame c w); [done|simpl; lia|done|apply Ho]. }
    rewrite fakeTicker_C_active by done. simpl.
    match goal with |- orphan c ?v => set (w2 := v) end.
    assert (orphan c (appendSleeper (nheap w) (requested k w))) as Ho2.
    { apply appendSleeper_orphan; [simpl; lia|].
      apply (orphan_alloc c w); simpl; [done|done|lia|done| |].
      + intros p Hp. by rewrite fn_lookup_insert_ne.
      + right. by rewrite fn_lookup_insert. }
    by apply (orphan_frame c _ w2 Ho2); [done|done|apply Ho2].
  - revert Hex. unfold fakeTicker_Stop.
    match goal with
    | |- context [removeSleeper ?p ?v] =>
        destruct (removeSleeper p v) as [[r w1]|] eqn:Hr; [|done];
        set (w0 := v) in Hr
    end.
    intros [= <-]. apply (removeSleeper_orphan _ _ _ _ c Hr).
    by apply (orphan_frame c w); [done|done|done|apply Ho].
  - revert Hex. unfold fakeTicker_Reset, fakeTicker_Stop.
    match goal with
    | |- context [removeSleeper ?p ?v] =>
        destruct (removeSleeper p v) as [[r w1]|] eqn:Hr; [|done];
        set (w0 := v) in Hr
    end.
    intros [= <-].
    assert (orphan c w1) as Ho1.
    { apply (removeSleeper_orphan _ _ _ _ c Hr).
      by apply (orphan_frame c w); [done|done|done|apply Ho]. }
    apply (orphan_frame c w1); [done|done|done|].
    intros p Hp. unfold upd_sleeper, upd_ticker. simpl.
    rewrite !fn_lookup_insert. simpl.
    destruct (decide (p = tk_sleeper (tickers w1 k))) as [->|Hne].
    + rewrite fn_lookup_insert. simpl. by apply Ho1.
    + rewrite fn_lookup_insert_ne by done. by apply Ho1.
  - injection Hex as <-. unfold Advance. case_bool_decide; [done|].
    rewrite checkSleepers_offer. simpl. apply offer_all_orphan.
    + intros s Hs. simpl. by apply (reg_alloc w (ok_registry w Hok)).
    + by apply (orphan_frame c w); [done|done|done|apply Ho].
  - injection Hex as <-. unfold Until, make_chan. simpl.
    case_bool_decide; simpl.
    + apply (orphan_frame c w); [done|simpl; lia| |apply Ho].
      simpl. by rewrite sends_app, app_nil_r.
    + by apply (orphan_frame c w); [done|simpl; lia|done|apply Ho].
Qed.

Lemma run_orphan c os : ∀ w w',
  clock_ok w → orphan c w → run os w = Some w' → orphan c w'.
Proof.
  induction os as [|o os IH]; intros w w' Hok Ho; simpl.
  - by intros [= <-].
  - case_decide as Hop; [|done].
    destruct (exec o w) as [w1|] eqn:Hex; [|done].
    apply IH; [by eapply exec_Some_clock_ok|by eapply exec_orphan].
Qed.

(** X9. On a world that satisfies the invariant, [Stop] of a ticker does not
    panic and sends nothing.  It sets the stopped flag, keeps the interval
    and the next deadline, and takes out of the registry the sleeper of the
    last request only: every other pending sleeper stays pending.  A request
    for the channel of the stopped ticker returns a new channel and changes
    nothing else, neither the clock nor the ticker; and through every run of
    calls that follows nothing is sent on that channel. *)
Theorem X9_ticker_stop (w : world) (k : nat)
    (Hok : clock_ok w) (Hk : k < ntickers w) :
  ∃ w1, fakeTicker_Stop k w = Some w1 ∧
        tickers w1 k
          = FakeTicker (tk_interval (tickers w k)) (tk_next (tickers w k))
                       true (tk_sleeper (tickers w k)) ∧
        (∀ p, pending p w1 ↔ pending p w ∧ p ≠ tk_sleeper (tickers w k)) ∧
        trace w1 = trace w ∧ at_ (clock w1) = at_ (clock w) ∧
        let r := fakeTicker_C k w1 in
        r.1 = nchan w ∧ clock r.2 = clock w1 ∧ trace r.2 = trace w1 ∧
        tickers r.2 = tickers w1 ∧ heap r.2 = heap w1 ∧
        ∀ os w2, run os r.2 = Some w2 → sent r.1 w2 = [].
Proof.
  unfold fakeTicker_Stop.
  assert (clock_ok (upd_ticker k
            (λ x, FakeTicker (tk_interval x) (tk_next x) true (tk_sleeper x)) w))
    as Hok0 by (by apply upd_ticker_clock_ok).
  match goal with
  | |- context [removeSleeper ?s ?v] => set (s1 := s); set (w0 := v) in *
  end.
  assert (s1 = tk_sleeper (tickers w k)) as Hs1.
  { unfold s1, w0, upd_ticker. simpl. by rewrite fn_lookup_insert. }
  assert (s1 < nheap w0) as Hs.
  { rewrite Hs1. apply (ow_tickers w (ok_owners w Hok) k Hk). }
  destruct (removeSleeper_clock_ok s1 w0 Hok0 Hs) as (w1 & Hrm & Hok1 & Hp).
  rewrite Hrm. exists w1. split; [done|].
  destruct (removeSleeper_frame _ _ _ _ Hrm)
    as (Hat & _ & Htr & (_ & _ & _ & Htk & Hnk & Hnc) & _).
  assert (tickers w1 k
          = FakeTicker (tk_interval (tickers w k)) (tk_next (tickers w k))
                       true (tk_sleeper (tickers w k))) as Hk1.
  { rewrite Htk. unfold w0, upd_ticker. simpl. by rewrite fn_lookup_insert. }
  split; [done|]. split; [by rewrite <- Hs1|]. split; [done|]. split; [done|].
  assert (fakeTicker_C k w1 = make_chan w1) as HC.
  { unfold fakeTicker_C, make_chan. simpl. by rewrite Hk1. }
  rewrite HC. unfold make_chan. simpl.
  split; [done|]. split; [done|]. split; [done|]. split; [done|].
  split; [done|]. intros os w2 Hrun.
  pose proof (fakeTicker_C_clock_ok k w1 Hok1 ltac:(by rewrite Hnk)) as Hok2.
  rewrite HC in Hok2. unfold make_chan in Hok2. simpl in Hok2.
  apply sent_unsent.
  eapply (run_orphan (nchan w1) os _ w2 Hok2); [|exact Hrun].
  pose proof (ok_sends w1 Hok1) as Hsn.
  split; [simpl; lia|]. split; simpl.
  - intros Hin%(sn_alloc w1 Hsn). lia.
  - intros p Hp1 Hc%(sn_fresh w1 Hsn); [lia|done].
Qed.

Lemma X9_ticker_stop_witness :
  sent 1 (world_after [OpNewTicker second; OpTickerC 0; OpTickerStop 0;
                       OpTickerC 0; OpAdvance (5 * second)%Z]) = [].
Proof.
  destruct (X9_ticker_stop (world_after [OpNewTicker second; OpTickerC 0]) 0)
    as (w1 & Hstop & _ & _ & _ & _ & _ & _ & _ & _ & _ & Hsilent).
  - apply world_after_ok. vm_compute. eauto.
  - vm_compute. lia.
  - vm_compute in Hstop. injection Hstop as <-.
    apply (Hsilent [OpAdvance (5 * second)%Z]). vm_compute. reflexivity.
Defined.

(** ** The schedule of a ticker *)

Lemma request_n_spec (w : world) (k : nat)
    (Hok : clock_ok w) (Hk : k < ntickers w)
    (Hactive : tk_stopped (tickers w k) = false)
    (Hiv : (0 <= tk_interval (tickers w k))%Z)
    (Hnext : (at_ (clock w) < tk_next (tickers w k))%Z) (n : nat) :
  let next := tk_next (tickers w k) in
  let iv := tk_interval (tickers w k) in
  let w' := request_n n k w in
  clock_ok w' ∧ at_ (clock w') = at_ (clock w) ∧
  ntickers w' = ntickers w ∧
  nheap w' = nheap w + n ∧ nchan w' = nchan w + n ∧
  tk_interval (tickers w' k) = iv ∧
  tk_next (tickers w' k) = (next + Z.of_nat n * iv)%Z ∧
  tk_stopped (tickers w' k) = false ∧
  sleepers (clock w') = sleepers (clock w) ++ seq (nheap w) n ∧
  ∀ j, j < n →
       sl_until (heap w' (nheap w + j)) = (next + Z.of_nat j * iv)%Z ∧
       sl_c (heap w' (nheap w + j)) = Some (nchan w + j).
Proof.
  intros next iv. induction n as [|n IH]; simpl.
  - split; [done|]. split; [done|]. split; [done|].
    split; [lia|]. split; [lia|]. split; [done|]. split; [unfold next; lia|].
    split; [done|]. split; [by rewrite app_nil_r|]. intros j Hj. lia.
  - destruct IH as (Hok' & Hat & Hnk & Hnh & Hnc & Hi & Hnx & Hst & Hsl & Hh).
    set (v := request_n n k w) in *.
    assert (k < ntickers v) as Hkv by (by rewrite Hnk).
    destruct (fakeTicker_C_spec v k Hok' Hkv Hst)
      as (_ & Hok2 & Hat2 & Hnh2 & Hnc2 & Hnk2 & Htk2 & Hu2 & Hc2 & Hfut & _
          & _ & Hh2 & _).
    rewrite Hi, Hnx in Htk2. rewrite Hnx in Hu2.
    split; [done|]. split; [congruence|]. split; [congruence|].
    split; [lia|]. split; [lia|]. rewrite Htk2. simpl.
    split; [done|]. split; [lia|]. split; [done|]. split.
    + destruct Hfut as [-> _]; [rewrite Hat, Hnx; nia|].
      change (nheap w :: seq (S (nheap w)) n) with (seq (nheap w) (S n)).
      rewrite Hsl, seq_S, Hnh. by rewrite app_assoc.
    + intros j Hj. destruct (decide (j = n)) as [->|Hne].
      * rewrite <- Hnh, Hu2, Hc2. split; [done|]. by rewrite Hnc.
      * rewrite Hh2 by lia. apply Hh. lia.
Qed.

(** X10. An active ticker whose next deadline is in the future and whose
    interval is not negative, asked [n] times in a row for its channel,
    makes [n] sleepers, all pending, with [n] new channels: the request
    number [j] (from zero) has the deadline "next plus [j] intervals", and
    the ticker's next deadline has moved by [n] intervals.  A following
    [Advance] delivers on the channel of request [j] exactly when it reaches
    that deadline, and then it delivers that deadline, once. *)
Theorem X10_ticker_schedule (w : world) (k n : nat)
    (Hok : clock_ok w) (Hk : k < ntickers w)
    (Hactive : tk_stopped (tickers w k) = false)
    (Hiv : (0 <= tk_interval (tickers w k))%Z)
    (Hnext : (at_ (clock w) < tk_next (tickers w k))%Z) :
  let next := tk_next (tickers w k) in
  let iv := tk_interval (tickers w k) in
  let w' := request_n n k w in
  tk_next (tickers w' k) = (next + Z.of_nat n * iv)%Z ∧
  sleepers (clock w') = sleepers (clock w) ++ seq (nheap w) n ∧
  ∀ j, j < n →
       let due_at := (next + Z.of_nat j * iv)%Z in
       sl_until (heap w' (nheap w + j)) = due_at ∧
       sl_c (heap w' (nheap w + j)) = Some (nchan w + j) ∧
       ∀ e, sent (nchan w + j) (Advance e w')
            = if decide (due_at <= at_ (clock w) + e)%Z then [due_at] else [].
Proof.
  intros next iv w'.
  destruct (request_n_spec w k Hok Hk Hactive Hiv Hnext n)
    as (Hok' & Hat & _ & Hnh & _ & _ & Hnx & _ & Hsl & Hh).
  fold next iv w' in Hok', Hat, Hnh, Hnx, Hsl, Hh.
  split; [done|]. split; [done|]. intros j Hj due_at.
  destruct (Hh j Hj) as [Hu Hc]. fold due_at in Hu.
  split; [done|]. split; [done|]. intros e.
  assert (pending (nheap w + j) w') as Hp.
  { unfold pending. rewrite Hsl, elem_of_app. right.
    apply elem_of_seq. lia. }
  assert (at_ (clock w) < due_at)%Z as Hlt by (unfold due_at; nia).
  destruct (decide (e <= 0)%Z) as [He|He].
  { rewrite Advance_not_positive by done. rewrite decide_False by lia.
    apply sent_unsent.
    apply (sn_unsent w' (ok_sends w' Hok') (nheap w + j)); [|
      by apply (ow_asleep w' (ok_owners w' Hok'))|done].
    by apply (reg_alloc w' (ok_registry w' Hok')). }
  destruct (Advance_spec w' e Hok') as [_ H].
  destruct H as (_ & _ & _ & _ & _ & _ & Hdue & Hkeep & _); [lia|].
  rewrite Hat in Hdue, Hkeep.
  case_decide as Hd.
  - destruct (Hdue _ Hp) as (_ & _ & _ & Hsent); [by rewrite Hu|].
    rewrite (Hsent _ Hc). by rewrite Hu.
  - destruct (Hkeep _ Hp) as (_ & _ & _ & Hsent); [rewrite Hu; lia|].
    by apply Hsent.
Qed.

Lemma X10_ticker_schedule_witness :
  sent 2 (Advance (3 * second)%Z
            (request_n 4 0 (world_after [OpNewTicker second])))
  = [(4 * second)%Z] ∧
  sent 3 (Advance (3 * second)%Z
            (request_n 4 0 (world_after [OpNewTicker second]))) = [].
Proof.
  destruct (X10_ticker_schedule (world_after [OpNewTicker second]) 0 4)
    as (_ & _ & H).
  - apply world_after_ok. vm_compute. eauto.
  - vm_compute. lia.
  - vm_compute. reflexivity.
  - vm_compute. discriminate.
  - vm_compute. reflexivity.
  - destruct (H 2 ltac:(lia)) as (_ & _ & H2).
    destruct (H 3 ltac:(lia)) as (_ & _ & H3).
    specialize (H2 (3 * second)%Z). specialize (H3 (3 * second)%Z).
    vm_compute in H2, H3. vm_compute. split; [exact H2|exact H3].
Defined.

(** ** Measuring virtual time *)

Lemma elapsed_nonneg os : (0 <= elapsed os)%Z.
Proof. induction os as [|o os IH]; simpl; [lia|]. destruct o; lia. Qed.

Lemma run_at os : ∀ w w',
  run os w = Some w' → at_ (clock w') = (at_ (clock w) + elapsed os)%Z.
Proof.
  induction os as [|o os IH]; intros w w'; simpl.
  - intros [= <-]. lia.
  - case_decide; [|done]. destruct (exec o w) as [w1|] eqn:Hex; [|done].
    intros Hrun. rewrite (IH w1 w' Hrun), (exec_at o w w1 Hex).
    destruct o; lia.
Qed.

(** X11. [Since], asked after a run of calls for the instant at which the
    run began, returns the time the run's [Advance] calls let pass, capped
    at the largest [Duration]; it is never negative.  For any instant, it
    returns the saturated difference between the instant the run has
    reached and that instant. *)
Theorem X11_since_measures_elapsed (os : list op) (w w' : world) (t : time)
    (Hrun : run os w = Some w') :
  Since (Now w) w' = Z.min maxDuration (elapsed os) ∧
  (0 <= Since (Now w) w')%Z ∧
  Since t w' = Time_Sub (Now w + elapsed os)%Z t ∧
  (minDuration <= Since t w' <= maxDuration)%Z.
Proof.
  pose proof (elapsed_nonneg os) as Hpos.
  pose proof (run_at os w w' Hrun) as Hat.
  unfold Since, Time_Sub, Now, minDuration, maxDuration in *. rewrite Hat.
  split; [lia|]. split; [lia|]. split; [done|]. lia.
Qed.

Lemma X11_since_measures_elapsed_witness :
  Since 1000000000%Z
        (world_after [OpAfter second; OpAdvance second; OpAdvance (-7)%Z;
                      OpAdvance (2 * second)%Z])
  = (3 * second)%Z.
Proof.
  destruct (X11_since_measures_elapsed
              [OpAfter second; OpAdvance second; OpAdvance (-7)%Z;
               OpAdvance (2 * second)%Z]
              NewFakeClock
              (world_after [OpAfter second; OpAdvance second;
                            OpAdvance (-7)%Z; OpAdvance (2 * second)%Z])
              0%Z)
    as [Heq _].
  { vm_compute. reflexivity. }
  vm_compute in Heq. vm_compute. exact Heq.
Defined.

(** ** The channel of a timer after [Reset] *)

(** [Advance] sends nothing on the channel of a sleeper that is out of the
    registry. *)
Lemma Advance_sent_other e v s c :
  clock_ok v → s < nheap v → ¬ pending s v → sl_c (heap v s) = Some c →
  sent c (Advance e v) = sent c v.
Proof.
  intros Hok Hs Hp Hc. destruct (decide (e <= 0)%Z) as [He|He].
  { by rewrite Advance_not_positive. }
  destruct (Advance_spec v e Hok) as [_ H].
  destruct H as (_ & _ & _ & _ & _ & Htr & _); [lia|].
  unfold sent. rewrite Htr, sent_on_app, sent_on_fire_all.
  rewrite flat_map_none; [by rewrite app_nil_r|].
  intros p [_ Hin]%list_elem_of_filter.
  destruct (sl_woke (heap v p)); [done|].
  rewrite bool_decide_eq_false_2; [done|]. intros Hcp.
  assert (p = s) as ->; [|done].
  apply (sn_own v (ok_sends v Hok) p s c); [|done|done|done].
  by apply (reg_alloc v (ok_registry v Hok)).
Qed.

Lemma fakeTimer_Reset_orphan w t d r w1 c0 :
  clock_ok w → t < ntimers w →
  sl_c (heap w (tm_sleeper (timers w t))) = Some c0 →
  sl_woke (heap w (tm_sleeper (timers w t))) = false →
  fakeTimer_Reset t d w = Some (r, w1) →
  orphan c0 w1.
Proof.
  intros Hok Ht Hc0 Hwk. unfold fakeTimer_Reset, make_chan. simpl.
  set (s := tm_sleeper (timers w t)) in *.
  pose proof (ow_timers w (ok_owners w Hok) t Ht) as Hs. fold s in Hs.
  pose proof (ok_sends w Hok) as Hsn.
  pose proof (sn_fresh w Hsn s c0 Hs Hc0) as Hlt.
  match goal with
  | |- context [removeSleeper s ?v] => set (v1 := v)
  end.
  assert (orphan c0 v1) as Ho1.
  { split; [simpl; lia|]. split; [by apply (sn_unsent w Hsn s)|].
    intros p Hp. unfold v1, upd_sleeper; simpl.
    destruct (decide (p = s)) as [->|Hne].
    - rewrite !fn_lookup_insert. simpl. intros [= E]. lia.
    - rewrite !fn_lookup_insert_ne by done. intros Hcp. apply Hne.
      by apply (sn_own w Hsn p s c0). }
  destruct (removeSleeper s v1) as [[r' v2]|] eqn:Hr; [|done].
  intros [= _ <-].
  pose proof (removeSleeper_orphan _ _ _ _ c0 Hr Ho1) as Ho2.
  destruct (sl_f _); [|done].
  apply appendSleeper_orphan; [|done].
  by destruct (removeSleeper_frame _ _ _ _ Hr) as (_ & _ & _ & (-> & _) & _).
Qed.

(** What [Reset] leaves of a timer without a callback. *)
Lemma fakeTimer_Reset_plain w t d :
  clock_ok w → t < ntimers w →
  sl_f (heap w (tm_sleeper (timers w t))) = None →
  let s := tm_sleeper (timers w t) in
  ∃ r w1, fakeTimer_Reset t d w = Some (r, w1) ∧ clock_ok w1 ∧
          at_ (clock w1) = at_ (clock w) ∧ timers w1 = timers w ∧
          ntimers w1 = ntimers w ∧
          (sl_i (heap w1 s) < 0)%Z ∧ ¬ pending s w1 ∧
          sl_until (heap w1 s) = (at_ (clock w) + Z.max d 0)%Z ∧
          sl_woke (heap w1 s) = false ∧ sl_c (heap w1 s) = Some (nchan w).
Proof.
  intros Hok Ht Hf s.
  destruct (fakeTimer_Reset_clock_ok t d w Hok Ht) as (r0 & w0 & Hres & Hok').
  exists r0, w0. split; [done|]. split; [done|].
  revert Hres. unfold fakeTimer_Reset, make_chan. fold s. simpl.
  pose proof (ow_timers w (ok_owners w Hok) t Ht) as Hs. fold s in Hs.
  match goal with
  | |- context [removeSleeper s ?v] => set (v1 := v)
  end.
  assert (heap v1 s
          = Sleeper (sl_i (heap w s)) (at_ (clock w) + Z.max d 0)%Z
                    false (Some (nchan w)) (sl_f (heap w s))) as Hnew.
  { unfold v1, upd_sleeper, Time_Add; simpl. rewrite !fn_lookup_insert.
    unfold set_c, set_woke, set_until. simpl. f_equal.
    case_bool_decide; lia. }
  assert (registry_ok v1) as Hr1.
  { apply (registry_ok_frame w v1); [apply Hok|done|done|]. intros p.
    destruct (decide (p = s)) as [->|Hne]; [by rewrite Hnew|].
    unfold v1, upd_sleeper; simpl. by rewrite !fn_lookup_insert_ne. }
  destruct (removeSleeper_registry_ok s v1 Hr1 Hs) as (v2 & Hrm & _ & Hp).
  rewrite Hrm.
  destruct (removeSleeper_frame _ _ _ _ Hrm)
    as (Hat & _ & _ & (_ & Htm & Hnt & _) & Hsb & _ & Hneg & _).
  destruct (Hsb s) as (Hu2 & Hw2 & Hc2 & Hf2).
  rewrite Hnew in Hu2, Hw2, Hc2, Hf2. simpl in Hu2, Hw2, Hc2, Hf2.
  fold s in Hf. rewrite Hf in Hf2. rewrite Hf2. intros [= _ <-].
  split; [done|]. split; [done|]. split; [done|]. split; [done|].
  split; [intros Hin%Hp; by destruct Hin|]. done.
Qed.

(** X12. [Reset] gives the timer a new channel and abandons the one it had:
    when the timer had not fired, nothing is sent on the old channel through
    any run of calls that follows, so that a receiver that kept it waits for
    ever.  For every timer without a callback, whether it had fired, been
    stopped or was still pending, the next request returns the new channel,
    and a following [Advance] delivers on it the instant of the [Reset] plus
    the duration (a negative one counting as zero) exactly when it covers
    the duration. *)
Theorem X12_reset_replaces_channel (w w1 : world) (t : nat) (d : duration)
    (r : bool)
    (Hok : clock_ok w) (Ht : t < ntimers w)
    (Hreset : fakeTimer_Reset t d w = Some (r, w1)) :
  (∀ c0, sl_c (heap w (tm_sleeper (timers w t))) = Some c0 →
         sl_woke (heap w (tm_sleeper (timers w t))) = false →
         ∀ os w2, run os w1 = Some w2 → sent c0 w2 = []) ∧
  (sl_f (heap w (tm_sleeper (timers w t))) = None →
     (fakeTimer_C t w1).1 = Some (nchan w) ∧
     ∀ e, sent (nchan w) (Advance e (fakeTimer_C t w1).2)
          = if decide (Z.max d 0 <= Z.max e 0)%Z
            then [(at_ (clock w) + Z.max d 0)%Z] else []).
Proof.
  set (s := tm_sleeper (timers w t)) in *.
  assert (clock_ok w1) as Hok1.
  { apply (exec_Some_clock_ok (OpTimerReset t d) w w1 Hok Ht).
    simpl. by rewrite Hreset. }
  split.
  { intros c0 Hc0 Hasleep os w2 Hrun. apply sent_unsent.
    apply (run_orphan c0 os w1 w2 Hok1); [|done].
    by apply (fakeTimer_Reset_orphan w t d r w1 c0). }
  intros Hf.
  destruct (fakeTimer_Reset_plain w t d Hok Ht Hf)
    as (r' & w1' & Hres & _ & Hat & Htm & Hnt & Hi & Hnp & Hu & Hwk & Hc).
  rewrite Hreset in Hres. injection Hres as <- <-. fold s in Hi, Hnp, Hu, Hwk, Hc.
  assert (t < ntimers w1) as Ht1 by (by rewrite Hnt).
  pose proof (fakeTimer_C_clock_ok t w1 Hok1 Ht1) as Hokv.
  pose proof (ow_timers w (ok_owners w Hok) t Ht) as Hs. fold s in Hs.
  assert (s < nheap w1) as Hs1.
  { pose proof (ow_timers w1 (ok_owners w1 Hok1) t Ht1) as H.
    by rewrite Htm in H. }
  assert (fakeTimer_C t w1
          = (sl_c (heap (appendSleeper s w1) s), appendSleeper s w1)) as HC.
  { unfold fakeTimer_C. rewrite Htm. fold s.
    by rewrite bool_decide_eq_true_2. }
  rewrite HC in Hokv |- *. simpl in Hokv |- *.
  set (v := appendSleeper s w1) in *.
  destruct (appendSleeper_same_but_i s w1 s) as (Huv & Hcv & _).
  fold v in Huv, Hcv. rewrite Hu in Huv. rewrite Hc in Hcv.
  split; [done|]. intros e.
  assert (nheap v = nheap w1) as Hnv
    by exact (proj1 (appendSleeper_alloc s w1)).
  assert (at_ (clock v) = at_ (clock w)) as Hatv
    by (unfold v; by rewrite appendSleeper_at).
  assert (due s w1 ↔ (d <= 0)%Z) as Hdue.
  { unfold due. rewrite Hu, Hat. lia. }
  assert (sent (nchan w) w1 = []) as Hunsent.
  { apply sent_unsent. by apply (sn_unsent w1 (ok_sends w1 Hok1) s). }
  destruct (decide (d <= 0)%Z) as [Hd|Hd].
  - rewrite decide_True by lia.
    assert (¬ pending s v) as Hpv.
    { unfold v. rewrite appendSleeper_pending. intros [?|[_ Hnd]]; [done|].
      by apply Hnd, Hdue. }
    rewrite (Advance_sent_other e v s (nchan w) Hokv); [|lia|done|done].
    unfold sent, v. rewrite appendSleeper_trace.
    rewrite decide_True by (by apply Hdue).
    rewrite sent_on_app. unfold sent in Hunsent. rewrite Hunsent. simpl.
    rewrite sent_on_fire_events, Hwk, Hc, Hu.
    by rewrite bool_decide_eq_true_2.
  - assert (pending s v) as Hpv.
    { unfold v. rewrite appendSleeper_pending. right. split; [done|].
      rewrite Hdue. lia. }
    destruct (decide (e <= 0)%Z) as [He|He].
    { rewrite Advance_not_positive by done. rewrite decide_False by lia.
      apply sent_unsent.
      apply (sn_unsent v (ok_sends v Hokv) s); [lia| |done].
      by apply (ow_asleep v (ok_owners v Hokv)). }
    destruct (Advance_spec v e Hokv) as [_ H].
    destruct H as (_ & _ & _ & _ & _ & _ & Hfire & Hkeep & _); [lia|].
    rewrite Hatv in Hfire, Hkeep.
    case_decide as Hde.
    + destruct (Hfire s Hpv) as (_ & _ & _ & Hsent); [rewrite Huv; lia|].
      rewrite (Hsent _ Hcv). by rewrite Huv.
    + destruct (Hkeep s Hpv) as (_ & _ & _ & Hsent); [rewrite Huv; lia|].
      by apply Hsent.
Qed.

Lemma X12_reset_replaces_channel_witness :
  sent 0 (world_after [OpNewTimer second; OpTimerC 0;
                       OpTimerReset 0 (2 * second)%Z; OpTimerC 0;
                       OpAdvance (5 * second)%Z]) = [] ∧
  sent 1 (Advance (3 * second)%Z
            (fakeTimer_C 0
               (world_after [OpNewTimer second; OpTimerC 0;
                             OpAdvance (2 * second)%Z;
                             OpTimerReset 0 (3 * second)%Z])).2)
  = [(6 * second)%Z].
Proof.
  split.
  - destruct (X12_reset_replaces_channel
                (world_after [OpNewTimer second; OpTimerC 0])
                (world_after [OpNewTimer second; OpTimerC 0;
                              OpTimerReset 0 (2 * second)%Z])
                0 (2 * second)%Z true)
      as [Hold _].
    + apply world_after_ok. vm_compute. eauto.
    + vm_compute. lia.
    + vm_compute. reflexivity.
    + apply (Hold 0 ltac:(vm_compute; reflexivity)
               ltac:(vm_compute; reflexivity)
               [OpTimerC 0; OpAdvance (5 * second)%Z]).
      vm_compute. reflexivity.
  - destruct (X12_reset_replaces_channel
                (world_after [OpNewTimer second; OpTimerC 0;
                              OpAdvance (2 * second)%Z])
                (world_after [OpNewTimer second; OpTimerC 0;
                              OpAdvance (2 * second)%Z;
                              OpTimerReset 0 (3 * second)%Z])
                0 (3 * second)%Z false)
      as [_ Hnew].
    + apply world_after_ok. vm_compute. eauto.
    + vm_compute. lia.
    + vm_compute. reflexivity.
    + destruct Hnew as [_ Hsent]; [vm_compute; reflexivity|].
      specialize (Hsent (3 * second)%Z).
      vm_compute in Hsent. vm_compute. exact Hsent.
Defined.

(** ** Advancing in steps *)

Lemma fire_events_same_but_i a b :
  same_but_i a b → fire_events a = fire_events b.
Proof.
  intros (Hu & Hw & Hc & Hf). unfold fire_events. by rewrite Hu, Hw, Hc, Hf.
Qed.

Lemma same_but_i_eq a b : same_but_i a b → sl_i a = sl_i b → a = b.
Proof.
  destruct a, b. unfold same_but_i. simpl. intros (-> & -> & -> & ->) ->. done.
Qed.

(** The events of the sleepers due at an earlier instant, then those of the
    sleepers due between the two instants, are the events of the sleepers due
    at the later instant, in another order. *)
Lemma flat_map_two_steps {B} (g : ptr → list B) (u : ptr → Z) (n1 n2 : Z)
    (l : list ptr) :
  (n1 <= n2)%Z →
  flat_map g (filter (λ p, (u p <= n1)%Z) l) ++
  flat_map g (filter (λ p, (u p <= n2)%Z) (filter (λ p, (n1 < u p)%Z) l))
  ≡ₚ flat_map g (filter (λ p, (u p <= n2)%Z) l).
Proof.
  intros Hn. induction l as [|p l IH]; [done|].
  destruct (decide (u p <= n1)%Z) as [H1|H1].
  - rewrite (filter_cons_True (λ p, (u p <= n1)%Z)) by done.
    rewrite (filter_cons_False (λ p, (n1 < u p)%Z)) by lia.
    rewrite (filter_cons_True (λ p, (u p <= n2)%Z) p l) by lia.
    simpl. rewrite <- app_assoc. by rewrite IH.
  - rewrite (filter_cons_False (λ p, (u p <= n1)%Z)) by done.
    rewrite (filter_cons_True (λ p, (n1 < u p)%Z)) by lia.
    destruct (decide (u p <= n2)%Z) as [H2|H2].
    + rewrite !(filter_cons_True (λ p, (u p <= n2)%Z)) by done.
      simpl. rewrite <- IH.
      rewrite !app_assoc. apply Permutation_app_tail, Permutation_app_comm.
    + rewrite !(filter_cons_False (λ p, (u p <= n2)%Z)) by done. done.
Qed.

Lemma short_Permutation {A} (l k : list A) :
  l ≡ₚ k → length l ≤ 1 → l = k.
Proof.
  intros Hp Hl. destruct l as [|x [|y l]]; simpl in Hl; [| |lia].
  - by apply Permutation_nil_l.
  - by apply Permutation_singleton_l.
Qed.

Lemma Advance_two_steps (w : world) (d1 d2 : duration) (Hok : clock_ok w) :
  (0 < d1)%Z → (0 < d2)%Z →
  let a := Advance d2 (Advance d1 w) in
  let b := Advance (d1 + d2)%Z w in
  clock a = clock b ∧ (∀ p, heap a p = heap b p) ∧ trace a ≡ₚ trace b.
Proof.
  intros Hd1 Hd2 a b.
  destruct (Advance_spec w d1 Hok) as [_ H]. specialize (H Hd1).
  destruct H as (Hok1 & Hat1 & Hsl1 & Hbl1 & _ & Htr1 & Hfire1 & Hkeep1 & Hout1).
  set (w1 := Advance d1 w) in *.
  destruct (Advance_spec w1 d2 Hok1) as [_ H]. specialize (H Hd2).
  destruct H as (Hoka & Hata & Hsla & Hbla & _ & Htra & Hfirea & Hkeepa & Houta).
  fold a in Hoka, Hata, Hsla, Hbla, Htra, Hfirea, Hkeepa, Houta.
  destruct (Advance_spec w (d1 + d2)%Z Hok) as [_ H].
  destruct H as (Hokb & Hatb & Hslb & Hblb & _ & Htrb & Hfireb & Hkeepb & Houtb);
    [lia|].
  fold b in Hokb, Hatb, Hslb, Hblb, Htrb, Hfireb, Hkeepb, Houtb.
  set (now1 := (at_ (clock w) + d1)%Z) in *.
  set (now2 := (at_ (clock w) + (d1 + d2))%Z) in *.
  rewrite Hat1 in Hata, Hsla, Htra, Hfirea, Hkeepa.
  replace (now1 + d2)%Z with now2 in Hata, Hsla, Htra, Hfirea, Hkeepa
    by (unfold now1, now2; lia).
  set (l := sleepers (clock w)) in *.
  assert (∀ p, p ∈ sleepers (clock w1) →
               p ∈ l ∧ (now1 < sl_until (heap w p))%Z ∧
               same_but_i (heap w1 p) (heap w p)) as Hkept.
  { intros p Hp. rewrite Hsl1 in Hp.
    apply list_elem_of_filter in Hp as [Hlt Hin].
    split; [done|]. split; [done|]. by apply Hkeep1. }
  assert (sleepers (clock a) = sleepers (clock b)) as Hsl.
  { rewrite Hsla, Hslb.
    rewrite (filter_ext_in _ (λ p, (now2 < sl_until (heap w p))%Z)
               (sleepers (clock w1))).
    - rewrite Hsl1, list_filter_filter. apply filter_ext_in.
      intros p _. unfold now1, now2. lia.
    - intros p Hp. destruct (Hkept p Hp) as (_ & _ & (-> & _)). done. }
  split; [|split].
  - destruct (clock a), (clock b). simpl in *. congruence.
  - intros p. destruct (decide (pending p w)) as [Hp|Hp].
    + destruct (decide (sl_until (heap w p) <= now1)%Z) as [Hu1|Hu1].
      * destruct (Hfire1 p Hp Hu1) as (_ & Hh1 & Hnp1 & _).
        destruct (Hfireb p Hp) as (_ & Hhb & _); [unfold now1, now2 in *; lia|].
        by rewrite (Houta p Hnp1), Hh1, Hhb.
      * destruct (Hkeep1 p Hp) as (Hp1 & Hsb1 & Hw1 & _); [lia|].
        destruct (decide (sl_until (heap w p) <= now2)%Z) as [Hu2|Hu2].
        -- destruct (Hfirea p Hp1) as (_ & Hha & _).
           { destruct Hsb1 as (-> & _). done. }
           destruct (Hfireb p Hp Hu2) as (_ & Hhb & _).
           rewrite Hha, Hhb. apply same_but_i_eq; [|done].
           destruct Hsb1 as (? & ? & ? & ?). by repeat split.
        -- destruct (Hkeepa p Hp1) as (Hpa & Hsba & _).
           { destruct Hsb1 as (-> & _). lia. }
           destruct (Hkeepb p Hp) as (Hpb & Hsbb & _); [lia|].
           apply same_but_i_eq.
           ++ destruct Hsb1 as (? & ? & ? & ?), Hsba as (? & ? & ? & ?),
                Hsbb as (? & ? & ? & ?). repeat split; congruence.
           ++ apply list_elem_of_lookup_1 in Hpa as [pos Hpos].
              rewrite (reg_index a (ok_registry a Hoka) pos p Hpos).
              rewrite Hsl in Hpos.
              by rewrite (reg_index b (ok_registry b Hokb) pos p Hpos).
    + assert (¬ pending p w1) as Hp1.
      { intros Hin. by destruct (Hkept p Hin) as (? & _). }
      by rewrite (Houta p Hp1), (Hout1 p Hp), (Houtb p Hp).
  - rewrite Htra, Htr1, Htrb, <- app_assoc. apply Permutation_app_head.
    rewrite <- (flat_map_two_steps _ (λ p, sl_until (heap w p)) now1 now2 l)
      by (unfold now1, now2; lia).
    apply Permutation_app_head. rewrite Hsl1. fold l.
    rewrite (filter_ext_in _ (λ p, (sl_until (heap w p) <= now2)%Z)
               (filter (λ p, (now1 < sl_until (heap w p))%Z) l)).
    + rewrite (flat_map_ext_in _ (λ p, fire_events (heap w p))); [done|].
      intros p [_ Hp]%list_elem_of_filter.
      apply fire_events_same_but_i, Hkept. by rewrite Hsl1.
    + intros p Hp. destruct (Hkept p) as (_ & _ & (-> & _)); [|done].
      by rewrite Hsl1.
Qed.

(** X13. On a world that satisfies the invariant, advancing the clock by two
    durations that are not negative, one after the other, leaves the clock
    (instant, registry and blockers) and every sleeper as one [Advance] by
    their sum does; the same events happen, possibly in another order, and
    every channel has received the same values. *)
Theorem X13_advance_in_two_steps (w : world) (d1 d2 : duration)
    (Hok : clock_ok w) (Hd1 : (0 <= d1)%Z) (Hd2 : (0 <= d2)%Z) :
  let a := Advance d2 (Advance d1 w) in
  let b := Advance (d1 + d2)%Z w in
  clock a = clock b ∧ (∀ p, heap a p = heap b p) ∧ trace a ≡ₚ trace b ∧
  ∀ c, sent c a = sent c b.
Proof.
  intros a b.
  assert (clock a = clock b ∧ (∀ p, heap a p = heap b p) ∧ trace a ≡ₚ trace b)
    as (Hc & Hh & Htr).
  { unfold a, b. destruct (decide (d1 = 0%Z)) as [->|Hn1].
    { rewrite (Advance_not_positive 0%Z w) by lia.
      replace (0 + d2)%Z with d2 by lia. done. }
    destruct (decide (d2 = 0%Z)) as [->|Hn2].
    { rewrite (Advance_not_positive 0%Z) by lia.
      replace (d1 + 0)%Z with d1 by lia. done. }
    apply Advance_two_steps; [done|lia|lia]. }
  split; [done|]. split; [done|]. split; [done|]. intros c.
  apply short_Permutation.
  - unfold sent, sent_on. by rewrite Htr.
  - apply sent_on_length.
    assert (clock_ok a) as Hoka by (by apply Advance_clock_ok, Advance_clock_ok).
    apply (sn_once a (ok_sends a Hoka)).
Qed.

Lemma X13_advance_in_two_steps_witness :
  sent 1 (Advance (2 * second)%Z (Advance second two_sleepers_world))
  = sent 1 (Advance (3 * second)%Z two_sleepers_world).
Proof.
  destruct (X13_advance_in_two_steps two_sleepers_world second
              (2 * second)%Z two_sleepers_world_ok)
    as (_ & _ & _ & Hsent).
  - unfold second. lia.
  - unfold second. lia.
  - specialize (Hsent 1). vm_compute in Hsent. vm_compute. exact Hsent.
Defined.

(** ** Registering and removing *)

(** X14. A timer with a positive duration that is made, asked for its
    channel and stopped, on a world that satisfies the invariant: [Stop]
    returns [true] and the registry is again, entry for entry, what it was
    before the timer was made; the sleepers that existed before are as they
    were, and the timer's sleeper has the index -1.  The removal of the
    registry's last entry is the case in which the removed sleeper is also
    the one that takes the free place. *)
Theorem X14_request_then_stop_restores (w : world) (d : duration)
    (Hok : clock_ok w) (Hd : (0 < d)%Z) :
  let t := (NewTimer d w).1 in
  let w1 := (fakeTimer_C t (NewTimer d w).2).2 in
  ∃ w2, fakeTimer_Stop t w1 = Some (true, w2) ∧
        sleepers (clock w1) = sleepers (clock w) ++ [nheap w] ∧
        sleepers (clock w2) = sleepers (clock w) ∧
        at_ (clock w2) = at_ (clock w) ∧
        trace w2 = trace w1 ∧
        sl_i (heap w2 (nheap w)) = (-1)%Z ∧
        ∀ p, p < nheap w → heap w2 p = heap w p.
Proof.
  intros t w1. set (s := nheap w). set (w0 := (NewTimer d w).2).
  assert (t = ntimers w) as Ht by done.
  assert (tm_sleeper (timers w0 t) = s ∧ tm_stopped (timers w0 t) = false)
    as [Hs Hst].
  { unfold w0, t, NewTimer, new_timer, new_sleeper, make_chan. simpl.
    by rewrite fn_lookup_insert. }
  assert (heap w0 s = Sleeper (-1) (Now w + d)%Z false (Some (nchan w)) None)
    as Hnew.
  { unfold w0, NewTimer, new_timer, new_sleeper, make_chan. simpl.
    by rewrite fn_lookup_insert. }
  assert (∀ p, p ≠ s → heap w0 p = heap w p) as Hh0.
  { intros p Hp. unfold w0, NewTimer, new_timer, new_sleeper, make_chan.
    simpl. by rewrite fn_lookup_insert_ne. }
  assert (w1 = appendSleeper s w0) as Hw1.
  { unfold w1, fakeTimer_C. fold w0. rewrite Hs, Hnew. done. }
  assert (¬ due s w0) as Hnd.
  { unfold due. rewrite Hnew. unfold Now. simpl.
    change (at_ (clock w0)) with (at_ (clock w)). lia. }
  set (l := sleepers (clock w)).
  assert (sleepers (clock w1) = l ++ [s]) as Hsl.
  { rewrite Hw1, appendSleeper_sleepers. by rewrite decide_False. }
  assert (heap w1 s = Sleeper (Z.of_nat (length l)) (Now w + d)%Z false
                              (Some (nchan w)) None) as Hs1.
  { rewrite Hw1, appendSleeper_heap. rewrite decide_True by done.
    rewrite decide_False by done. by rewrite Hnew. }
  assert (∀ p, p ≠ s → heap w1 p = heap w p) as Hh1.
  { intros p Hp. rewrite Hw1, appendSleeper_heap_ne by done. by apply Hh0. }
  assert (timers w1 = timers w0) as Htm.
  { rewrite Hw1. by destruct (appendSleeper_alloc s w0) as (_ & -> & _). }
  assert (removeSleeper s w1
          = Some (true, removed s (sl_i (heap w1 s)) s w1)) as Hrm.
  { apply removeSleeper_registered.
    - rewrite Hs1. simpl. lia.
    - rewrite Hsl, length_app. simpl.
      rewrite lookup_app_r by lia.
      by replace (length l + 1 - 1 - length l) with 0 by lia.
    - exists s. rewrite Hs1. simpl. rewrite Nat2Z.id, Hsl.
      rewrite lookup_app_r by lia. by rewrite Nat.sub_diag. }
  eexists. split.
  { unfold fakeTimer_Stop. rewrite Htm, Hst, Hs, Hrm. done. }
  split; [done|]. simpl. rewrite Hsl, Hs1. simpl.
  rewrite Nat2Z.id, length_app. simpl.
  split.
  { replace (length l + 1 - 1) with (length l) by lia.
    rewrite take_insert_ge by lia. by rewrite take_app_length. }
  split; [by rewrite Hw1, appendSleeper_at|]. split; [done|]. split.
  { by rewrite fn_lookup_insert. }
  intros p Hp. rewrite !fn_lookup_insert_ne by (unfold s; lia).
  apply Hh1. unfold s. lia.
Qed.

Lemma X14_request_then_stop_restores_witness :
  ∃ w2, fakeTimer_Stop 1 (fakeTimer_C 1 (NewTimer second idle_timer_world).2).2
        = Some (true, w2) ∧
        sleepers (clock w2) = sleepers (clock idle_timer_world).
Proof.
  destruct (X14_request_then_stop_restores idle_timer_world second
              idle_timer_world_ok)
    as (w2 & Hstop & _ & Hsl & _).
  - unfold second. lia.
  - exists w2. split; [exact Hstop|exact Hsl].
Defined.
